(** * GeomVertexArrayData: tiered residency of vertex buffers

    A shallow embedding of [panda/src/gobj/geomVertexArrayData.cxx]: the
    four residency classes of a vertex array and the transitions between
    them, the per-device context table, and the endian-aware Bam
    serialization.

    Conventions of the embedding.
    - One pipeline stage: [_cycler] holds a single [CData] (the
      non-pipelined build, where [CDWriter cdata(_cycler, true)] is the
      one copy of the cycle data).
    - [size_t] and [uLongf] are 64 bits wide; the places where the source
      computes in them are wrapped by [to_size_t].
    - A pointer is an address in [Z], the null pointer is [0]; an owned
      pointer that the source only tests against [NULL] and dereferences
      is an [option].
    - [nassertv(c)] reports an assertion failure and returns from the
      function when [c] is false; [nassert_raise(m)] reports one and goes
      on.  Reports, error and warning lines, and the calls made to the
      codec and to the save file are appended to the world's output, the
      newest first.  Debug lines and PStats timers are left out.
    - [HAVE_ZLIB] is defined. *)

From Stdlib Require Import ZArith List Lia Bool String.
From Stdlib Require Import Strings.Byte.
From stdpp Require Import base option list gmap sorting.
Import ListNotations.
Open Scope Z_scope.

(** ** Machine integers and raw memory *)

Definition to_size_t (z : Z) : Z := z mod 2 ^ 64.

Definition Z_OK : Z := 0.

(** [Data new_data(n, type)]: a vector of [n] zero bytes. *)
Definition new_Data (n : Z) : list byte := repeat x00 (Z.to_nat n).

(** The contents of a destination region [dest] after a callee has
    stored [written] from its first byte on; the region keeps its length. *)
Definition stored_into (dest written : list byte) : list byte :=
  firstn (length dest) (written ++ skipn (length written) dest).

(** ** Array formats *)

Record GeomVertexColumn := mkColumn {
  _start : Z;
  _num_components : Z;
  _component_bytes : Z
}.

Record GeomVertexArrayFormat := mkFormat {
  _is_registered : bool;
  _stride : Z;
  _columns : list GeomVertexColumn
}.

Definition is_registered (f : GeomVertexArrayFormat) : bool := _is_registered f.
Definition get_stride (f : GeomVertexArrayFormat) : Z := _stride f.
Definition get_num_columns (f : GeomVertexArrayFormat) : Z :=
  Z.of_nat (length (_columns f)).

(** Modelled from the spec: [GeomVertexArrayFormat::register_format] is
    not in the sources at hand; registering interns the format, which
    yields an equivalent format, here the same schema marked registered. *)
Definition register_format (f : GeomVertexArrayFormat) : GeomVertexArrayFormat :=
  mkFormat true (_stride f) (_columns f).

(** Two formats are equivalent when they describe the same rows. *)
Definition format_equiv (f g : GeomVertexArrayFormat) : Prop :=
  _stride f = _stride g /\ _columns f = _columns g.

(** ** Residency classes and the three global LRUs *)

(** The enumeration ends with the sentinel [RC_end_of_list], the length
    of [_global_lru]; no buffer carries it and it is not a constructor. *)
Inductive RamClass := RC_resident | RC_compressed | RC_disk | RC_compressed_disk.

Inductive LruId := Ram_lru | Compressed_lru | Disk_lru.

Definition _global_lru (rc : RamClass) : LruId :=
  match rc with
  | RC_resident => Ram_lru
  | RC_compressed => Compressed_lru
  | RC_disk => Disk_lru
  | RC_compressed_disk => Disk_lru
  end.

Global Instance RamClass_eq_dec : EqDecision RamClass.
Proof. solve_decision. Defined.

Global Instance LruId_eq_dec : EqDecision LruId.
Proof. solve_decision. Defined.

(** Modelled from the spec: [SimpleLru] is not in the sources at hand.  A
    tier is a byte budget and the ordered list of its pages, the least
    recently used first; each page carries its own byte size. *)
Record SimpleLru := mkLru {
  _max_size : Z;
  _pages : list Z
}.

Definition get_max_size (l : SimpleLru) : Z := _max_size l.

Inductive UsageHint := UH_client | UH_stream | UH_dynamic | UH_static | UH_unspecified.

Record SimpleAllocatorBlock := mkBlock {
  blk_start : Z;
  blk_size : Z
}.

Definition get_size (b : SimpleAllocatorBlock) : Z := blk_size b.

(** ** Collaborators *)

(** zlib.  [compress2 cap src level] is the result code and the first
    [buffer_size] bytes of the output buffer as the call leaves them;
    [uncompress cap src] is the result code, the value left in
    [dest_len], and the bytes stored into the destination. *)
Class Zlib := {
  compress2 : Z -> list byte -> Z -> Z * list byte;
  uncompress : Z -> list byte -> Z * Z * list byte
}.

(** [VertexDataSaveFile], with a state of type [SF].  A refused
    [write_data] (null block) allocates nothing and leaves the file as
    it was; [read_data sf size b] is the success flag and the bytes
    stored into the destination; [free_block] is what deleting a block
    does to the file. *)
Class VertexDataSaveFile (SF : Type) := {
  write_data : SF -> list byte -> option (SimpleAllocatorBlock * SF);
  read_data : SF -> Z -> SimpleAllocatorBlock -> bool * list byte;
  free_block : SF -> SimpleAllocatorBlock -> SF
}.

(** [PreparedGraphicsObjects::prepare_vertex_buffer_now(this, gsg)] on
    the device [po]: the address of the new context, or null. *)
Class Device := {
  prepare_vertex_buffer_now : Z -> Z -> Z -> Z
}.

(** ** The configuration variables *)

Record Config := mkConfig {
  max_ram_vertex_data : Z;
  max_compressed_vertex_data : Z;
  vertex_data_compression_level : Z;
  max_disk_vertex_data : Z;
  min_vertex_data_compress_size_var : Z
}.

Definition default_config : Config := mkConfig (-1) (-1) 1 (-1) 64.

(** [static const size_t min_vertex_data_compress_size]. *)
Definition min_vertex_data_compress_size (c : Config) : Z :=
  to_size_t (min_vertex_data_compress_size_var c).

(** ** The buffer and the process state *)

Record CData := mkCData {
  _usage_hint : UsageHint;
  _data : list byte;
  _data_full_size : Z;
  _modified : Z
}.

Record GeomVertexArrayData := mkArrayData {
  _this : Z;
  _array_format : option GeomVertexArrayFormat;
  _cycler : CData;
  _endian_reversed : bool;
  _ram_class : RamClass;
  _saved_block : option SimpleAllocatorBlock;
  _contexts : gmap Z Z;
  _lru : option LruId;
  _lru_size : Z
}.

Inductive Event :=
| Ev_error (msg : string) (code : Z)
| Ev_warning (msg : string)
| Ev_assert (msg : string)
| Ev_compress2 (src : list byte) (level : Z)
| Ev_uncompress (src : list byte) (dest_len : Z)
| Ev_write_data (data : list byte)
| Ev_read_data (size : Z) (block : SimpleAllocatorBlock).

Record World (SF : Type) := mkWorld {
  obj : GeomVertexArrayData;
  _ram_lru : SimpleLru;
  _compressed_lru : SimpleLru;
  _disk_lru : SimpleLru;
  _save_file : SF;
  config : Config;
  next_modified : Z;
  output : list Event
}.

Arguments mkWorld {SF}.
Arguments obj {SF}.
Arguments _ram_lru {SF}.
Arguments _compressed_lru {SF}.
Arguments _disk_lru {SF}.
Arguments _save_file {SF}.
Arguments config {SF}.
Arguments next_modified {SF}.
Arguments output {SF}.

(** *** Field updates *)

Definition cd_set_data (d : list byte) (c : CData) : CData :=
  mkCData (_usage_hint c) d (_data_full_size c) (_modified c).

Definition cd_set_full_size (n : Z) (c : CData) : CData :=
  mkCData (_usage_hint c) (_data c) n (_modified c).

Definition cd_set_usage_hint (u : UsageHint) (c : CData) : CData :=
  mkCData u (_data c) (_data_full_size c) (_modified c).

Definition cd_set_modified (m : Z) (c : CData) : CData :=
  mkCData (_usage_hint c) (_data c) (_data_full_size c) m.

Definition set_array_format (f : option GeomVertexArrayFormat) (a : GeomVertexArrayData) :=
  mkArrayData (_this a) f (_cycler a) (_endian_reversed a) (_ram_class a)
    (_saved_block a) (_contexts a) (_lru a) (_lru_size a).

Definition set_cycler (c : CData) (a : GeomVertexArrayData) :=
  mkArrayData (_this a) (_array_format a) c (_endian_reversed a) (_ram_class a)
    (_saved_block a) (_contexts a) (_lru a) (_lru_size a).

Definition set_endian_reversed (b : bool) (a : GeomVertexArrayData) :=
  mkArrayData (_this a) (_array_format a) (_cycler a) b (_ram_class a)
    (_saved_block a) (_contexts a) (_lru a) (_lru_size a).

Definition set_class_field (rc : RamClass) (a : GeomVertexArrayData) :=
  mkArrayData (_this a) (_array_format a) (_cycler a) (_endian_reversed a) rc
    (_saved_block a) (_contexts a) (_lru a) (_lru_size a).

Definition set_saved_block (b : option SimpleAllocatorBlock) (a : GeomVertexArrayData) :=
  mkArrayData (_this a) (_array_format a) (_cycler a) (_endian_reversed a)
    (_ram_class a) b (_contexts a) (_lru a) (_lru_size a).

Definition set_contexts (m : gmap Z Z) (a : GeomVertexArrayData) :=
  mkArrayData (_this a) (_array_format a) (_cycler a) (_endian_reversed a)
    (_ram_class a) (_saved_block a) m (_lru a) (_lru_size a).

Definition set_lru_field (l : option LruId) (a : GeomVertexArrayData) :=
  mkArrayData (_this a) (_array_format a) (_cycler a) (_endian_reversed a)
    (_ram_class a) (_saved_block a) (_contexts a) l (_lru_size a).

Definition set_lru_size_field (n : Z) (a : GeomVertexArrayData) :=
  mkArrayData (_this a) (_array_format a) (_cycler a) (_endian_reversed a)
    (_ram_class a) (_saved_block a) (_contexts a) (_lru a) n.

Section WorldUpdates.
Context {SF : Type}.

Definition with_obj (f : GeomVertexArrayData -> GeomVertexArrayData) (w : World SF) : World SF :=
  mkWorld (f (obj w)) (_ram_lru w) (_compressed_lru w) (_disk_lru w)
    (_save_file w) (config w) (next_modified w) (output w).

Definition with_save_file (sf : SF) (w : World SF) : World SF :=
  mkWorld (obj w) (_ram_lru w) (_compressed_lru w) (_disk_lru w)
    sf (config w) (next_modified w) (output w).

Definition with_next_modified (n : Z) (w : World SF) : World SF :=
  mkWorld (obj w) (_ram_lru w) (_compressed_lru w) (_disk_lru w)
    (_save_file w) (config w) n (output w).

Definition emit (e : Event) (w : World SF) : World SF :=
  mkWorld (obj w) (_ram_lru w) (_compressed_lru w) (_disk_lru w)
    (_save_file w) (config w) (next_modified w) (e :: output w).

Definition get_lru_list (l : LruId) (w : World SF) : SimpleLru :=
  match l with
  | Ram_lru => _ram_lru w
  | Compressed_lru => _compressed_lru w
  | Disk_lru => _disk_lru w
  end.

Definition with_pages (l : LruId) (f : list Z -> list Z) (w : World SF) : World SF :=
  let upd (k : LruId) (t : SimpleLru) :=
    if decide (k = l) then mkLru (_max_size t) (f (_pages t)) else t in
  mkWorld (obj w) (upd Ram_lru (_ram_lru w)) (upd Compressed_lru (_compressed_lru w))
    (upd Disk_lru (_disk_lru w)) (_save_file w) (config w) (next_modified w) (output w).

Definition cdata (w : World SF) : CData := _cycler (obj w).

Definition with_cdata (f : CData -> CData) (w : World SF) : World SF :=
  with_obj (fun a => set_cycler (f (_cycler a)) a) w.

(** *** SimpleLruPage *)

(** Modelled from the spec: [SimpleLruPage] is not in the sources at
    hand.  Withdrawing a page takes it out of its tier's list;
    enrolling it puts it at the most recently used end.  A page is one
    node of the list, so it occurs there at most once. *)
Definition withdraw (page : Z) (pages : list Z) : list Z :=
  filter (fun p => p <> page) pages.

Definition enroll (page : Z) (pages : list Z) : list Z :=
  withdraw page pages ++ [page].

Definition dequeue_lru (w : World SF) : World SF :=
  match _lru (obj w) with
  | Some old => with_obj (set_lru_field None) (with_pages old (withdraw (_this (obj w))) w)
  | None => w
  end.

Definition enqueue_lru (lru : option LruId) (w : World SF) : World SF :=
  let w1 := dequeue_lru w in
  match lru with
  | Some l => with_obj (set_lru_field (Some l)) (with_pages l (enroll (_this (obj w1))) w1)
  | None => w1
  end.

(** [mark_used_lru(lru)]: move the page to the tail of [lru]. *)
Definition mark_used_lru_in (lru : LruId) (w : World SF) : World SF :=
  enqueue_lru (Some lru) w.

(** [mark_used_lru()]: touch the page in the tier it is in, if any. *)
Definition mark_used_lru (w : World SF) : World SF :=
  match _lru (obj w) with
  | Some l => enqueue_lru (Some l) w
  | None => w
  end.

Definition get_lru (w : World SF) : option LruId := _lru (obj w).

Definition set_lru_size (n : Z) (w : World SF) : World SF :=
  with_obj (set_lru_size_field n) w.

(** Modelled from the spec: [set_ram_class] is declared in the header,
    which is not at hand; a residency change withdraws the page from
    its old tier and enrolls it, most recently used, in the new one. *)
Definition set_ram_class (rc : RamClass) (w : World SF) : World SF :=
  mark_used_lru_in (_global_lru rc) (with_obj (set_class_field rc) w).

Definition data_size (w : World SF) : Z := Z.of_nat (length (_data (cdata w))).

End WorldUpdates.

Arguments dequeue_lru : simpl never.
Arguments enqueue_lru : simpl never.
Arguments mark_used_lru : simpl never.
Arguments mark_used_lru_in : simpl never.
Arguments set_ram_class : simpl never.

(** ** The residency state machine *)

Definition is_on_disk (rc : RamClass) : bool :=
  match rc with
  | RC_disk | RC_compressed_disk => true
  | RC_resident | RC_compressed => false
  end.

Definition is_in_ram (rc : RamClass) : bool :=
  match rc with
  | RC_resident | RC_compressed => true
  | RC_disk | RC_compressed_disk => false
  end.

(** [buffer_size] handed to [compress2]: 0.1% more than the input plus
    twelve bytes, in [uLongf] arithmetic. *)
Definition compress_buffer_size (full : Z) : Z :=
  to_size_t (full + to_size_t (full + 999) / 1000 + 12).

(** Modelled from the spec: the constructor of [CData] is declared in the
    header, which is not at hand; a fresh cycle data holds no bytes. *)
Definition CData_new : CData := mkCData UH_unspecified [] 0 0.

Section Residency.
Context {SF : Type} {SFO : VertexDataSaveFile SF} {ZL : Zlib}.

Definition ram_class (w : World SF) : RamClass := _ram_class (obj w).

(** [GeomVertexArrayData(array_format, usage_hint)], for the object at
    address [this]. *)
Definition construct (this : Z) (array_format : GeomVertexArrayFormat)
    (usage_hint : UsageHint) (w : World SF) : World SF :=
  let a := mkArrayData this (Some array_format)
             (cd_set_usage_hint usage_hint CData_new)
             false RC_resident None ∅ None 0 in
  let w := with_obj (fun _ => a) w in
  let w := mark_used_lru_in (_global_lru RC_resident) w in
  if is_registered array_format then w
  else emit (Ev_assert "_array_format->is_registered()") w.

(** [GeomVertexArrayData(const GeomVertexArrayData &copy)], for the new
    object at address [this]; [copy] is the object of [w].  The page is
    copy-constructed with the size of [copy] and in no tier; the
    context table starts empty. *)
Definition copy_construct (this : Z) (w : World SF) : World SF :=
  let copy := obj w in
  let a := mkArrayData this (_array_format copy) (_cycler copy)
             false (_ram_class copy) None ∅ None (_lru_size copy) in
  let w := with_obj (fun _ => a) w in
  let w := mark_used_lru_in (_global_lru (_ram_class a)) w in
  match _array_format a with
  | Some f =>
      if is_registered f then w
      else emit (Ev_assert "_array_format->is_registered()") w
  | None => emit (Ev_assert "_array_format->is_registered()") w
  end.

Definition restore_from_disk (w : World SF) : World SF :=
  if is_on_disk (ram_class w) then
    match _saved_block (obj w) with
    | None => emit (Ev_assert "_saved_block != NULL") w
    | Some blk =>
        let size := get_size blk in
        let new_data := new_Data size in
        let r := read_data (_save_file w) size blk in
        let new_data := stored_into new_data (snd r) in
        let w := emit (Ev_read_data size blk) w in
        let w := if fst r then w else emit (Ev_assert "read error") w in
        let w := with_cdata (cd_set_data new_data) w in
        let w := with_save_file (free_block (_save_file w) blk) w in
        let w := with_obj (set_saved_block None) w in
        if decide (ram_class w = RC_compressed_disk)
        then set_ram_class RC_compressed w
        else set_ram_class RC_resident w
    end
  else w.

(** The block of [make_resident] guarded by [_ram_class == RC_compressed]. *)
Definition expand_compressed (w : World SF) : World SF :=
  let full := _data_full_size (cdata w) in
  let finish (w : World SF) :=
    set_ram_class RC_resident (set_lru_size (data_size w) w) in
  if min_vertex_data_compress_size (config w) <? full then
    let new_data := new_Data full in
    let src := _data (cdata w) in
    let r := uncompress full src in
    let result := fst (fst r) in
    let dest_len := snd (fst r) in
    let new_data := stored_into new_data (snd r) in
    let w := emit (Ev_uncompress src full) w in
    let w := if result =? Z_OK then w
             else emit (Ev_assert "zlib error")
                    (emit (Ev_error "Couldn't expand: zlib error" result) w) in
    if dest_len =? Z.of_nat (length new_data) then
      finish (with_cdata (cd_set_data new_data) w)
    else emit (Ev_assert "dest_len == new_data.size()") w
  else finish w.

Definition make_resident (w : World SF) : World SF :=
  if decide (ram_class w = RC_resident) then mark_used_lru w
  else
    let w := if is_on_disk (ram_class w) then restore_from_disk w else w in
    if decide (ram_class w = RC_compressed) then expand_compressed w else w.

(** The block of [make_compressed] guarded by [_ram_class == RC_resident].
    The codec reads [_data_full_size] bytes from the start of [_data]. *)
Definition compress_resident (w : World SF) : World SF :=
  let full := _data_full_size (cdata w) in
  let w :=
    if min_vertex_data_compress_size (config w) <? full then
      let buffer_size := compress_buffer_size full in
      let src := firstn (Z.to_nat full) (_data (cdata w)) in
      let level := vertex_data_compression_level (config w) in
      let r := compress2 buffer_size src level in
      let result := fst r in
      let w := emit (Ev_compress2 src level) w in
      let w := if result =? Z_OK then w
               else emit (Ev_assert "zlib error")
                      (emit (Ev_error "Couldn't compress: zlib error" result) w) in
      with_cdata (cd_set_data (snd r)) w
    else w in
  set_ram_class RC_compressed (set_lru_size (data_size w) w).

Definition make_compressed (w : World SF) : World SF :=
  if decide (ram_class w = RC_compressed) then mark_used_lru w
  else
    let w := if is_on_disk (ram_class w) then restore_from_disk w else w in
    if decide (ram_class w = RC_resident) then compress_resident w else w.

Definition make_disk (w : World SF) : World SF :=
  if is_on_disk (ram_class w) then mark_used_lru w
  else if is_in_ram (ram_class w) then
    match _saved_block (obj w) with
    | Some _ => emit (Ev_assert "_saved_block == NULL") w
    | None =>
        let data := _data (cdata w) in
        let w := emit (Ev_write_data data) w in
        match write_data (_save_file w) data with
        | None => mark_used_lru (with_obj (set_saved_block None) w)
        | Some (blk, sf) =>
            let w := with_save_file sf (with_obj (set_saved_block (Some blk)) w) in
            let w := with_cdata (cd_set_data []) w in
            if decide (ram_class w = RC_resident)
            then set_ram_class RC_disk w
            else set_ram_class RC_compressed_disk w
        end
    end
  else w.

Definition evict_lru (w : World SF) : World SF :=
  if decide (get_lru w = Some (_global_lru (ram_class w))) then
    match ram_class w with
    | RC_resident =>
        if get_max_size (_compressed_lru w) =? 0 then make_disk w
        else make_compressed w
    | RC_compressed => make_disk w
    | RC_disk | RC_compressed_disk =>
        emit (Ev_warning "Cannot evict array data from disk.") w
    end
  else emit (Ev_assert "get_lru() == get_global_lru(_ram_class)") w.

(** [make_cow_copy()]: the copy that copy-on-write takes, at [this]. *)
Definition make_cow_copy (this : Z) (w : World SF) : World SF :=
  copy_construct this (make_resident w).

End Residency.

(** ** The device-context table *)

Section Contexts.
Context {SF : Type} {DEV : Device}.

(** [prepare_now(prepared_objects, gsg)]: the context returned and the
    world after the call. *)
Definition prepare_now (prepared_objects gsg : Z) (w : World SF) : Z * World SF :=
  match _contexts (obj w) !! prepared_objects with
  | Some vbc => (vbc, w)
  | None =>
      let vbc := prepare_vertex_buffer_now prepared_objects (_this (obj w)) gsg in
      let w := if decide (vbc <> 0)
               then with_obj (fun a => set_contexts (<[prepared_objects := vbc]> (_contexts a)) a) w
               else w in
      (vbc, w)
  end.

End Contexts.

(** ** Endianness conversion *)

(** The [n] bytes at offset [p] of a region, when they lie inside it. *)
Definition read_bytes (m : list byte) (p n : Z) : option (list byte) :=
  if (0 <=? p) && (0 <=? n) && (p + n <=? Z.of_nat (length m))
  then Some (firstn (Z.to_nat n) (skipn (Z.to_nat p) m))
  else None.

(** The region after [bs] is stored at offset [p], when it fits. *)
Definition write_bytes (m : list byte) (p : Z) (bs : list byte) : option (list byte) :=
  if (0 <=? p) && (p + Z.of_nat (length bs) <=? Z.of_nat (length m))
  then Some (firstn (Z.to_nat p) m ++ bs ++ skipn (Z.to_nat p + length bs) m)
  else None.

(** Modelled from the spec: [ReversedNumericData] is not in the sources
    at hand; it holds the bytes of one numeric value in reverse order. *)
Definition ReversedNumericData (bs : list byte) : list byte := rev bs.

(** The loop over the components of one column: [ci] is the index
    computed before the loop, the loop advances [pi].  The result is the
    destination and [pi] after [n] rounds; [None] is an access outside
    the arrays. *)
Fixpoint reverse_components (n : nat) (component_bytes ci : Z)
    (source dest : list byte) (pi : Z) : option (list byte * Z) :=
  match n with
  | O => Some (dest, pi)
  | S n' =>
      nd ← read_bytes source ci component_bytes;
      dest' ← write_bytes dest ci (ReversedNumericData nd);
      reverse_components n' component_bytes ci source dest'
        (to_size_t (pi + component_bytes))
  end.

(** The loop over the columns of one row. *)
Fixpoint reverse_columns (cols : list GeomVertexColumn)
    (source dest : list byte) (pi : Z) : option (list byte * Z) :=
  match cols with
  | [] => Some (dest, pi)
  | col :: cols' =>
      let component_bytes := _component_bytes col in
      if 1 <? component_bytes then
        let ci := to_size_t (pi + _start col) in
        r ← reverse_components (Z.to_nat (_num_components col))
              component_bytes ci source dest pi;
        reverse_columns cols' source (fst r) (snd r)
      else reverse_columns cols' source dest pi
  end.

(** The loop over the rows; [None] also when [fuel] rounds do not reach
    [size]. *)
Fixpoint reverse_rows (fuel : nat) (fmt : GeomVertexArrayFormat)
    (source : list byte) (size : Z) (dest : list byte) (pi : Z) : option (list byte) :=
  match fuel with
  | O => None
  | S fuel' =>
      if pi <? size then
        r ← reverse_columns (_columns fmt) source dest pi;
        reverse_rows fuel' fmt source size (fst r) (to_size_t (snd r + get_stride fmt))
      else Some dest
  end.

(** [reverse_data_endianness(dest, source, size)]: the destination after
    the call.  Every round of the row loop with a positive stride
    advances [pi], so [size + 1] rounds are enough. *)
Definition reverse_data_endianness (fmt : GeomVertexArrayFormat)
    (dest source : list byte) (size : Z) : option (list byte) :=
  reverse_rows (S (Z.to_nat size)) fmt source size dest 0.

(** The conversion as the callers run it: into a fresh vector of the
    size of the data. *)
Definition reversed_copy (fmt : GeomVertexArrayFormat) (data : list byte) : option (list byte) :=
  let size := Z.of_nat (length data) in
  reverse_data_endianness fmt (new_Data size) data size.

(** *** The conversion in the words of the specification *)

(** One row: every component of every column whose components are wider
    than one byte has its bytes reversed in place; all other bytes stay. *)
Fixpoint spec_reverse_column (n : nat) (component_bytes at_ : Z) (row : list byte) : option (list byte) :=
  match n with
  | O => Some row
  | S n' =>
      bs ← read_bytes row at_ component_bytes;
      row' ← write_bytes row at_ (rev bs);
      spec_reverse_column n' component_bytes (at_ + component_bytes) row'
  end.

Fixpoint spec_reverse_row (cols : list GeomVertexColumn) (row : list byte) : option (list byte) :=
  match cols with
  | [] => Some row
  | col :: cols' =>
      if 1 <? _component_bytes col then
        row' ← spec_reverse_column (Z.to_nat (_num_components col))
                 (_component_bytes col) (_start col) row;
        spec_reverse_row cols' row'
      else spec_reverse_row cols' row
  end.

Fixpoint spec_reverse_rows (fuel : nat) (fmt : GeomVertexArrayFormat) (data : list byte) : option (list byte) :=
  match fuel with
  | O => None
  | S fuel' =>
      match data with
      | [] => Some []
      | _ =>
          let stride := Z.to_nat (get_stride fmt) in
          row ← spec_reverse_row (_columns fmt) (firstn stride data);
          rest ← spec_reverse_rows fuel' fmt (skipn stride data);
          Some (row ++ rest)
      end
  end.

Definition spec_reverse_data_endianness (fmt : GeomVertexArrayFormat) (data : list byte) : option (list byte) :=
  spec_reverse_rows (S (length data)) fmt data.

(** ** Datagrams and the Bam stream *)

Definition byte_of_Z (z : Z) : byte :=
  match Byte.of_N (Z.to_N (z mod 256)) with
  | Some b => b
  | None => x00
  end.

Definition Z_of_byte (b : byte) : Z := Z.of_N (Byte.to_N b).

Definition UsageHint_to_Z (u : UsageHint) : Z :=
  match u with
  | UH_client => 0
  | UH_stream => 1
  | UH_dynamic => 2
  | UH_static => 3
  | UH_unspecified => 4
  end.

(** The cast [(UsageHint)v]; a value past the enumeration is read as
    [UH_unspecified]. *)
Definition UsageHint_of_Z (v : Z) : UsageHint :=
  if v =? 0 then UH_client
  else if v =? 1 then UH_stream
  else if v =? 2 then UH_dynamic
  else if v =? 3 then UH_static
  else UH_unspecified.

(** Modelled from the spec: [Datagram] and [DatagramIterator] are not in
    the sources at hand.  A datagram is its bytes; fixed-width integers
    are stored unsigned, least significant byte first. *)
Definition add_uint8 (v : Z) (dg : list byte) : list byte := dg ++ [byte_of_Z v].

Definition add_uint16 (v : Z) (dg : list byte) : list byte :=
  dg ++ [byte_of_Z v; byte_of_Z (v / 256)].

Definition add_uint32 (v : Z) (dg : list byte) : list byte :=
  dg ++ [byte_of_Z v; byte_of_Z (v / 256); byte_of_Z (v / 65536); byte_of_Z (v / 16777216)].

Definition append_data (bs : list byte) (dg : list byte) : list byte := dg ++ bs.

Record DatagramIterator := mkScan {
  get_datagram : list byte;
  get_current_index : Z
}.

Definition skip_bytes (n : Z) (scan : DatagramIterator) : DatagramIterator :=
  mkScan (get_datagram scan) (get_current_index scan + n).

Definition get_uint8 (scan : DatagramIterator) : option (Z * DatagramIterator) :=
  bs ← read_bytes (get_datagram scan) (get_current_index scan) 1;
  match bs with
  | [b0] => Some (Z_of_byte b0, skip_bytes 1 scan)
  | _ => None
  end.

Definition get_uint16 (scan : DatagramIterator) : option (Z * DatagramIterator) :=
  bs ← read_bytes (get_datagram scan) (get_current_index scan) 2;
  match bs with
  | [b0; b1] => Some (Z_of_byte b0 + 256 * Z_of_byte b1, skip_bytes 2 scan)
  | _ => None
  end.

Definition get_uint32 (scan : DatagramIterator) : option (Z * DatagramIterator) :=
  bs ← read_bytes (get_datagram scan) (get_current_index scan) 4;
  match bs with
  | [b0; b1; b2; b3] =>
      Some (Z_of_byte b0 + 256 * Z_of_byte b1 + 65536 * Z_of_byte b2
            + 16777216 * Z_of_byte b3, skip_bytes 4 scan)
  | _ => None
  end.

(** Modelled from the spec: [BamWriter] and [BamReader] are not in the
    sources at hand.  The writer knows whether the file has the native
    byte order and the id under which it writes each format; the reader
    knows the byte order and minor version of the file, resolves ids
    through its pointer table, and expands the [READ_PTA] macro of files
    older than 6.8 with its own routine, which is handed the function
    that reads the raw array. *)
Record BamWriter := mkBamWriter {
  writer_file_endian_native : bool;
  writer_object_id : option GeomVertexArrayFormat -> Z
}.

Record BamReader := mkBamReader {
  reader_file_endian_native : bool;
  get_file_minor_ver : Z;
  pointer_table : Z -> option GeomVertexArrayFormat;
  READ_PTA : (DatagramIterator -> option (list byte * DatagramIterator)) ->
             DatagramIterator -> option (list byte * DatagramIterator)
}.

Definition write_pointer (manager : BamWriter) (p : option GeomVertexArrayFormat)
    (dg : list byte) : list byte :=
  add_uint16 (writer_object_id manager p) dg.

(** [read_pointer]: the id read, to be resolved by [complete_pointers]. *)
Definition read_pointer (scan : DatagramIterator) : option (Z * DatagramIterator) :=
  get_uint16 scan.

(** [read_raw_data(manager, scan)]. *)
Definition read_raw_data (scan : DatagramIterator) : option (list byte * DatagramIterator) :=
  r ← get_uint32 scan;
  let size := fst r in
  let scan := snd r in
  data ← read_bytes (get_datagram scan) (get_current_index scan) size;
  Some (stored_into (new_Data size) data, skip_bytes size scan).

(** The object made by the default constructor, at address [this]. *)
Definition default_construct (this : Z) : GeomVertexArrayData :=
  mkArrayData this None CData_new false RC_resident None ∅ None 0.

Section Bam.
Context {SF : Type} {SFO : VertexDataSaveFile SF} {ZL : Zlib}.

(** [CData::write_datagram]; [None] when the conversion leaves the
    arrays or the buffer has no format to convert by. *)
Definition CData_write_datagram (manager : BamWriter) (dg : list byte)
    (array_data : GeomVertexArrayData) (cd : CData) : option (list byte) :=
  let dg := add_uint8 (UsageHint_to_Z (_usage_hint cd)) dg in
  let dg := add_uint32 (Z.of_nat (length (_data cd))) dg in
  if writer_file_endian_native manager then Some (append_data (_data cd) dg)
  else
    fmt ← _array_format array_data;
    new_data ← reversed_copy fmt (_data cd);
    Some (append_data new_data dg).

(** [GeomVertexArrayData::write_datagram]: the datagram and the world
    after the call.  The parent record is empty. *)
Definition write_datagram (manager : BamWriter) (dg : list byte) (w : World SF)
    : option (list byte * World SF) :=
  let w := make_resident w in
  let dg := write_pointer manager (_array_format (obj w)) dg in
  dg' ← CData_write_datagram manager dg (obj w) (cdata w);
  Some (dg', w).

(** [CData::fillin]: the scan and the world after the call. *)
Definition CData_fillin (scan : DatagramIterator) (manager : BamReader) (w : World SF)
    : option (DatagramIterator * World SF) :=
  r ← get_uint8 scan;
  let w := with_cdata (cd_set_usage_hint (UsageHint_of_Z (fst r))) w in
  let scan := snd r in
  r ← (if get_file_minor_ver manager <? 8 then READ_PTA manager read_raw_data scan
       else
         r ← get_uint32 scan;
         let size := fst r in
         let scan := snd r in
         src ← read_bytes (get_datagram scan) (get_current_index scan) size;
         Some (stored_into (new_Data size) src, skip_bytes size scan));
  let w := with_cdata (cd_set_data (fst r)) w in
  let scan := snd r in
  w ← (if negb (reader_file_endian_native manager) then
         match _array_format (obj w) with
         | None => Some (with_obj (set_endian_reversed true) w)
         | Some fmt =>
             new_data ← reversed_copy fmt (_data (cdata w));
             Some (with_cdata (cd_set_data new_data) w)
         end
       else Some w);
  let w := with_cdata (cd_set_full_size (data_size w)) w in
  let w := set_lru_size (_data_full_size (cdata w)) w in
  let w := with_cdata (cd_set_modified (next_modified w)) w in
  let w := with_next_modified (next_modified w + 1) w in
  Some (scan, w).

(** [GeomVertexArrayData::fillin]: the id of the format pointer, the
    scan and the world. *)
Definition fillin (scan : DatagramIterator) (manager : BamReader) (w : World SF)
    : option (Z * DatagramIterator * World SF) :=
  r ← read_pointer scan;
  r' ← CData_fillin (snd r) manager w;
  Some (fst r, fst r', snd r').

(** [complete_pointers]: [p] is the pointer the reader resolved. *)
Definition complete_pointers (p : option GeomVertexArrayFormat) (w : World SF) : World SF :=
  with_obj (set_array_format p) w.

Definition finalize (w : World SF) : option (World SF) :=
  fmt ← _array_format (obj w);
  let new_array_format := register_format fmt in
  let w := with_obj (set_array_format (Some new_array_format)) w in
  w ← (if _endian_reversed (obj w) then
         new_data ← reversed_copy new_array_format (_data (cdata w));
         Some (with_cdata (cd_set_data new_data) w)
       else Some w);
  Some (set_ram_class RC_resident w).

(** Reading one buffer back: [make_from_bam] for a new object at
    [this], then the reader's two later passes over it. *)
Definition read_datagram (this : Z) (scan : DatagramIterator) (manager : BamReader)
    (w : World SF) : option (World SF) :=
  let w := with_obj (fun _ => default_construct this) w in
  r ← fillin scan manager w;
  let id := fst (fst r) in
  let w := complete_pointers (pointer_table manager id) (snd r) in
  finalize w.

End Bam.

(** ** The writable handle *)

Section Handle.
Context {SF : Type} {SFO : VertexDataSaveFile SF} {ZL : Zlib}.

(** [GeomVertexArrayDataHandle::copy_data_from] at pipeline stage 0,
    from a handle whose resident bytes are [other]. *)
Definition copy_data_from (other : list byte) (w : World SF) : World SF :=
  let w := make_resident w in
  let w := with_cdata (cd_set_data other) w in
  let w := with_cdata (cd_set_modified (next_modified w)) w in
  let w := with_next_modified (next_modified w + 1) w in
  let w := with_cdata (cd_set_full_size (data_size w)) w in
  let w := set_ram_class RC_resident w in
  set_lru_size (_data_full_size (cdata w)) w.

End Handle.

(** ** The invariant of the residency classes *)

Definition residency_invariant (a : GeomVertexArrayData) : Prop :=
  (is_on_disk (_ram_class a) = true ->
     _data (_cycler a) = [] /\ _saved_block a <> None) /\
  (is_in_ram (_ram_class a) = true -> _saved_block a = None).

(** The page of the buffer sits in the tier of its class: what
    [evict_lru] asserts of its caller. *)
Definition enrolled (a : GeomVertexArrayData) : Prop :=
  _lru a = Some (_global_lru (_ram_class a)).

(** Two worlds that differ in their output only. *)
Definition forget_output {SF : Type} (w : World SF) : World SF :=
  mkWorld (obj w) (_ram_lru w) (_compressed_lru w) (_disk_lru w)
    (_save_file w) (config w) (next_modified w) [].

Definition same_state {SF : Type} (w1 w2 : World SF) : Prop :=
  forget_output w1 = forget_output w2.

(** ** Concrete collaborators *)

(** Modelled from the spec: [VertexDataSaveFile] and its allocator are
    not in the sources at hand.  The file is an arena of at most
    [sf_max_size] bytes; a write places the bytes at the first offset
    where they fit between the blocks in use, and is refused when that
    would pass the maximum; a read gives back the bytes written; freeing
    a block returns its range. *)
Record SaveFile := mkSaveFile {
  sf_max_size : Z;
  sf_blocks : list (SimpleAllocatorBlock * list byte)
}.

Fixpoint first_fit (at_ : Z) (blocks : list (SimpleAllocatorBlock * list byte)) (len : Z) : Z :=
  match blocks with
  | [] => at_
  | (b, _) :: rest =>
      if at_ + len <=? blk_start b then at_
      else first_fit (blk_start b + blk_size b) rest len
  end.

Fixpoint place_block (b : SimpleAllocatorBlock) (bs : list byte)
    (blocks : list (SimpleAllocatorBlock * list byte)) : list (SimpleAllocatorBlock * list byte) :=
  match blocks with
  | [] => [(b, bs)]
  | (b', bs') :: rest =>
      if blk_start b <? blk_start b' then (b, bs) :: (b', bs') :: rest
      else (b', bs') :: place_block b bs rest
  end.

Definition block_eqb (a b : SimpleAllocatorBlock) : bool :=
  (blk_start a =? blk_start b) && (blk_size a =? blk_size b).

Definition SaveFile_write_data (sf : SaveFile) (data : list byte)
    : option (SimpleAllocatorBlock * SaveFile) :=
  let len := Z.of_nat (length data) in
  let at_ := first_fit 0 (sf_blocks sf) len in
  if at_ + len <=? sf_max_size sf then
    let b := mkBlock at_ len in
    Some (b, mkSaveFile (sf_max_size sf) (place_block b data (sf_blocks sf)))
  else None.

Definition SaveFile_read_data (sf : SaveFile) (size : Z) (b : SimpleAllocatorBlock)
    : bool * list byte :=
  match List.find (fun e => block_eqb (fst e) b) (sf_blocks sf) with
  | Some e => (true, firstn (Z.to_nat size) (snd e))
  | None => (false, [])
  end.

Definition SaveFile_free_block (sf : SaveFile) (b : SimpleAllocatorBlock) : SaveFile :=
  mkSaveFile (sf_max_size sf)
    (List.filter (fun e => negb (block_eqb (fst e) b)) (sf_blocks sf)).

Definition SaveFile_ops : VertexDataSaveFile SaveFile :=
  Build_VertexDataSaveFile SaveFile SaveFile_write_data SaveFile_read_data SaveFile_free_block.

(** [make_save_file()]: the maximum is [(size_t)max_disk_vertex_data]. *)
Definition make_save_file (c : Config) : SaveFile :=
  mkSaveFile (to_size_t (max_disk_vertex_data c)) [].

(** The process before any buffer exists: the three tiers are empty and
    budgeted from the configuration, the disk tier with budget 0.  The
    object slot holds a default-constructed placeholder. *)
Definition startup (c : Config) : World SaveFile :=
  mkWorld (default_construct 0)
    (mkLru (to_size_t (max_ram_vertex_data c)) [])
    (mkLru (to_size_t (max_compressed_vertex_data c)) [])
    (mkLru 0 [])
    (make_save_file c) c 1 [].

(** A codec that stores its input behind a two-byte header, as deflate
    does with data it cannot shrink. *)
Definition stored_zlib : Zlib :=
  Build_Zlib
    (fun _ src _ => (Z_OK, "x"%byte :: x01 :: src))
    (fun _ src => (Z_OK, Z.of_nat (length src) - 2, skipn 2 src)).

(** A codec whose every call fails with [Z_MEM_ERROR] and leaves the
    lengths it was given and a zeroed buffer. *)
Definition failing_zlib : Zlib :=
  Build_Zlib
    (fun cap _ _ => (-4, repeat x00 (Z.to_nat cap)))
    (fun cap _ => (-4, cap, [])).

(** A device that cannot make a context, and one whose contexts live
    one word after the buffer they belong to. *)
Definition null_device : Device := Build_Device (fun _ _ _ => 0).

Definition working_device : Device := Build_Device (fun _ this _ => this + 8).

Definition bytes_of (l : list Z) : list byte := map byte_of_Z l.

(** The format of one column of two 4-byte components, stride 8. *)
Definition two_floats : GeomVertexArrayFormat :=
  mkFormat true 8 [mkColumn 0 2 4].

(** Three rows of that format: the bytes 1, 2, ..., 24. *)
Definition three_rows : list byte := bytes_of (map Z.of_nat (seq 1 24)).

(** Four rows, 32 bytes, and thirteen rows, 104 bytes. *)
Definition four_rows : list byte := bytes_of (map Z.of_nat (seq 1 32)).

Definition thirteen_rows : list byte := bytes_of (map Z.of_nat (seq 1 104)).

(** ** Sample worlds *)

(** A buffer at address 4096 holding [bytes], made by the constructor
    and filled through a writable handle, under configuration [c]. *)
Definition resident_buffer (c : Config) (codec : Zlib) (fmt : GeomVertexArrayFormat)
    (bytes : list byte) : World SaveFile :=
  copy_data_from (SFO := SaveFile_ops) (ZL := codec) bytes
    (construct 4096 fmt UH_static (startup c)).

(** A configuration whose save file holds at most 16 bytes. *)
Definition small_disk : Config := mkConfig (-1) (-1) 1 16 64.

(** A configuration that skips the compressed tier. *)
Definition no_compressed_tier : Config := mkConfig (-1) 0 1 (-1) 64.

(** The buffer of scenario 4 and the same buffer spilled to disk. *)
Definition scenario_buffer : World SaveFile :=
  resident_buffer default_config stored_zlib two_floats three_rows.

Definition spilled_buffer : World SaveFile :=
  make_disk (SFO := SaveFile_ops) scenario_buffer.

(** A Bam file written with the byte order [native] or the other one;
    the one format of the file has id 1 and comes out of the file
    unregistered.  The reader is at minor version 8 and has no use for
    [READ_PTA]. *)
Definition bam_writer (native : bool) : BamWriter :=
  mkBamWriter native (fun _ => 1).

Definition as_read (f : GeomVertexArrayFormat) : GeomVertexArrayFormat :=
  mkFormat false (_stride f) (_columns f).

Definition bam_reader (native : bool) (f : GeomVertexArrayFormat) : BamReader :=
  mkBamReader native 8
    (fun id => if id =? 1 then Some (as_read f) else None)
    (fun _ _ => None).

(** A format of three columns, stride 12: three 2-byte components, four
    1-byte components, one 2-byte component. *)
Definition three_columns : GeomVertexArrayFormat :=
  mkFormat true 12 [mkColumn 0 3 2; mkColumn 6 4 1; mkColumn 10 1 2].

Section RoundTrip.
Context {SF : Type} {SFO : VertexDataSaveFile SF} {ZL : Zlib}.

(** The buffer of [w] written to an empty datagram of a file with byte
    order [native], and read back from it into a new object at [this]. *)
Definition round_trip (native : bool) (this : Z) (w : World SF) : option (World SF) :=
  match _array_format (obj w) with
  | Some f =>
      r ← write_datagram (bam_writer native) [] w;
      read_datagram this (mkScan (fst r) 0) (bam_reader native f) (snd r)
  | None => None
  end.

End RoundTrip.

(** What a buffer is, as opposed to where its bytes are: identity,
    format, usage hint, uncompressed length, stamp, the pending
    endian flag and the context table. *)
Definition description (a : GeomVertexArrayData)
    : Z * option GeomVertexArrayFormat * UsageHint * Z * Z * bool * gmap Z Z :=
  (_this a, _array_format a, _usage_hint (_cycler a), _data_full_size (_cycler a),
   _modified (_cycler a), _endian_reversed a, _contexts a).

(** ** The rest of the handle *)

(** The conversion of a [size_t] or of an [int] product to [int]. *)
Definition to_int (z : Z) : Z := (z + 2 ^ 31) mod 2 ^ 32 - 2 ^ 31.

Section HandleMutators.
Context {SF : Type} {SFO : VertexDataSaveFile SF} {ZL : Zlib}.

(** Modelled from the spec: [check_resident] is declared in the header,
    which is not at hand; a handle forces the buffer resident before it
    touches the bytes. *)
Definition check_resident (w : World SF) : World SF := make_resident w.

(** The common tail of the mutators at pipeline stage 0: a fresh stamp,
    the full size, the resident class and the size of the page. *)
Definition handle_modified (w : World SF) : World SF :=
  let w := with_cdata (cd_set_modified (next_modified w)) w in
  let w := with_next_modified (next_modified w + 1) w in
  let w := with_cdata (cd_set_full_size (data_size w)) w in
  let w := set_ram_class RC_resident w in
  set_lru_size (_data_full_size (cdata w)) w.

(** [delta] of the two row setters: [n - size / stride], computed in
    [size_t] and stored in an [int]. *)
Definition row_delta (n stride : Z) (w : World SF) : Z :=
  to_int (to_size_t (n - data_size w / to_size_t stride)).

(** [GeomVertexArrayDataHandle::set_num_rows(n)] on a handle that is
    [writable] or not: the flag returned and the world.  [None] is a
    null format, a zero stride in the division, or an erase position
    outside the vector. *)
Definition set_num_rows (writable : bool) (n : Z) (w : World SF) : option (bool * World SF) :=
  if writable then
    let w := check_resident w in
    fmt ← _array_format (obj w);
    let stride := get_stride fmt in
    if to_size_t stride =? 0 then None
    else
      let delta := row_delta n stride w in
      if delta =? 0 then Some (false, w)
      else
        data ← (if 0 <? delta then
                  Some (_data (cdata w)
                        ++ repeat x00 (Z.to_nat (to_size_t (to_int (delta * stride)))))
                else
                  let at_ := to_int (n * stride) in
                  if (0 <=? at_) && (at_ <=? data_size w)
                  then Some (firstn (Z.to_nat at_) (_data (cdata w)))
                  else None);
        Some (true, handle_modified (with_cdata (cd_set_data data) w))
  else Some (false, emit (Ev_assert "_writable") w).

(** [GeomVertexArrayDataHandle::unclean_set_num_rows(n)]. *)
Definition unclean_set_num_rows (writable : bool) (n : Z) (w : World SF) : option (bool * World SF) :=
  if writable then
    let w := check_resident w in
    fmt ← _array_format (obj w);
    let stride := get_stride fmt in
    if to_size_t stride =? 0 then None
    else
      let delta := row_delta n stride w in
      if delta =? 0 then Some (false, w)
      else
        let new_data := new_Data (to_size_t (to_int (n * stride))) in
        Some (true, handle_modified (with_cdata (cd_set_data new_data) w))
  else Some (false, emit (Ev_assert "_writable") w).

(** [GeomVertexArrayDataHandle::copy_subdata_from], from a handle on
    another buffer whose resident bytes are [other]; the four positions
    are [size_t].  [None] is a [memcpy] outside the vectors.  The call
    with a handle on this same buffer is not this function: there the
    [memcpy] reads the vector after the [erase] or [insert], and [other]
    is the bytes of a buffer that the resize of this one leaves alone. *)
Definition copy_subdata_from (writable : bool) (to_start to_size : Z) (other : list byte)
    (from_start from_size : Z) (w : World SF) : option (World SF) :=
  if writable then
    let w := check_resident w in
    let to_v := _data (cdata w) in
    let to_len := Z.of_nat (length to_v) in
    let other_len := Z.of_nat (length other) in
    let to_start := Z.min (to_size_t to_start) to_len in
    let to_size := Z.min (to_size_t to_size) (to_len - to_start) in
    let from_start := Z.min (to_size_t from_start) other_len in
    let from_size := Z.min (to_size_t from_size) (other_len - from_start) in
    let to_v :=
      if from_size <? to_size then
        firstn (Z.to_nat (to_start + from_size)) to_v
        ++ skipn (Z.to_nat (to_start + to_size)) to_v
      else if to_size <? from_size then
        firstn (Z.to_nat (to_start + to_size)) to_v
        ++ repeat x00 (Z.to_nat (from_size - to_size))
        ++ skipn (Z.to_nat (to_start + to_size)) to_v
      else to_v in
    src ← read_bytes other from_start from_size;
    to_v ← write_bytes to_v to_start src;
    Some (handle_modified (with_cdata (cd_set_data to_v) w))
  else Some (emit (Ev_assert "_writable") w).

(** [set_usage_hint(usage_hint)]. *)
Definition set_usage_hint (usage_hint : UsageHint) (w : World SF) : World SF :=
  let w := with_cdata (cd_set_usage_hint usage_hint) w in
  let w := with_cdata (cd_set_modified (next_modified w)) w in
  with_next_modified (next_modified w + 1) w.

End HandleMutators.

(** ** The rest of the context table *)

(** [PreparedGraphicsObjects], the device side of the table: what
    [release_vertex_buffer(vbc)] and [dequeue_vertex_buffer(data)] on the
    device [po] do to the world, and whether the buffer is queued there. *)
Class PreparedGraphicsObjects (SF : Type) := {
  release_vertex_buffer : Z -> Z -> World SF -> World SF;
  dequeue_vertex_buffer : Z -> Z -> World SF -> bool * World SF;
  is_vertex_buffer_queued : Z -> Z -> bool
}.

(** The order of the table's iterator: by device address. *)
Definition by_device (a b : Z * Z) : Prop := a.1 <= b.1.

Global Instance by_device_dec (a b : Z * Z) : Decision (by_device a b).
Proof. unfold by_device. apply _. Defined.

Section ContextTable.
Context {SF : Type}.

(** [clear_prepared(prepared_objects)]. *)
Definition clear_prepared (prepared_objects : Z) (w : World SF) : World SF :=
  match _contexts (obj w) !! prepared_objects with
  | Some _ => with_obj (fun a => set_contexts (delete prepared_objects (_contexts a)) a) w
  | None => emit (Ev_assert "false") w
  end.

Context {PGO : PreparedGraphicsObjects SF}.

(** [is_prepared(prepared_objects)]. *)
Definition is_prepared (prepared_objects : Z) (w : World SF) : bool :=
  match _contexts (obj w) !! prepared_objects with
  | Some _ => true
  | None => is_vertex_buffer_queued prepared_objects (_this (obj w))
  end.

(** [release(prepared_objects)]. *)
Definition release (prepared_objects : Z) (w : World SF) : bool * World SF :=
  match _contexts (obj w) !! prepared_objects with
  | Some vbc => (true, release_vertex_buffer prepared_objects vbc w)
  | None => dequeue_vertex_buffer prepared_objects (_this (obj w)) w
  end.

(** The entries of the table in the order of its iterator, by device
    address. *)
Definition contexts_in_order (m : gmap Z Z) : list (Z * Z) :=
  merge_sort by_device (map_to_list m).

(** [release_all()]: the number returned and the world. *)
Definition release_all (w : World SF) : Z * World SF :=
  let temp := _contexts (obj w) in
  let num_freed := to_int (Z.of_nat (size (_contexts (obj w)))) in
  let w := foldl (fun w ci => release_vertex_buffer ci.1 ci.2 w) w (contexts_in_order temp) in
  if decide (_contexts (obj w) = ∅) then (num_freed, w)
  else (num_freed, emit (Ev_assert "_contexts.empty()") w).

End ContextTable.

(** A device that answers every release with [clear_prepared], as the
    comment in [release_all] says the device does, and has no queue. *)
Definition clearing_device (SF : Type) : PreparedGraphicsObjects SF :=
  Build_PreparedGraphicsObjects SF
    (fun po _ w => clear_prepared po w)
    (fun _ _ w => (false, w))
    (fun _ _ => false).

(** A device that does not answer a release. *)
Definition silent_device (SF : Type) : PreparedGraphicsObjects SF :=
  Build_PreparedGraphicsObjects SF
    (fun _ _ w => w)
    (fun _ _ w => (false, w))
    (fun _ _ => false).

(** The buffer of scenario 4 prepared on the devices 77 and 5. *)
Definition prepared_twice : World SaveFile :=
  snd (prepare_now (DEV := working_device) 5 0
         (snd (prepare_now (DEV := working_device) 77 5 scenario_buffer))).

(** ** Reading into an object that exists *)

Section ReadInto.
Context {SF : Type}.


End ReadInto.

(** * ProfileTimer: the inline functions of [panda/src/express/profileTimer.I]

    The members are the ones these functions use.  [_entries] is a
    pointer to an array of [TimerEntry]: [None] is the null pointer and
    the list is the array it points to.  [_entryCount], [_maxEntries]
    and [_autoTimerCount] are written in [Z]; the functions only compare
    them, add one and take one away.  The type of the clock's readings
    and its sum and difference are left open: nothing below computes
    with them.  A reading of [TrueClock::get_short_time()] is an
    argument of the function that takes it. *)

Module ProfileTimer.

Record TimerEntry (double : Type) := mkEntry {
  _tag : string;
  _time : double
}.
Arguments mkEntry {double} _ _.
Arguments _tag {double} _.
Arguments _time {double} _.

Record ProfileTimer (double : Type) := mkTimer {
  _on : double;
  _elapsedTime : double;
  _entries : option (list (TimerEntry double));
  _entryCount : Z;
  _maxEntries : Z;
  _autoTimerCount : Z
}.
Arguments mkTimer {double} _ _ _ _ _ _.
Arguments _on {double} _.
Arguments _elapsedTime {double} _.
Arguments _entries {double} _.
Arguments _entryCount {double} _.
Arguments _maxEntries {double} _.
Arguments _autoTimerCount {double} _.

(** How a call ends: it returns, the process exits with a line on
    [cerr], or an index leaves the array. *)
Inductive Outcome (A : Type) :=
| Returns (a : A)
| Exits (code : Z) (cerr : string)
| OutOfArray.
Arguments Returns {A} _.
Arguments Exits {A} _ _.
Arguments OutOfArray {A}.

Section Timer.
Context {double : Type}.
Variables (dadd dsub : double -> double -> double) (dzero : double).

(** [_entries[i]], inside the array. *)
Definition entry_at (es : list (TimerEntry double)) (i : Z) : option (TimerEntry double) :=
  if 0 <=? i then es !! Z.to_nat i else None.

Definition on (time : double) (t : ProfileTimer double) : ProfileTimer double :=
  mkTimer time (_elapsedTime t) (_entries t) (_entryCount t) (_maxEntries t)
    (_autoTimerCount t).

(** [getTime()]: the value returned and the timer after the call. *)
Definition getTime (time : double) (t : ProfileTimer double) : double * ProfileTimer double :=
  let et := dadd (_elapsedTime t) (dsub time (_on t)) in
  (et, mkTimer time dzero (_entries t) (_entryCount t) (_maxEntries t) (_autoTimerCount t)).

(** [mark(tag)]; [time] is the reading [getTime] takes when the entry is
    recorded. *)
Definition mark (tag : string) (time : double) (t : ProfileTimer double)
    : Outcome (ProfileTimer double) :=
  match _entries t with
  | None => Exits 1 "ProfileTimer::mark !_entries"
  | Some es =>
      if _entryCount t <? _maxEntries t - 1 then
        match entry_at es (_entryCount t) with
        | None => OutOfArray
        | Some _ =>
            let r := getTime time t in
            let p := mkEntry tag (fst r) in
            Returns (mkTimer (_on (snd r)) (_elapsedTime (snd r))
                       (Some (<[Z.to_nat (_entryCount t) := p]> es))
                       (_entryCount t + 1) (_maxEntries t) (_autoTimerCount t))
        end
      else
        match entry_at es (_entryCount t) with
        | None => OutOfArray
        | Some e =>
            Returns (mkTimer (_on t) (_elapsedTime t)
                       (Some (<[Z.to_nat (_entryCount t)
                                := mkEntry "*** Overflow ***" (_time e)]> es))
                       (_entryCount t) (_maxEntries t) (_autoTimerCount t))
        end
  end.

(** [off()]. *)
Definition off (time : double) (t : ProfileTimer double) : ProfileTimer double :=
  mkTimer (_on t) (dadd (_elapsedTime t) (dsub time (_on t))) (_entries t)
    (_entryCount t) (_maxEntries t) (_autoTimerCount t).

(** [off(tag)]: [time] is the reading [off] takes, [time'] the one of
    the [getTime] inside [mark]. *)
Definition off_tag (tag : string) (time time' : double) (t : ProfileTimer double)
    : Outcome (ProfileTimer double) :=
  mark tag time' (off time t).

(** [AutoTimer::~AutoTimer()] of an [AutoTimer] on the timer [t]. *)
Definition AutoTimer_destroy (tag : string) (time : double) (t : ProfileTimer double)
    : Outcome (ProfileTimer double) :=
  match mark tag time t with
  | Returns t' =>
      Returns (mkTimer (_on t') (_elapsedTime t') (_entries t') (_entryCount t')
                 (_maxEntries t') (_autoTimerCount t' - 1))
  | Exits code cerr => Exits code cerr
  | OutOfArray => OutOfArray
  end.

(** A run of [mark] calls, each with its tag and clock reading. *)
Fixpoint marks (calls : list (string * double)) (t : ProfileTimer double)
    : Outcome (ProfileTimer double) :=
  match calls with
  | [] => Returns t
  | (tag, time) :: calls' =>
      match mark tag time t with
      | Returns t' => marks calls' t'
      | Exits code cerr => Exits code cerr
      | OutOfArray => OutOfArray
      end
  end.

(** The array has [_maxEntries] slots and the count is an index of it
    that leaves the last slot free. *)
Definition has_room_for_overflow (t : ProfileTimer double) : Prop :=
  exists es, _entries t = Some es /\
             Z.of_nat (length es) = _maxEntries t /\
             0 <= _entryCount t <= _maxEntries t - 1.

(** The entries recorded so far. *)
Definition recorded (t : ProfileTimer double) : list (TimerEntry double) :=
  match _entries t with
  | Some es => take (Z.to_nat (_entryCount t)) es
  | None => []
  end.

End Timer.

(** A timer with four slots and a clock that counts ticks. *)
Definition four_slots : ProfileTimer Z :=
  mkTimer 100 0 (Some (repeat (mkEntry EmptyString 0) 4)) 0 4 0.

End ProfileTimer.

(** ** Facts about the tiers *)

Section TierFacts.
Context {SF : Type}.
Implicit Types (w : World SF) (l : LruId) (p : Z).

Lemma withdraw_withdraw p (pages : list Z) :
  withdraw p (withdraw p pages) = withdraw p pages.
Proof.
  unfold withdraw. rewrite list_filter_filter. apply list_filter_iff. tauto.
Qed.

Lemma withdraw_enroll p (pages : list Z) :
  withdraw p (enroll p pages) = withdraw p pages.
Proof.
  unfold enroll. unfold withdraw at 1. rewrite filter_app.
  fold (withdraw p (withdraw p pages)). rewrite withdraw_withdraw.
  rewrite filter_cons. destruct (decide (p <> p)); [congruence |].
  apply app_nil_r.
Qed.

Lemma enroll_withdraw p (pages : list Z) :
  enroll p (withdraw p pages) = enroll p pages.
Proof. unfold enroll. rewrite withdraw_withdraw. reflexivity. Qed.

Lemma enroll_enroll p (pages : list Z) :
  enroll p (enroll p pages) = enroll p pages.
Proof. unfold enroll at 1. rewrite withdraw_enroll. reflexivity. Qed.

Lemma last_enroll p (pages : list Z) : last (enroll p pages) = Some p.
Proof. unfold enroll. apply last_snoc. Qed.


Lemma enqueue_lru_lru l w : _lru (obj (enqueue_lru (Some l) w)) = Some l.
Proof. unfold enqueue_lru, dequeue_lru. destruct (_lru (obj w)); reflexivity. Qed.

Lemma enqueue_lru_output l w : output (enqueue_lru (Some l) w) = output w.
Proof.
  unfold enqueue_lru, dequeue_lru.
  destruct (_lru (obj w)) as [[]|]; destruct l; reflexivity.
Qed.

(** After enrolling, the page is the most recently used of its tier. *)
Lemma enqueue_lru_most_recent l w :
  last (_pages (get_lru_list l (enqueue_lru (Some l) w))) = Some (_this (obj w)).
Proof.
  unfold enqueue_lru, dequeue_lru.
  destruct (_lru (obj w)) as [[]|]; destruct l; simpl; apply last_enroll.
Qed.

Lemma enqueue_lru_twice l w :
  enqueue_lru (Some l) (enqueue_lru (Some l) w) = enqueue_lru (Some l) w.
Proof.
  destruct w as [a r c d sf cfg nm out].
  destruct a as [this fmt cd er rc sb ctx lru sz].
  unfold enqueue_lru, dequeue_lru.
  destruct lru as [[]|]; destruct l; simpl;
    unfold with_obj, set_lru_field; simpl;
    rewrite ?withdraw_withdraw, ?withdraw_enroll, ?enroll_withdraw, ?enroll_enroll;
    reflexivity.
Qed.

Lemma mark_used_lru_twice w : mark_used_lru (mark_used_lru w) = mark_used_lru w.
Proof.
  unfold mark_used_lru. destruct (_lru (obj w)) as [l|] eqn:E.
  - rewrite enqueue_lru_lru. apply enqueue_lru_twice.
  - rewrite E. reflexivity.
Qed.

Lemma mark_used_after_set_ram_class rc w :
  mark_used_lru (set_ram_class rc w) = set_ram_class rc w.
Proof.
  unfold set_ram_class, mark_used_lru_in, mark_used_lru.
  rewrite enqueue_lru_lru. apply enqueue_lru_twice.
Qed.

Lemma mark_used_lru_obj w :
  obj (mark_used_lru w) = obj w.
Proof.
  destruct w as [a r c d sf cfg nm out].
  destruct a as [this fmt cd er rc sb ctx lru sz].
  unfold mark_used_lru, enqueue_lru, dequeue_lru. simpl.
  destruct lru as [[]|]; reflexivity.
Qed.

Lemma mark_used_lru_output w : output (mark_used_lru w) = output w.
Proof.
  unfold mark_used_lru. destruct (_lru (obj w)); [apply enqueue_lru_output | reflexivity].
Qed.

Lemma mark_used_lru_save_file w : _save_file (mark_used_lru w) = _save_file w.
Proof.
  unfold mark_used_lru, enqueue_lru, dequeue_lru.
  destruct (_lru (obj w)) as [[]|] eqn:E; rewrite ?E; reflexivity.
Qed.

Lemma mark_used_lru_most_recent w l :
  _lru (obj w) = Some l ->
  last (_pages (get_lru_list l (mark_used_lru w))) = Some (_this (obj w)).
Proof.
  intros E. unfold mark_used_lru. rewrite E. apply enqueue_lru_most_recent.
Qed.

Lemma set_ram_class_class rc w : _ram_class (obj (set_ram_class rc w)) = rc.
Proof.
  unfold set_ram_class, mark_used_lru_in, enqueue_lru, dequeue_lru. simpl.
  destruct (_lru (obj w)); reflexivity.
Qed.

Lemma set_ram_class_cycler rc w : _cycler (obj (set_ram_class rc w)) = _cycler (obj w).
Proof.
  unfold set_ram_class, mark_used_lru_in, enqueue_lru, dequeue_lru. simpl.
  destruct (_lru (obj w)); reflexivity.
Qed.

Lemma set_ram_class_saved_block rc w :
  _saved_block (obj (set_ram_class rc w)) = _saved_block (obj w).
Proof.
  unfold set_ram_class, mark_used_lru_in, enqueue_lru, dequeue_lru. simpl.
  destruct (_lru (obj w)); reflexivity.
Qed.

Lemma set_ram_class_output rc w : output (set_ram_class rc w) = output w.
Proof. unfold set_ram_class, mark_used_lru_in. rewrite enqueue_lru_output. reflexivity. Qed.

Lemma set_ram_class_save_file rc w : _save_file (set_ram_class rc w) = _save_file w.
Proof.
  unfold set_ram_class, mark_used_lru_in, enqueue_lru, dequeue_lru. simpl.
  destruct (_lru (obj w)) as [[]|]; destruct rc; reflexivity.
Qed.

Lemma set_ram_class_lru rc w : _lru (obj (set_ram_class rc w)) = Some (_global_lru rc).
Proof. unfold set_ram_class, mark_used_lru_in. apply enqueue_lru_lru. Qed.

Lemma set_ram_class_most_recent rc w :
  last (_pages (get_lru_list (_global_lru rc) (set_ram_class rc w))) = Some (_this (obj w)).
Proof.
  unfold set_ram_class, mark_used_lru_in.
  rewrite enqueue_lru_most_recent. reflexivity.
Qed.

End TierFacts.

(** ** The device-context table *)

Section ContextFacts.
Context {SF : Type} {DEV : Device}.

(** C10.  For a device [po] that has no entry in the context table of
    the buffer: when the device's prepare call returns the null
    context, [prepare_now] returns null and leaves the whole world, the
    table included, as it was, so no entry for [po] appears; when it
    returns a context that is not null, that context is returned and
    recorded under [po]; in both cases every entry of the table after
    the call was there before or is the non-null context just made. *)
Theorem prepare_now_records_only_non_null (po gsg : Z) (w : World SF) :
  _contexts (obj w) !! po = None ->
  let vbc := prepare_vertex_buffer_now po (_this (obj w)) gsg in
  let r := prepare_now po gsg w in
  (vbc = 0 -> r = (0, w) /\ _contexts (obj (snd r)) !! po = None) /\
  (vbc <> 0 ->
     fst r = vbc /\ _contexts (obj (snd r)) = <[po := vbc]> (_contexts (obj w))) /\
  (forall d c, _contexts (obj (snd r)) !! d = Some c ->
     _contexts (obj w) !! d = Some c \/ (d = po /\ c = vbc /\ c <> 0)).
Proof.
  intros Hnone vbc r. subst r. unfold prepare_now. rewrite Hnone. fold vbc.
  destruct (decide (vbc <> 0)) as [Hnz | Hz]; simpl.
  - split; [intros E; congruence |]. split; [intros _; split; reflexivity |].
    intros d c Hd. destruct (decide (po = d)) as [-> | Hne].
    + rewrite lookup_insert_eq in Hd. right. split; [reflexivity |].
      split; congruence.
    + rewrite lookup_insert_ne in Hd by exact Hne. left. exact Hd.
  - assert (E : vbc = 0) by (destruct (decide (vbc = 0)); [assumption | contradiction]).
    split; [intros _; rewrite E; split; [reflexivity | exact Hnone] |].
    split; [intros Hnz; contradiction |].
    intros d c Hd. left. exact Hd.
Qed.

End ContextFacts.

Lemma prepare_now_records_only_non_null_witness :
  prepare_now (DEV := null_device) 77 5 scenario_buffer = (0, scenario_buffer) /\
  fst (prepare_now (DEV := working_device) 77 5 scenario_buffer) = 4104 /\
  _contexts (obj (snd (prepare_now (DEV := working_device) 77 5 scenario_buffer)))
  = {[ 77 := 4104 ]}.
Proof.
  split.
  - refine (proj1 (proj1
      (prepare_now_records_only_non_null (DEV := null_device) 77 5 scenario_buffer _) _)).
    + vm_compute. reflexivity.
    + vm_compute. reflexivity.
  - refine (proj1 (proj2
      (prepare_now_records_only_non_null (DEV := working_device) 77 5 scenario_buffer _)) _).
    + vm_compute. reflexivity.
    + vm_compute. discriminate.
Defined.

(** ** Spilling to disk and coming back *)

Section DiskFacts.
Context {SF : Type} {SFO : VertexDataSaveFile SF} {ZL : Zlib}.
Implicit Types (w : World SF).

Lemma in_ram_not_on_disk rc : is_in_ram rc = true -> is_on_disk rc = false.
Proof. destruct rc; simpl; congruence. Qed.

Lemma on_disk_not_in_ram rc : is_on_disk rc = true -> is_in_ram rc = false.
Proof. destruct rc; simpl; congruence. Qed.

(** The two ways [make_disk] can go for a buffer in memory. *)
Lemma make_disk_refused w :
  is_in_ram (ram_class w) = true ->
  _saved_block (obj w) = None ->
  write_data (_save_file w) (_data (cdata w)) = None ->
  make_disk w =
    mark_used_lru (with_obj (set_saved_block None)
                     (emit (Ev_write_data (_data (cdata w))) w)).
Proof.
  intros Hram Hblk Hrefused.
  unfold make_disk. rewrite (in_ram_not_on_disk _ Hram), Hram, Hblk.
  simpl. rewrite Hrefused. reflexivity.
Qed.

Lemma make_disk_accepted w blk sf :
  is_in_ram (ram_class w) = true ->
  _saved_block (obj w) = None ->
  write_data (_save_file w) (_data (cdata w)) = Some (blk, sf) ->
  make_disk w =
    set_ram_class
      (if decide (ram_class w = RC_resident) then RC_disk else RC_compressed_disk)
      (with_cdata (cd_set_data [])
         (with_save_file sf
            (with_obj (set_saved_block (Some blk))
               (emit (Ev_write_data (_data (cdata w))) w)))).
Proof.
  intros Hram Hblk Hok.
  unfold make_disk. rewrite (in_ram_not_on_disk _ Hram), Hram, Hblk.
  cbn. rewrite Hok. unfold ram_class. cbn.
  destruct (decide (_ram_class (obj w) = RC_resident)); reflexivity.
Qed.

Lemma make_disk_refused_obj w :
  is_in_ram (ram_class w) = true ->
  _saved_block (obj w) = None ->
  write_data (_save_file w) (_data (cdata w)) = None ->
  obj (make_disk w) = obj w.
Proof.
  intros Hram Hblk Hrefused.
  rewrite (make_disk_refused w Hram Hblk Hrefused), mark_used_lru_obj. simpl.
  destruct (obj w); simpl in *. unfold set_saved_block. simpl. congruence.
Qed.

(** C3.  A Resident or Compressed buffer without a SaveBlock whose
    write to the save file is refused: [make_disk] leaves the class,
    the cycle data with its bytes, the absent SaveBlock, the save file
    and the tier of the page as they were, and the page is the most
    recently used page of the tier it is in; the only other trace of
    the call is the attempted write in the output. *)
Theorem make_disk_refused_changes_nothing w :
  is_in_ram (ram_class w) = true ->
  _saved_block (obj w) = None ->
  write_data (_save_file w) (_data (cdata w)) = None ->
  ram_class (make_disk w) = ram_class w /\
  _data (cdata (make_disk w)) = _data (cdata w) /\
  _saved_block (obj (make_disk w)) = None /\
  obj (make_disk w) = obj w /\
  _save_file (make_disk w) = _save_file w /\
  (forall l, _lru (obj w) = Some l ->
     last (_pages (get_lru_list l (make_disk w))) = Some (_this (obj w))) /\
  (_lru (obj w) = None -> forall l, get_lru_list l (make_disk w) = get_lru_list l w) /\
  output (make_disk w) = Ev_write_data (_data (cdata w)) :: output w.
Proof.
  intros Hram Hblk Hrefused.
  pose proof (make_disk_refused w Hram Hblk Hrefused) as E.
  pose proof (make_disk_refused_obj w Hram Hblk Hrefused) as Eobj.
  unfold ram_class, cdata. rewrite Eobj.
  repeat split; try assumption.
  - rewrite E, mark_used_lru_save_file. reflexivity.
  - intros l Hl. rewrite E.
    rewrite mark_used_lru_most_recent; [reflexivity | exact Hl].
  - intros Hl l. rewrite E. unfold mark_used_lru. simpl. rewrite Hl.
    destruct l; reflexivity.
  - rewrite E, mark_used_lru_output. reflexivity.
Qed.

(** C5.  A Resident or Compressed buffer without a SaveBlock whose
    write to the save file succeeds with block [blk]: [make_disk] hands
    the current bytes to the save file, records [blk], leaves an empty
    byte vector in memory, sets the class to Disk when it was Resident
    and to CompressedDisk when it was Compressed, and enrolls the page
    in the disk tier as its most recently used page. *)
Theorem make_disk_stores_and_frees w blk sf :
  is_in_ram (ram_class w) = true ->
  _saved_block (obj w) = None ->
  write_data (_save_file w) (_data (cdata w)) = Some (blk, sf) ->
  output (make_disk w) = Ev_write_data (_data (cdata w)) :: output w /\
  _save_file (make_disk w) = sf /\
  _saved_block (obj (make_disk w)) = Some blk /\
  _data (cdata (make_disk w)) = [] /\
  _data_full_size (cdata (make_disk w)) = _data_full_size (cdata w) /\
  (ram_class w = RC_resident -> ram_class (make_disk w) = RC_disk) /\
  (ram_class w = RC_compressed -> ram_class (make_disk w) = RC_compressed_disk) /\
  _lru (obj (make_disk w)) = Some Disk_lru /\
  last (_pages (_disk_lru (make_disk w))) = Some (_this (obj w)).
Proof.
  intros Hram Hblk Hok.
  rewrite (make_disk_accepted w blk sf Hram Hblk Hok).
  unfold ram_class, cdata.
  rewrite set_ram_class_output, set_ram_class_save_file, set_ram_class_saved_block,
    set_ram_class_cycler, set_ram_class_class, set_ram_class_lru.
  cbn. split; [reflexivity |]. split; [reflexivity |]. split; [reflexivity |].
  split; [reflexivity |]. split; [reflexivity |].
  destruct (decide (_ram_class (obj w) = RC_resident)) as [E | E].
  - split; [reflexivity |]. split; [congruence |]. split; [reflexivity |].
    exact (set_ram_class_most_recent RC_disk _).
  - split; [contradiction |]. split; [reflexivity |]. split; [reflexivity |].
    exact (set_ram_class_most_recent RC_compressed_disk _).
Qed.

(** The shape of a restore that finds its block. *)
Lemma restore_from_disk_with_block w blk :
  is_on_disk (ram_class w) = true ->
  _saved_block (obj w) = Some blk ->
  restore_from_disk w =
    set_ram_class
      (if decide (ram_class w = RC_compressed_disk) then RC_compressed else RC_resident)
      (with_obj (set_saved_block None)
         (with_save_file (free_block (_save_file w) blk)
            (with_cdata
               (cd_set_data
                  (stored_into (new_Data (get_size blk))
                     (snd (read_data (_save_file w) (get_size blk) blk))))
               (if fst (read_data (_save_file w) (get_size blk) blk)
                then emit (Ev_read_data (get_size blk) blk) w
                else emit (Ev_assert "read error")
                       (emit (Ev_read_data (get_size blk) blk) w))))).
Proof.
  intros Hdisk Hblk. unfold restore_from_disk. rewrite Hdisk, Hblk.
  destruct (read_data (_save_file w) (get_size blk) blk) as [[] got];
    unfold ram_class; cbn;
    destruct (decide (_ram_class (obj w) = RC_compressed_disk)); reflexivity.
Qed.

(** C6.  [restore_from_disk] on a Disk or CompressedDisk buffer needs a
    SaveBlock: without one it reports an assertion failure and changes
    nothing else.  With a block it reads the block's size in bytes
    into a fresh vector of exactly that size, which becomes the bytes
    in memory, frees the block and leaves none, and sets the class to
    Compressed from CompressedDisk and to Resident from Disk.  On a
    buffer of any other class it does nothing at all. *)
Theorem restore_from_disk_spec w :
  (is_on_disk (ram_class w) = true ->
     (_saved_block (obj w) = None ->
        restore_from_disk w = emit (Ev_assert "_saved_block != NULL") w) /\
     (forall blk, _saved_block (obj w) = Some blk ->
        let w' := restore_from_disk w in
        In (Ev_read_data (get_size blk) blk) (output w') /\
        _data (cdata w') =
          stored_into (new_Data (get_size blk))
            (snd (read_data (_save_file w) (get_size blk) blk)) /\
        length (_data (cdata w')) = Z.to_nat (get_size blk) /\
        _save_file w' = free_block (_save_file w) blk /\
        _saved_block (obj w') = None /\
        (ram_class w = RC_compressed_disk -> ram_class w' = RC_compressed) /\
        (ram_class w = RC_disk -> ram_class w' = RC_resident))) /\
  (is_on_disk (ram_class w) = false -> restore_from_disk w = w).
Proof.
  split.
  - intros Hdisk. split.
    + intros Hnone. unfold restore_from_disk. rewrite Hdisk, Hnone. reflexivity.
    + intros blk Hblk w'. subst w'.
      rewrite (restore_from_disk_with_block w blk Hdisk Hblk).
      unfold ram_class, cdata.
      rewrite set_ram_class_output, set_ram_class_save_file,
        set_ram_class_saved_block, set_ram_class_cycler, set_ram_class_class.
      cbn. repeat split.
      * destruct (fst (read_data (_save_file w) (get_size blk) blk));
          simpl; tauto.
      * unfold stored_into, new_Data.
        rewrite length_firstn, length_app, length_skipn, repeat_length. lia.
      * intros E. destruct (decide (_ram_class (obj w) = RC_compressed_disk));
          [reflexivity | contradiction].
      * intros E. destruct (decide (_ram_class (obj w) = RC_compressed_disk));
          [congruence | reflexivity].
  - intros Hram. unfold restore_from_disk. rewrite Hram. reflexivity.
Qed.

End DiskFacts.

(** Scenario 6 in small: 24 bytes do not fit a save file of 16. *)
Lemma make_disk_refused_changes_nothing_witness :
  ram_class (make_disk (SFO := SaveFile_ops)
               (resident_buffer small_disk stored_zlib two_floats three_rows))
  = RC_resident.
Proof.
  refine (proj1 (make_disk_refused_changes_nothing (SFO := SaveFile_ops)
                   (resident_buffer small_disk stored_zlib two_floats three_rows) _ _ _)).
  - vm_compute. reflexivity.
  - vm_compute. reflexivity.
  - vm_compute. reflexivity.
Defined.

Lemma make_disk_stores_and_frees_witness :
  _saved_block (obj (make_disk (SFO := SaveFile_ops)
                       (resident_buffer default_config stored_zlib two_floats three_rows)))
  = Some (mkBlock 0 24).
Proof.
  refine (proj1 (proj2 (proj2
    (make_disk_stores_and_frees (SFO := SaveFile_ops)
       (resident_buffer default_config stored_zlib two_floats three_rows)
       (mkBlock 0 24)
       (mkSaveFile (to_size_t (-1)) [(mkBlock 0 24, three_rows)]) _ _ _)))).
  - vm_compute. reflexivity.
  - vm_compute. reflexivity.
  - vm_compute. reflexivity.
Defined.

Lemma restore_from_disk_spec_witness :
  _data (cdata (restore_from_disk (SFO := SaveFile_ops)
                  (make_disk (SFO := SaveFile_ops)
                     (resident_buffer default_config stored_zlib two_floats three_rows))))
  = three_rows.
Proof.
  pose proof (proj2 (proj1 (restore_from_disk_spec (SFO := SaveFile_ops)
                (make_disk (SFO := SaveFile_ops)
                   (resident_buffer default_config stored_zlib two_floats three_rows)))
                ltac:(vm_compute; reflexivity)) (mkBlock 0 24)
                ltac:(vm_compute; reflexivity)) as H.
  cbv zeta in H. destruct H as (_ & H & _).
  rewrite H. vm_compute. reflexivity.
Defined.

(** ** Compression and eviction *)

Section CompressionFacts.
Context {SF : Type} {SFO : VertexDataSaveFile SF} {ZL : Zlib}.
Implicit Types (w : World SF).

Lemma make_compressed_resident w :
  ram_class w = RC_resident -> make_compressed w = compress_resident w.
Proof.
  intros E. unfold make_compressed. rewrite E. cbn.
  destruct (decide (RC_resident = RC_compressed)) as [D | _]; [discriminate D |].
  destruct (decide (ram_class w = RC_resident)); [reflexivity | contradiction].
Qed.

Lemma make_resident_compressed w :
  ram_class w = RC_compressed -> make_resident w = expand_compressed w.
Proof.
  intros E. unfold make_resident. rewrite E. cbn.
  destruct (decide (RC_compressed = RC_resident)) as [D | _]; [discriminate D |].
  destruct (decide (ram_class w = RC_compressed)); [reflexivity | contradiction].
Qed.

Lemma compress_resident_class w : ram_class (compress_resident w) = RC_compressed.
Proof. unfold compress_resident, ram_class. apply set_ram_class_class. Qed.

(** What [compress_resident] does when the buffer is larger than the
    threshold: the codec output replaces the bytes. *)
Lemma compress_resident_large w :
  min_vertex_data_compress_size (config w) < _data_full_size (cdata w) ->
  let full := _data_full_size (cdata w) in
  let src := firstn (Z.to_nat full) (_data (cdata w)) in
  let level := vertex_data_compression_level (config w) in
  let r := compress2 (compress_buffer_size full) src level in
  _cycler (obj (compress_resident w)) = cd_set_data (snd r) (cdata w) /\
  output (compress_resident w) =
    (if fst r =? Z_OK then [Ev_compress2 src level]
     else [Ev_assert "zlib error"; Ev_error "Couldn't compress: zlib error" (fst r);
           Ev_compress2 src level]) ++ output w.
Proof.
  intros Hbig full src level r. unfold compress_resident.
  apply Z.ltb_lt in Hbig. rewrite Hbig.
  rewrite set_ram_class_cycler, set_ram_class_output.
  fold full. fold src. fold level. fold r.
  destruct (fst r =? Z_OK); cbn; split; reflexivity.
Qed.

(** What it does at or below the threshold: nothing to the bytes, and
    nothing is written to the output. *)
Lemma compress_resident_small w :
  _data_full_size (cdata w) <= min_vertex_data_compress_size (config w) ->
  _cycler (obj (compress_resident w)) = cdata w /\
  output (compress_resident w) = output w /\
  config (compress_resident w) = config w.
Proof.
  intros Hsmall. unfold compress_resident.
  apply Z.ltb_ge in Hsmall. rewrite Hsmall.
  rewrite set_ram_class_cycler, set_ram_class_output.
  unfold set_ram_class, mark_used_lru_in, enqueue_lru, dequeue_lru. cbn.
  destruct (_lru (obj w)); repeat split; reflexivity.
Qed.

(** C2, as the code has it.  For a Resident buffer whose
    [_data_full_size] is above the minimum compress size,
    [make_compressed] calls the codec on the first [_data_full_size]
    bytes at the configured level, and the bytes of the buffer after the
    call are the codec's output buffer, whatever its length and whatever
    the result code; [_data_full_size] keeps the uncompressed length and
    the class is set to Compressed.  A result other than [Z_OK] is
    reported as an error and an assertion failure. *)
Theorem make_compressed_stores_codec_output w :
  ram_class w = RC_resident ->
  min_vertex_data_compress_size (config w) < _data_full_size (cdata w) ->
  let full := _data_full_size (cdata w) in
  let src := firstn (Z.to_nat full) (_data (cdata w)) in
  let level := vertex_data_compression_level (config w) in
  let r := compress2 (compress_buffer_size full) src level in
  In (Ev_compress2 src level) (output (make_compressed w)) /\
  _data (cdata (make_compressed w)) = snd r /\
  _data_full_size (cdata (make_compressed w)) = full /\
  ram_class (make_compressed w) = RC_compressed /\
  (fst r <> Z_OK ->
     In (Ev_error "Couldn't compress: zlib error" (fst r)) (output (make_compressed w)) /\
     In (Ev_assert "zlib error") (output (make_compressed w))).
Proof.
  intros Hres Hbig full src level r.
  rewrite (make_compressed_resident w Hres).
  destruct (compress_resident_large w Hbig) as [Hcd Hout].
  fold full in Hcd, Hout. fold src in Hcd, Hout. fold level in Hcd, Hout.
  fold r in Hcd, Hout.
  unfold cdata at 1 2. rewrite Hcd, Hout, compress_resident_class.
  split; [destruct (fst r =? Z_OK); simpl; tauto |].
  split; [reflexivity |]. split; [reflexivity |]. split; [reflexivity |].
  intros Hfail. apply Z.eqb_neq in Hfail. rewrite Hfail. simpl. tauto.
Qed.

(** C9.  For a Resident buffer whose [_data_full_size] is at most the
    minimum compress size, [make_compressed] leaves the bytes and their
    number as they are and sets the class to Compressed, and a following
    [make_resident] leaves the bytes as they are again and sets the
    class to Resident; neither call reaches the codec: the output of the
    world, where every codec call is recorded, does not grow. *)
Theorem tiny_buffer_skips_codec w :
  ram_class w = RC_resident ->
  _data_full_size (cdata w) <= min_vertex_data_compress_size (config w) ->
  _data (cdata (make_compressed w)) = _data (cdata w) /\
  length (_data (cdata (make_compressed w))) = length (_data (cdata w)) /\
  ram_class (make_compressed w) = RC_compressed /\
  output (make_compressed w) = output w /\
  _data (cdata (make_resident (make_compressed w))) = _data (cdata w) /\
  ram_class (make_resident (make_compressed w)) = RC_resident /\
  output (make_resident (make_compressed w)) = output w.
Proof.
  intros Hres Hsmall.
  rewrite (make_compressed_resident w Hres).
  destruct (compress_resident_small w Hsmall) as (Hcd & Hout & Hcfg).
  pose proof (compress_resident_class w) as Hcls.
  rewrite (make_resident_compressed _ Hcls).
  assert (Hskip : (min_vertex_data_compress_size (config (compress_resident w))
                   <? _data_full_size (cdata (compress_resident w))) = false).
  { unfold cdata at 1. rewrite Hcd, Hcfg. apply Z.ltb_ge. exact Hsmall. }
  unfold expand_compressed. rewrite Hskip.
  unfold ram_class, cdata.
  rewrite set_ram_class_class, set_ram_class_cycler, set_ram_class_output.
  cbn. fold (ram_class (compress_resident w)). rewrite Hcls, Hcd, Hout.
  repeat split; reflexivity.
Qed.

(** C7.  [evict_lru] on a page that sits in the tier of its class:
    a Resident buffer is handed to [make_compressed], and is Compressed
    afterwards, when the budget of the compressed tier is not zero, and
    to [make_disk] when that budget is zero; a Compressed buffer is
    handed to [make_disk]; whenever [make_disk] gets its block the class
    afterwards is Disk, respectively CompressedDisk.  For a Disk or
    CompressedDisk buffer the call only writes a warning: the buffer with
    its class, bytes and SaveBlock, the tiers and the save file stay as
    they are. *)
Theorem evict_lru_by_class w :
  get_lru w = Some (_global_lru (ram_class w)) ->
  (ram_class w = RC_resident -> get_max_size (_compressed_lru w) <> 0 ->
     evict_lru w = make_compressed w /\ ram_class (evict_lru w) = RC_compressed) /\
  (ram_class w = RC_resident -> get_max_size (_compressed_lru w) = 0 ->
     evict_lru w = make_disk w /\
     (_saved_block (obj w) = None ->
      write_data (_save_file w) (_data (cdata w)) <> None ->
      ram_class (evict_lru w) = RC_disk)) /\
  (ram_class w = RC_compressed ->
     evict_lru w = make_disk w /\
     (_saved_block (obj w) = None ->
      write_data (_save_file w) (_data (cdata w)) <> None ->
      ram_class (evict_lru w) = RC_compressed_disk)) /\
  (is_on_disk (ram_class w) = true ->
     evict_lru w = emit (Ev_warning "Cannot evict array data from disk.") w /\
     ram_class (evict_lru w) = ram_class w /\
     _data (cdata (evict_lru w)) = _data (cdata w) /\
     _saved_block (obj (evict_lru w)) = _saved_block (obj w)).
Proof.
  intros Hlru. unfold evict_lru.
  destruct (decide (get_lru w = Some (_global_lru (ram_class w)))) as [_ | N];
    [| contradiction].
  assert (Hdisk : forall rc, ram_class w = rc -> is_in_ram rc = true ->
            _saved_block (obj w) = None ->
            write_data (_save_file w) (_data (cdata w)) <> None ->
            ram_class (make_disk w)
            = (if decide (rc = RC_resident) then RC_disk else RC_compressed_disk)).
  { intros rc Hrc Hram Hblk Hok.
    destruct (write_data (_save_file w) (_data (cdata w))) as [[blk sf] |] eqn:Hw;
      [| contradiction].
    rewrite <- Hrc in Hram.
    rewrite (make_disk_accepted w blk sf Hram Hblk Hw), Hrc.
    unfold ram_class. apply set_ram_class_class. }
  split; [| split; [| split]].
  - intros Hres Hmax. rewrite Hres. apply Z.eqb_neq in Hmax. rewrite Hmax.
    split; [reflexivity |].
    rewrite (make_compressed_resident w Hres). apply compress_resident_class.
  - intros Hres Hmax. rewrite Hres. apply Z.eqb_eq in Hmax. rewrite Hmax.
    split; [reflexivity |]. intros Hblk Hok.
    apply (Hdisk RC_resident); auto.
  - intros Hcomp. rewrite Hcomp. split; [reflexivity |]. intros Hblk Hok.
    apply (Hdisk RC_compressed); auto.
  - intros Hon.
    destruct (ram_class w) eqn:E; simpl in Hon; try discriminate;
      unfold ram_class; cbn; fold (ram_class w); rewrite E;
      repeat split; reflexivity.
Qed.

End CompressionFacts.

(** C2 as claimed fails.  A Resident buffer of 104 bytes, above the
    threshold of 64: a codec that succeeds with 106 bytes, and a codec
    that fails, both leave the buffer Compressed with bytes that are not
    the original ones. *)
Lemma make_compressed_replaces_bytes_counterexample :
  let w := resident_buffer default_config stored_zlib two_floats thirteen_rows in
  let w' := make_compressed (SFO := SaveFile_ops) (ZL := stored_zlib) w in
  let v := resident_buffer default_config failing_zlib two_floats thirteen_rows in
  let v' := make_compressed (SFO := SaveFile_ops) (ZL := failing_zlib) v in
  (ram_class w = RC_resident /\
   min_vertex_data_compress_size (config w) < _data_full_size (cdata w) /\
   _data (cdata w) = thirteen_rows /\
   (length thirteen_rows
    < length (snd (compress2 (Zlib := stored_zlib) (compress_buffer_size 104) thirteen_rows 1)))%nat /\
   ram_class w' = RC_compressed /\
   length (_data (cdata w')) = 106%nat /\
   _data (cdata w') <> _data (cdata w)) /\
  (ram_class v = RC_resident /\
   min_vertex_data_compress_size (config v) < _data_full_size (cdata v) /\
   _data (cdata v) = thirteen_rows /\
   fst (compress2 (Zlib := failing_zlib) (compress_buffer_size 104) thirteen_rows 1) <> Z_OK /\
   ram_class v' = RC_compressed /\
   _data (cdata v') <> _data (cdata v)).
Proof.
  cbv zeta. split.
  - split; [vm_compute; reflexivity |]. split; [vm_compute; reflexivity |].
    split; [vm_compute; reflexivity |]. split; [vm_compute; lia |].
    split; [vm_compute; reflexivity |]. split; [vm_compute; reflexivity |].
    vm_compute. discriminate.
  - split; [vm_compute; reflexivity |]. split; [vm_compute; reflexivity |].
    split; [vm_compute; reflexivity |]. split; [vm_compute; discriminate |].
    split; [vm_compute; reflexivity |].
    vm_compute. discriminate.
Qed.

Lemma make_compressed_stores_codec_output_witness :
  _data (cdata (make_compressed (SFO := SaveFile_ops) (ZL := stored_zlib)
                  (resident_buffer default_config stored_zlib two_floats thirteen_rows)))
  = "x"%byte :: x01 :: thirteen_rows.
Proof.
  refine (proj1 (proj2
    (make_compressed_stores_codec_output (SFO := SaveFile_ops) (ZL := stored_zlib)
       (resident_buffer default_config stored_zlib two_floats thirteen_rows) _ _))).
  - vm_compute. reflexivity.
  - vm_compute. reflexivity.
Defined.

(** Scenario 1: a 32-byte buffer under the default threshold of 64. *)
Lemma tiny_buffer_skips_codec_witness :
  min_vertex_data_compress_size default_config = 64 /\
  _data (cdata (make_resident (SFO := SaveFile_ops) (ZL := failing_zlib)
                  (make_compressed (SFO := SaveFile_ops) (ZL := failing_zlib)
                     (resident_buffer default_config failing_zlib two_floats four_rows))))
  = four_rows.
Proof.
  split; [reflexivity |].
  refine (proj1 (proj2 (proj2 (proj2 (proj2
    (tiny_buffer_skips_codec (SFO := SaveFile_ops) (ZL := failing_zlib)
       (resident_buffer default_config failing_zlib two_floats four_rows) _ _)))))).
  - vm_compute. reflexivity.
  - vm_compute. discriminate.
Defined.

Lemma evict_lru_by_class_witness :
  evict_lru (SFO := SaveFile_ops) (ZL := stored_zlib)
    (resident_buffer no_compressed_tier stored_zlib two_floats three_rows)
  = make_disk (SFO := SaveFile_ops)
      (resident_buffer no_compressed_tier stored_zlib two_floats three_rows).
Proof.
  refine (proj1 (proj1 (proj2
    (evict_lru_by_class (SFO := SaveFile_ops) (ZL := stored_zlib)
       (resident_buffer no_compressed_tier stored_zlib two_floats three_rows) _)) _ _)).
  - vm_compute. reflexivity.
  - vm_compute. reflexivity.
  - vm_compute. reflexivity.
Defined.

(** ** Transitions do not read the output *)

Section OutputFacts.
Context {SF : Type} {SFO : VertexDataSaveFile SF} {ZL : Zlib}.
Implicit Types (w : World SF).

Lemma forget_emit e w : forget_output (emit e w) = forget_output w.
Proof. reflexivity. Qed.

Lemma forget_forget w : forget_output (forget_output w) = forget_output w.
Proof. reflexivity. Qed.

Lemma forget_with_obj f w :
  forget_output (with_obj f w) = with_obj f (forget_output w).
Proof. reflexivity. Qed.

Lemma forget_with_cdata f w :
  forget_output (with_cdata f w) = with_cdata f (forget_output w).
Proof. reflexivity. Qed.

Lemma forget_with_save_file sf w :
  forget_output (with_save_file sf w) = with_save_file sf (forget_output w).
Proof. reflexivity. Qed.

Lemma forget_set_lru_size n w :
  forget_output (set_lru_size n w) = set_lru_size n (forget_output w).
Proof. reflexivity. Qed.

Lemma forget_enqueue_lru l w :
  forget_output (enqueue_lru l w) = enqueue_lru l (forget_output w).
Proof.
  unfold enqueue_lru, dequeue_lru. cbn.
  destruct (_lru (obj w)); destruct l; reflexivity.
Qed.

Lemma forget_mark_used_lru w :
  forget_output (mark_used_lru w) = mark_used_lru (forget_output w).
Proof.
  unfold mark_used_lru. cbn. destruct (_lru (obj w)); [| reflexivity].
  apply forget_enqueue_lru.
Qed.

Lemma forget_set_ram_class rc w :
  forget_output (set_ram_class rc w) = set_ram_class rc (forget_output w).
Proof. unfold set_ram_class, mark_used_lru_in. apply forget_enqueue_lru. Qed.

Lemma forget_restore_from_disk w :
  forget_output (restore_from_disk w) = forget_output (restore_from_disk (forget_output w)).
Proof.
  unfold restore_from_disk, ram_class. cbn.
  destruct (is_on_disk (_ram_class (obj w))); [| reflexivity].
  destruct (_saved_block (obj w)) as [blk |]; [| reflexivity].
  destruct (fst (read_data (_save_file w) (get_size blk) blk)); cbn;
    destruct (decide (_ram_class (obj w) = RC_compressed_disk));
    rewrite !forget_set_ram_class; reflexivity.
Qed.

Lemma forget_expand_compressed w :
  forget_output (expand_compressed w) = forget_output (expand_compressed (forget_output w)).
Proof.
  unfold expand_compressed, cdata, data_size, cdata. cbn.
  destruct (min_vertex_data_compress_size (config w) <? _data_full_size (_cycler (obj w)));
    [| rewrite !forget_set_ram_class; reflexivity].
  destruct (fst (fst (uncompress (_data_full_size (_cycler (obj w)))
                        (_data (_cycler (obj w))))) =? Z_OK);
    match goal with
    | |- context [if ?c then _ else _] => destruct c
    end;
    rewrite ?forget_set_ram_class; reflexivity.
Qed.

Lemma forget_compress_resident w :
  forget_output (compress_resident w) = forget_output (compress_resident (forget_output w)).
Proof.
  unfold compress_resident, cdata, data_size, cdata. cbn.
  destruct (min_vertex_data_compress_size (config w) <? _data_full_size (_cycler (obj w)));
    [| rewrite !forget_set_ram_class; reflexivity].
  match goal with
  | |- context [if ?c then _ else _] => destruct c
  end;
  rewrite !forget_set_ram_class; reflexivity.
Qed.

Lemma restore_from_disk_obs w :
  obj (restore_from_disk (forget_output w)) = obj (restore_from_disk w).
Proof.
  change (obj (restore_from_disk (forget_output w)))
    with (obj (forget_output (restore_from_disk (forget_output w)))).
  rewrite <- forget_restore_from_disk. reflexivity.
Qed.

Lemma forget_make_resident w :
  forget_output (make_resident w) = forget_output (make_resident (forget_output w)).
Proof.
  unfold make_resident. change (ram_class (forget_output w)) with (ram_class w).
  destruct (decide (ram_class w = RC_resident)).
  - rewrite !forget_mark_used_lru. reflexivity.
  - destruct (is_on_disk (ram_class w)).
    + assert (E : ram_class (restore_from_disk (forget_output w))
                  = ram_class (restore_from_disk w))
        by (unfold ram_class; rewrite restore_from_disk_obs; reflexivity).
      rewrite E.
      destruct (decide (ram_class (restore_from_disk w) = RC_compressed)).
      * rewrite forget_expand_compressed, forget_restore_from_disk,
          <- forget_expand_compressed. reflexivity.
      * apply forget_restore_from_disk.
    + change (ram_class (forget_output w)) with (ram_class w).
      destruct (decide (ram_class w = RC_compressed)); [| reflexivity].
      apply forget_expand_compressed.
Qed.

Lemma forget_make_compressed w :
  forget_output (make_compressed w) = forget_output (make_compressed (forget_output w)).
Proof.
  unfold make_compressed. change (ram_class (forget_output w)) with (ram_class w).
  destruct (decide (ram_class w = RC_compressed)).
  - rewrite !forget_mark_used_lru. reflexivity.
  - destruct (is_on_disk (ram_class w)).
    + assert (E : ram_class (restore_from_disk (forget_output w))
                  = ram_class (restore_from_disk w))
        by (unfold ram_class; rewrite restore_from_disk_obs; reflexivity).
      rewrite E.
      destruct (decide (ram_class (restore_from_disk w) = RC_resident)).
      * rewrite forget_compress_resident, forget_restore_from_disk,
          <- forget_compress_resident. reflexivity.
      * apply forget_restore_from_disk.
    + change (ram_class (forget_output w)) with (ram_class w).
      destruct (decide (ram_class w = RC_resident)); [| reflexivity].
      apply forget_compress_resident.
Qed.

Lemma forget_make_disk w :
  forget_output (make_disk w) = forget_output (make_disk (forget_output w)).
Proof.
  unfold make_disk, ram_class, cdata. cbn.
  destruct (is_on_disk (_ram_class (obj w))).
  - rewrite !forget_mark_used_lru. reflexivity.
  - destruct (is_in_ram (_ram_class (obj w))); [| reflexivity].
    destruct (_saved_block (obj w)); [reflexivity |].
    destruct (write_data (_save_file w) (_data (_cycler (obj w)))) as [[blk sf] |].
    + cbn. destruct (decide (_ram_class (obj w) = RC_resident));
        rewrite !forget_set_ram_class; reflexivity.
    + rewrite !forget_mark_used_lru. reflexivity.
Qed.

(** Worlds in the same state stay so under every transition. *)
Lemma same_state_step (op : World SF -> World SF) :
  (forall w, forget_output (op w) = forget_output (op (forget_output w))) ->
  forall w1 w2, same_state w1 w2 -> same_state (op w1) (op w2).
Proof.
  intros Hop w1 w2 E. unfold same_state in *.
  rewrite (Hop w1), (Hop w2), E. reflexivity.
Qed.

Lemma same_state_class w1 w2 : same_state w1 w2 -> ram_class w1 = ram_class w2.
Proof.
  intros E. unfold same_state in E.
  change (ram_class (forget_output w1) = ram_class (forget_output w2)).
  rewrite E. reflexivity.
Qed.

Lemma same_state_obj w1 w2 : same_state w1 w2 -> obj w1 = obj w2.
Proof.
  intros E. unfold same_state in E.
  change (obj (forget_output w1) = obj (forget_output w2)).
  rewrite E. reflexivity.
Qed.

End OutputFacts.

(** ** Idempotence of the transitions *)

Section Idempotence.
Context {SF : Type} {SFO : VertexDataSaveFile SF} {ZL : Zlib}.
Implicit Types (w : World SF).

Lemma same_state_refl w : same_state w w.
Proof. reflexivity. Qed.

Lemma same_state_trans w1 w2 w3 :
  same_state w1 w2 -> same_state w2 w3 -> same_state w1 w3.
Proof. unfold same_state. congruence. Qed.

Lemma same_state_sym w1 w2 : same_state w1 w2 -> same_state w2 w1.
Proof. unfold same_state. congruence. Qed.

Lemma with_obj_fixed f w : f (obj w) = obj w -> with_obj f w = w.
Proof. intros E. destruct w. unfold with_obj. simpl in *. rewrite E. reflexivity. Qed.

Lemma set_saved_block_fixed (a : GeomVertexArrayData) :
  _saved_block a = None -> set_saved_block None a = a.
Proof. intros E. destruct a. simpl in E. subst. reflexivity. Qed.

Lemma make_resident_on_resident w :
  ram_class w = RC_resident -> make_resident w = mark_used_lru w.
Proof.
  intros E. unfold make_resident.
  destruct (decide (ram_class w = RC_resident)); [reflexivity | contradiction].
Qed.

Lemma make_compressed_on_compressed w :
  ram_class w = RC_compressed -> make_compressed w = mark_used_lru w.
Proof.
  intros E. unfold make_compressed.
  destruct (decide (ram_class w = RC_compressed)); [reflexivity | contradiction].
Qed.

Lemma make_disk_on_disk w :
  is_on_disk (ram_class w) = true -> make_disk w = mark_used_lru w.
Proof. intros E. unfold make_disk. rewrite E. reflexivity. Qed.

Lemma make_resident_after_set_ram_class X :
  make_resident (set_ram_class RC_resident X) = set_ram_class RC_resident X.
Proof.
  rewrite make_resident_on_resident by apply set_ram_class_class.
  apply mark_used_after_set_ram_class.
Qed.

Lemma make_compressed_after_set_ram_class X :
  make_compressed (set_ram_class RC_compressed X) = set_ram_class RC_compressed X.
Proof.
  rewrite make_compressed_on_compressed by apply set_ram_class_class.
  apply mark_used_after_set_ram_class.
Qed.

Lemma make_disk_after_set_ram_class rc X :
  is_on_disk rc = true ->
  make_disk (set_ram_class rc X) = set_ram_class rc X.
Proof.
  intros E. rewrite make_disk_on_disk.
  - apply mark_used_after_set_ram_class.
  - unfold ram_class. rewrite set_ram_class_class. exact E.
Qed.

(** Expanding either reaches the resident class or, when the codec
    misreports the length, leaves the state as it was. *)
Lemma expand_compressed_outcome w :
  (exists X, expand_compressed w = set_ram_class RC_resident X) \/
  same_state (expand_compressed w) w.
Proof.
  unfold expand_compressed.
  destruct (min_vertex_data_compress_size (config w) <? _data_full_size (cdata w));
    [| left; eexists; reflexivity].
  match goal with
  | |- context [if ?c then set_ram_class _ _ else _] => destruct c
  end; [left; eexists; reflexivity |].
  right. destruct (_ =? Z_OK); reflexivity.
Qed.

Lemma compress_resident_outcome w :
  exists X, compress_resident w = set_ram_class RC_compressed X.
Proof. unfold compress_resident. eexists. reflexivity. Qed.

Lemma make_resident_expand_compressed w :
  ram_class w = RC_compressed ->
  same_state (make_resident (expand_compressed w)) (expand_compressed w).
Proof.
  intros Hc. destruct (expand_compressed_outcome w) as [[X E] | E].
  - rewrite E, make_resident_after_set_ram_class. apply same_state_refl.
  - eapply same_state_trans.
    + apply (same_state_step make_resident forget_make_resident _ _ E).
    + rewrite (make_resident_compressed w Hc). apply same_state_refl.
Qed.

Lemma restore_from_disk_outcome w :
  is_on_disk (ram_class w) = true ->
  (same_state (restore_from_disk w) w /\ ram_class (restore_from_disk w) = ram_class w) \/
  (exists X, restore_from_disk w = set_ram_class RC_compressed X) \/
  (exists X, restore_from_disk w = set_ram_class RC_resident X).
Proof.
  intros Hd. destruct (_saved_block (obj w)) as [blk |] eqn:Hb.
  - right. rewrite (restore_from_disk_with_block w blk Hd Hb).
    destruct (decide (ram_class w = RC_compressed_disk));
      [left | right]; eexists; reflexivity.
  - left. unfold restore_from_disk. rewrite Hd, Hb. split; reflexivity.
Qed.

Lemma make_resident_twice w :
  same_state (make_resident (make_resident w)) (make_resident w).
Proof.
  destruct (decide (ram_class w = RC_resident)) as [Hr | Hr].
  - rewrite (make_resident_on_resident w Hr).
    rewrite make_resident_on_resident
      by (unfold ram_class; rewrite mark_used_lru_obj; exact Hr).
    rewrite mark_used_lru_twice. apply same_state_refl.
  - destruct (is_on_disk (ram_class w)) eqn:Hd.
    + assert (E : make_resident w =
                  if decide (ram_class (restore_from_disk w) = RC_compressed)
                  then expand_compressed (restore_from_disk w)
                  else restore_from_disk w).
      { unfold make_resident. rewrite Hd.
        destruct (decide (ram_class w = RC_resident)); [contradiction | reflexivity]. }
      destruct (restore_from_disk_outcome w Hd) as [[Hs Hc] | [[X HX] | [X HX]]].
      * rewrite E.
        destruct (decide (ram_class (restore_from_disk w) = RC_compressed)) as [D | D];
          [rewrite Hc in D; rewrite D in Hd; discriminate Hd |].
        eapply same_state_trans;
          [apply (same_state_step make_resident forget_make_resident _ _ Hs) |].
        rewrite E.
        destruct (decide (ram_class (restore_from_disk w) = RC_compressed));
          [contradiction | apply same_state_refl].
      * rewrite E.
        destruct (decide (ram_class (restore_from_disk w) = RC_compressed)) as [D | D].
        -- apply make_resident_expand_compressed. exact D.
        -- exfalso. apply D. rewrite HX. apply set_ram_class_class.
      * rewrite E.
        destruct (decide (ram_class (restore_from_disk w) = RC_compressed)) as [D | D].
        -- exfalso. rewrite HX in D. unfold ram_class in D.
           rewrite set_ram_class_class in D. discriminate D.
        -- rewrite HX, make_resident_after_set_ram_class. apply same_state_refl.
    + destruct (decide (ram_class w = RC_compressed)) as [Hc | Hc].
      * rewrite (make_resident_compressed w Hc).
        apply make_resident_expand_compressed. exact Hc.
      * destruct (ram_class w); simpl in Hd; congruence.
Qed.

Lemma make_compressed_twice w :
  same_state (make_compressed (make_compressed w)) (make_compressed w).
Proof.
  destruct (decide (ram_class w = RC_compressed)) as [Hr | Hr].
  - rewrite (make_compressed_on_compressed w Hr).
    rewrite make_compressed_on_compressed
      by (unfold ram_class; rewrite mark_used_lru_obj; exact Hr).
    rewrite mark_used_lru_twice. apply same_state_refl.
  - destruct (is_on_disk (ram_class w)) eqn:Hd.
    + assert (E : make_compressed w =
                  if decide (ram_class (restore_from_disk w) = RC_resident)
                  then compress_resident (restore_from_disk w)
                  else restore_from_disk w).
      { unfold make_compressed. rewrite Hd.
        destruct (decide (ram_class w = RC_compressed)); [contradiction | reflexivity]. }
      rewrite E.
      destruct (decide (ram_class (restore_from_disk w) = RC_resident)) as [D | D].
      * destruct (compress_resident_outcome (restore_from_disk w)) as [Y HY].
        rewrite HY, make_compressed_after_set_ram_class. apply same_state_refl.
      * destruct (restore_from_disk_outcome w Hd) as [[Hs Hc] | [[X HX] | [X HX]]].
        -- eapply same_state_trans;
             [apply (same_state_step make_compressed forget_make_compressed _ _ Hs) |].
           rewrite E.
           destruct (decide (ram_class (restore_from_disk w) = RC_resident));
             [contradiction | apply same_state_refl].
        -- rewrite HX, make_compressed_after_set_ram_class. apply same_state_refl.
        -- exfalso. apply D. rewrite HX. apply set_ram_class_class.
    + destruct (decide (ram_class w = RC_resident)) as [Hc | Hc].
      * rewrite (make_compressed_resident w Hc).
        destruct (compress_resident_outcome w) as [Y HY].
        rewrite HY, make_compressed_after_set_ram_class. apply same_state_refl.
      * destruct (ram_class w); simpl in Hd; congruence.
Qed.

(** A refused write leaves a state in which the write is refused again. *)
Lemma make_disk_refused_state w :
  is_in_ram (ram_class w) = true ->
  _saved_block (obj w) = None ->
  write_data (_save_file w) (_data (cdata w)) = None ->
  same_state (make_disk w) (mark_used_lru w).
Proof.
  intros Hram Hblk Hw. unfold make_disk.
  rewrite (in_ram_not_on_disk _ Hram), Hram, Hblk. cbn. rewrite Hw.
  unfold same_state. rewrite !forget_mark_used_lru, forget_with_obj, forget_emit.
  rewrite with_obj_fixed; [reflexivity |].
  apply set_saved_block_fixed. exact Hblk.
Qed.

Lemma make_disk_twice w :
  same_state (make_disk (make_disk w)) (make_disk w).
Proof.
  destruct (is_on_disk (ram_class w)) eqn:Hd.
  - rewrite (make_disk_on_disk w Hd).
    rewrite make_disk_on_disk
      by (unfold ram_class; rewrite mark_used_lru_obj; exact Hd).
    rewrite mark_used_lru_twice. apply same_state_refl.
  - assert (Hram : is_in_ram (ram_class w) = true)
      by (destruct (ram_class w); simpl in *; congruence).
    destruct (_saved_block (obj w)) as [b |] eqn:Hb.
    + assert (E : same_state (make_disk w) w).
      { unfold make_disk. rewrite Hd, Hram, Hb. reflexivity. }
      eapply same_state_trans;
        [apply (same_state_step make_disk forget_make_disk _ _ E) |].
      apply same_state_refl.
    + destruct (write_data (_save_file w) (_data (cdata w))) as [[blk sf] |] eqn:Hw.
      * assert (E : exists rc X, is_on_disk rc = true /\ make_disk w = set_ram_class rc X).
        { unfold make_disk. rewrite Hd, Hram, Hb. cbn. rewrite Hw.
          match goal with
          | |- context [if ?c then _ else _] => destruct c
          end; eexists; eexists; (split; [| reflexivity]); reflexivity. }
        destruct E as (rc & X & Hrc & E).
        rewrite E, (make_disk_after_set_ram_class rc X Hrc). apply same_state_refl.
      * pose proof (make_disk_refused_state w Hram Hb Hw) as E.
        eapply same_state_trans;
          [apply (same_state_step make_disk forget_make_disk _ _ E) |].
        eapply same_state_trans; [| apply same_state_sym; exact E].
        eapply same_state_trans.
        -- apply make_disk_refused_state.
           ++ unfold ram_class. rewrite mark_used_lru_obj. exact Hram.
           ++ rewrite mark_used_lru_obj. exact Hb.
           ++ unfold cdata. rewrite mark_used_lru_obj, mark_used_lru_save_file. exact Hw.
        -- rewrite mark_used_lru_twice. apply same_state_refl.
Qed.

(** A refused write leaves the buffer, its absent SaveBlock and the save
    file as they were, so the next call finds the same refusal; each of
    the two calls hands the bytes to the save file. *)
Lemma make_disk_refused_again w :
  is_in_ram (ram_class w) = true ->
  _saved_block (obj w) = None ->
  write_data (_save_file w) (_data (cdata w)) = None ->
  is_in_ram (ram_class (make_disk w)) = true /\
  _saved_block (obj (make_disk w)) = None /\
  write_data (_save_file (make_disk w)) (_data (cdata (make_disk w))) = None /\
  output (make_disk w) = Ev_write_data (_data (cdata w)) :: output w.
Proof.
  intros Hram Hblk Hw.
  pose proof (make_disk_refused w Hram Hblk Hw) as E.
  pose proof (make_disk_refused_obj w Hram Hblk Hw) as Eobj.
  assert (Esf : _save_file (make_disk w) = _save_file w)
    by (rewrite E, mark_used_lru_save_file; reflexivity).
  unfold ram_class, cdata. rewrite Eobj, Esf.
  split; [exact Hram |]. split; [exact Hblk |]. split; [exact Hw |].
  rewrite E, mark_used_lru_output. reflexivity.
Qed.

(** C8.  Each of [make_resident], [make_compressed] and [make_disk],
    called twice in a row, leaves the world in the state one call leaves
    it in: the same buffer (class, bytes, SaveBlock and all), tiers and
    save file; the two runs differ at most in the lines of output.  When
    the first [make_disk] has put the buffer on disk, the second call is
    nothing but the re-marking of the page as recently used.  When the
    save file has refused the write of the first [make_disk], the second
    call is more than the re-marking: it hands the bytes to the save
    file once more. *)
Theorem residency_transitions_idempotent w :
  (same_state (make_resident (make_resident w)) (make_resident w) /\
   ram_class (make_resident (make_resident w)) = ram_class (make_resident w) /\
   _data (cdata (make_resident (make_resident w))) = _data (cdata (make_resident w))) /\
  (same_state (make_compressed (make_compressed w)) (make_compressed w) /\
   ram_class (make_compressed (make_compressed w)) = ram_class (make_compressed w) /\
   _data (cdata (make_compressed (make_compressed w))) = _data (cdata (make_compressed w))) /\
  (same_state (make_disk (make_disk w)) (make_disk w) /\
   ram_class (make_disk (make_disk w)) = ram_class (make_disk w) /\
   _data (cdata (make_disk (make_disk w))) = _data (cdata (make_disk w)) /\
   (is_on_disk (ram_class (make_disk w)) = true ->
    make_disk (make_disk w) = mark_used_lru (make_disk w)) /\
   (is_in_ram (ram_class w) = true ->
    _saved_block (obj w) = None ->
    write_data (_save_file w) (_data (cdata w)) = None ->
    output (make_disk (make_disk w))
    = Ev_write_data (_data (cdata w)) :: output (make_disk w) /\
    output (mark_used_lru (make_disk w)) = output (make_disk w) /\
    make_disk (make_disk w) <> mark_used_lru (make_disk w))).
Proof.
  pose proof (make_resident_twice w) as Hr.
  pose proof (make_compressed_twice w) as Hc.
  pose proof (make_disk_twice w) as Hd.
  split; [| split].
  - split; [exact Hr |]. unfold ram_class, cdata.
    rewrite (same_state_obj _ _ Hr). split; reflexivity.
  - split; [exact Hc |]. unfold ram_class, cdata.
    rewrite (same_state_obj _ _ Hc). split; reflexivity.
  - split; [exact Hd |].
    split; [unfold ram_class; rewrite (same_state_obj _ _ Hd); reflexivity |].
    split; [unfold cdata; rewrite (same_state_obj _ _ Hd); reflexivity |].
    split; [apply make_disk_on_disk |].
    intros Hram Hblk Hw.
    destruct (make_disk_refused_again w Hram Hblk Hw) as (Hram1 & Hblk1 & Hw1 & _).
    destruct (make_disk_refused_again (make_disk w) Hram1 Hblk1 Hw1) as (_ & _ & _ & Hout).
    assert (Edata : _data (cdata (make_disk w)) = _data (cdata w))
      by (unfold cdata; rewrite (make_disk_refused_obj w Hram Hblk Hw); reflexivity).
    rewrite Edata in Hout.
    split; [exact Hout |]. split; [apply mark_used_lru_output |].
    intros Heq. apply (f_equal output) in Heq.
    rewrite Hout, mark_used_lru_output in Heq.
    apply (f_equal (@length Event)) in Heq. cbn in Heq. lia.
Qed.

End Idempotence.

Lemma residency_transitions_idempotent_witness :
  output (make_disk (SFO := SaveFile_ops)
            (make_disk (SFO := SaveFile_ops)
               (resident_buffer small_disk stored_zlib two_floats three_rows)))
  = Ev_write_data three_rows
    :: output (make_disk (SFO := SaveFile_ops)
                 (resident_buffer small_disk stored_zlib two_floats three_rows)) /\
  make_disk (SFO := SaveFile_ops) (make_disk (SFO := SaveFile_ops) spilled_buffer)
  = mark_used_lru (make_disk (SFO := SaveFile_ops) spilled_buffer).
Proof.
  split.
  - refine (proj1 (proj2 (proj2 (proj2 (proj2 (proj2 (proj2
      (residency_transitions_idempotent (SFO := SaveFile_ops) (ZL := stored_zlib)
         (resident_buffer small_disk stored_zlib two_floats three_rows))))))) _ _ _)).
    + vm_compute. reflexivity.
    + vm_compute. reflexivity.
    + vm_compute. reflexivity.
  - refine (proj1 (proj2 (proj2 (proj2 (proj2 (proj2
      (residency_transitions_idempotent (SFO := SaveFile_ops) (ZL := stored_zlib)
         spilled_buffer)))))) _).
    vm_compute. reflexivity.
Defined.

(** C8 as claimed fails in its last words.  A Resident buffer of 24
    bytes under a save file that holds at most 16: the write of the
    first [make_disk] is refused and the buffer stays Resident; the
    second call leaves the same class and bytes, but it is not the
    re-marking of the page alone: it hands the 24 bytes to the save file
    again, which the re-marking does not. *)
Lemma make_disk_twice_writes_twice_counterexample :
  let w := resident_buffer small_disk stored_zlib two_floats three_rows in
  let once := make_disk (SFO := SaveFile_ops) w in
  let twice := make_disk (SFO := SaveFile_ops) once in
  ram_class w = RC_resident /\
  write_data (VertexDataSaveFile := SaveFile_ops) (_save_file w) (_data (cdata w)) = None /\
  ram_class once = RC_resident /\
  ram_class twice = ram_class once /\
  _data (cdata twice) = _data (cdata once) /\
  output once = [Ev_write_data three_rows] /\
  output (mark_used_lru once) = [Ev_write_data three_rows] /\
  output twice = [Ev_write_data three_rows; Ev_write_data three_rows] /\
  twice <> mark_used_lru once.
Proof.
  cbv zeta.
  repeat (split; [vm_compute; reflexivity |]).
  intros Heq. apply (f_equal (fun v => length (output v))) in Heq.
  vm_compute in Heq. discriminate Heq.
Qed.

(** ** The invariant under the transitions *)

Section InvariantFacts.
Context {SF : Type} {SFO : VertexDataSaveFile SF} {ZL : Zlib}.
Implicit Types (w : World SF).

Lemma invariant_in_ram (a : GeomVertexArrayData) :
  is_in_ram (_ram_class a) = true -> _saved_block a = None -> residency_invariant a.
Proof.
  intros Hram Hb. split; [| auto].
  intros Hd. rewrite (in_ram_not_on_disk _ Hram) in Hd. discriminate Hd.
Qed.

Lemma invariant_same_obj (a b : GeomVertexArrayData) :
  a = b -> residency_invariant b -> residency_invariant a.
Proof. intros ->. auto. Qed.

Lemma construct_invariant this fmt hint w :
  residency_invariant (obj (construct this fmt hint w)).
Proof.
  apply invariant_in_ram; unfold construct;
    destruct (is_registered fmt); cbn;
    unfold mark_used_lru_in;
    match goal with
    | |- context [enqueue_lru ?l ?x] =>
        change (obj (enqueue_lru l x)) with (obj (set_ram_class RC_resident x))
    end;
    rewrite ?set_ram_class_class, ?set_ram_class_saved_block; reflexivity.
Qed.

Lemma restore_from_disk_invariant w :
  residency_invariant (obj w) -> residency_invariant (obj (restore_from_disk w)).
Proof.
  intros Hinv. destruct (is_on_disk (ram_class w)) eqn:Hd.
  - destruct (_saved_block (obj w)) as [blk |] eqn:Hb.
    + rewrite (restore_from_disk_with_block w blk Hd Hb).
      apply invariant_in_ram.
      * rewrite set_ram_class_class. destruct (decide _); reflexivity.
      * rewrite set_ram_class_saved_block. reflexivity.
    + unfold restore_from_disk. rewrite Hd, Hb. exact Hinv.
  - unfold restore_from_disk. rewrite Hd. exact Hinv.
Qed.

Lemma restore_from_disk_in_ram w :
  residency_invariant (obj w) -> is_in_ram (ram_class (restore_from_disk w)) = true.
Proof.
  intros Hinv. destruct (is_on_disk (ram_class w)) eqn:Hd.
  - destruct (_saved_block (obj w)) as [blk |] eqn:Hb.
    + rewrite (restore_from_disk_with_block w blk Hd Hb).
      unfold ram_class at 1. rewrite set_ram_class_class.
      destruct (decide _); reflexivity.
    + destruct Hinv as [Hon _]. destruct (Hon Hd) as [_ Hsome]. contradiction.
  - unfold restore_from_disk. rewrite Hd.
    destruct (ram_class w); simpl in *; congruence.
Qed.

Lemma expand_compressed_invariant w :
  ram_class w = RC_compressed ->
  residency_invariant (obj w) ->
  residency_invariant (obj (expand_compressed w)) /\
  is_in_ram (ram_class (expand_compressed w)) = true.
Proof.
  intros Hc Hinv.
  assert (Hb : _saved_block (obj w) = None).
  { apply (proj2 Hinv). unfold ram_class in Hc. rewrite Hc. reflexivity. }
  destruct (expand_compressed_outcome w) as [[X E] | E].
  - assert (Hb' : _saved_block (obj (expand_compressed w)) = None).
    { unfold expand_compressed.
      repeat match goal with
             | |- context [if ?c then _ else _] => destruct c
             end;
        rewrite ?set_ram_class_saved_block; cbn; exact Hb. }
    assert (Hram : is_in_ram (ram_class (expand_compressed w)) = true).
    { rewrite E. unfold ram_class. rewrite set_ram_class_class. reflexivity. }
    split; [apply invariant_in_ram; assumption | exact Hram].
  - rewrite (same_state_obj _ _ E), (same_state_class _ _ E), Hc.
    split; [exact Hinv | reflexivity].
Qed.

Lemma compress_resident_invariant w :
  residency_invariant (obj w) ->
  ram_class w = RC_resident ->
  residency_invariant (obj (compress_resident w)).
Proof.
  intros Hinv Hr.
  assert (Hb : _saved_block (obj w) = None).
  { apply (proj2 Hinv). unfold ram_class in Hr. rewrite Hr. reflexivity. }
  apply invariant_in_ram.
  - fold (ram_class (compress_resident w)). rewrite compress_resident_class. reflexivity.
  - unfold compress_resident. rewrite set_ram_class_saved_block.
    repeat match goal with
           | |- context [if ?c then _ else _] => destruct c
           end; cbn; exact Hb.
Qed.

Lemma make_resident_invariant w :
  residency_invariant (obj w) ->
  residency_invariant (obj (make_resident w)) /\
  is_in_ram (ram_class (make_resident w)) = true.
Proof.
  intros Hinv. unfold make_resident.
  destruct (decide (ram_class w = RC_resident)) as [Hr | Hr].
  - unfold ram_class. rewrite mark_used_lru_obj. split; [exact Hinv |].
    unfold ram_class in Hr. rewrite Hr. reflexivity.
  - assert (H1 : residency_invariant
                   (obj (if is_on_disk (ram_class w) then restore_from_disk w else w))
                 /\ is_in_ram (ram_class (if is_on_disk (ram_class w)
                                         then restore_from_disk w else w)) = true).
    { destruct (is_on_disk (ram_class w)) eqn:Hd.
      - split; [apply restore_from_disk_invariant | apply restore_from_disk_in_ram];
          exact Hinv.
      - split; [exact Hinv |]. destruct (ram_class w); simpl in *; congruence. }
    destruct H1 as [Hi Hram].
    destruct (decide (ram_class _ = RC_compressed)) as [Hc | Hc].
    + apply expand_compressed_invariant; assumption.
    + split; assumption.
Qed.

Lemma make_compressed_invariant w :
  residency_invariant (obj w) -> residency_invariant (obj (make_compressed w)).
Proof.
  intros Hinv. unfold make_compressed.
  destruct (decide (ram_class w = RC_compressed)) as [Hr | Hr].
  - rewrite mark_used_lru_obj. exact Hinv.
  - assert (Hi : residency_invariant
                   (obj (if is_on_disk (ram_class w) then restore_from_disk w else w))).
    { destruct (is_on_disk (ram_class w));
        [apply restore_from_disk_invariant |]; exact Hinv. }
    destruct (decide (ram_class _ = RC_resident)) as [Hc | Hc].
    + apply compress_resident_invariant; assumption.
    + exact Hi.
Qed.

Lemma make_disk_invariant w :
  residency_invariant (obj w) -> residency_invariant (obj (make_disk w)).
Proof.
  intros Hinv. destruct (is_on_disk (ram_class w)) eqn:Hd.
  - rewrite (make_disk_on_disk w Hd), mark_used_lru_obj. exact Hinv.
  - assert (Hram : is_in_ram (ram_class w) = true)
      by (destruct (ram_class w); simpl in *; congruence).
    pose proof (proj2 Hinv Hram) as Hb.
    destruct (write_data (_save_file w) (_data (cdata w))) as [[blk sf] |] eqn:Hw.
    + rewrite (make_disk_accepted w blk sf Hram Hb Hw).
      split.
      * intros _. rewrite set_ram_class_cycler, set_ram_class_saved_block. cbn.
        split; [reflexivity | discriminate].
      * rewrite set_ram_class_class. intros Hram'. exfalso.
        destruct (decide _); discriminate Hram'.
    + rewrite (make_disk_refused_obj w Hram Hb Hw). exact Hinv.
Qed.

Lemma evict_lru_invariant w :
  residency_invariant (obj w) -> residency_invariant (obj (evict_lru w)).
Proof.
  intros Hinv. unfold evict_lru.
  destruct (decide _); [| exact Hinv].
  destruct (ram_class w); try exact Hinv.
  - destruct (_ =? 0); [apply make_disk_invariant | apply make_compressed_invariant];
      exact Hinv.
  - apply make_disk_invariant. exact Hinv.
Qed.

Lemma copy_construct_fields this w :
  _ram_class (obj (copy_construct this w)) = ram_class w /\
  _saved_block (obj (copy_construct this w)) = None /\
  _cycler (obj (copy_construct this w)) = cdata w.
Proof.
  unfold copy_construct, mark_used_lru_in. cbn.
  match goal with
  | |- context [enqueue_lru (Some (_global_lru ?rc)) ?x] =>
      assert (E : obj (enqueue_lru (Some (_global_lru rc)) x) = obj (set_ram_class rc x))
  end.
  { unfold set_ram_class, mark_used_lru_in, enqueue_lru, dequeue_lru. cbn. reflexivity. }
  destruct (_array_format (obj w)) as [f |]; [destruct (is_registered f) |];
    cbn; rewrite E, set_ram_class_class, set_ram_class_saved_block, set_ram_class_cycler;
    repeat split; reflexivity.
Qed.

(** Copy construction keeps the invariant when the buffer copied is in
    memory. *)
Lemma copy_construct_invariant_in_ram this w :
  is_in_ram (ram_class w) = true ->
  residency_invariant (obj (copy_construct this w)).
Proof.
  intros Hram. destruct (copy_construct_fields this w) as (Hc & Hb & _).
  apply invariant_in_ram; [rewrite Hc; exact Hram | exact Hb].
Qed.

(** Copy construction of a buffer that is on disk never keeps it. *)
Lemma copy_construct_not_invariant_on_disk this w :
  is_on_disk (ram_class w) = true ->
  ~ residency_invariant (obj (copy_construct this w)).
Proof.
  intros Hd [Hon _]. destruct (copy_construct_fields this w) as (Hc & Hb & _).
  rewrite Hc in Hon. destruct (Hon Hd) as [_ Hsome]. contradiction.
Qed.

(** The copy that copy-on-write takes makes the buffer resident first
    and keeps the invariant. *)
Lemma make_cow_copy_invariant this w :
  residency_invariant (obj w) -> residency_invariant (obj (make_cow_copy this w)).
Proof.
  intros Hinv. unfold make_cow_copy.
  apply copy_construct_invariant_in_ram.
  apply make_resident_invariant. exact Hinv.
Qed.

End InvariantFacts.

(** ** The page stays in the tier of its class *)

Section EnrolledFacts.
Context {SF : Type} {SFO : VertexDataSaveFile SF} {ZL : Zlib}.
Implicit Types (w : World SF).

Lemma enrolled_set_ram_class rc w : enrolled (obj (set_ram_class rc w)).
Proof.
  unfold enrolled. rewrite set_ram_class_lru, set_ram_class_class. reflexivity.
Qed.

Lemma enrolled_construct this fmt hint w : enrolled (obj (construct this fmt hint w)).
Proof.
  unfold construct. destruct (is_registered fmt); cbn;
    match goal with
    | |- enrolled (obj (mark_used_lru_in _ ?x)) =>
        change (enrolled (obj (set_ram_class RC_resident x)))
    end; apply enrolled_set_ram_class.
Qed.

Lemma enrolled_copy_construct this w : enrolled (obj (copy_construct this w)).
Proof.
  unfold copy_construct. cbn.
  destruct (_array_format (obj w)) as [f |]; [destruct (is_registered f) |]; cbn;
    match goal with
    | |- enrolled (obj (mark_used_lru_in (_global_lru ?rc) ?x)) =>
        change (enrolled (obj (set_ram_class rc x)))
    end; apply enrolled_set_ram_class.
Qed.

Lemma enrolled_restore_from_disk w :
  enrolled (obj w) -> enrolled (obj (restore_from_disk w)).
Proof.
  intros He. destruct (is_on_disk (ram_class w)) eqn:Hd.
  - destruct (_saved_block (obj w)) as [blk |] eqn:Hb.
    + rewrite (restore_from_disk_with_block w blk Hd Hb). apply enrolled_set_ram_class.
    + unfold restore_from_disk. rewrite Hd, Hb. exact He.
  - unfold restore_from_disk. rewrite Hd. exact He.
Qed.

Lemma enrolled_expand_compressed w :
  enrolled (obj w) -> enrolled (obj (expand_compressed w)).
Proof.
  intros He. destruct (expand_compressed_outcome w) as [[X E] | E].
  - rewrite E. apply enrolled_set_ram_class.
  - rewrite (same_state_obj _ _ E). exact He.
Qed.

Lemma enrolled_make_resident w :
  enrolled (obj w) -> enrolled (obj (make_resident w)).
Proof.
  intros He. unfold make_resident.
  destruct (decide (ram_class w = RC_resident)).
  - rewrite mark_used_lru_obj. exact He.
  - assert (H1 : enrolled (obj (if is_on_disk (ram_class w)
                                then restore_from_disk w else w)))
      by (destruct (is_on_disk (ram_class w));
          [apply enrolled_restore_from_disk |]; exact He).
    destruct (decide _); [apply enrolled_expand_compressed |]; exact H1.
Qed.

Lemma enrolled_make_compressed w :
  enrolled (obj w) -> enrolled (obj (make_compressed w)).
Proof.
  intros He. unfold make_compressed.
  destruct (decide (ram_class w = RC_compressed)).
  - rewrite mark_used_lru_obj. exact He.
  - assert (H1 : enrolled (obj (if is_on_disk (ram_class w)
                                then restore_from_disk w else w)))
      by (destruct (is_on_disk (ram_class w));
          [apply enrolled_restore_from_disk |]; exact He).
    destruct (decide _); [| exact H1].
    unfold compress_resident. apply enrolled_set_ram_class.
Qed.

Lemma enrolled_make_disk w :
  enrolled (obj w) -> enrolled (obj (make_disk w)).
Proof.
  intros He. unfold make_disk.
  destruct (is_on_disk (ram_class w)); [rewrite mark_used_lru_obj; exact He |].
  destruct (is_in_ram (ram_class w)); [| exact He].
  destruct (_saved_block (obj w)) eqn:Hb; [exact He |].
  cbn. destruct (write_data _ _) as [[blk sf] |].
  - destruct (decide _); apply enrolled_set_ram_class.
  - rewrite mark_used_lru_obj. cbn.
    rewrite set_saved_block_fixed by exact Hb. exact He.
Qed.

Lemma enrolled_evict_lru w :
  enrolled (obj w) -> enrolled (obj (evict_lru w)).
Proof.
  intros He. unfold evict_lru.
  destruct (decide _); [| exact He].
  destruct (ram_class w); try exact He.
  - destruct (_ =? 0); [apply enrolled_make_disk | apply enrolled_make_compressed];
      exact He.
  - apply enrolled_make_disk. exact He.
Qed.

End EnrolledFacts.

(** C4 fails at copy construction.  The buffer of scenario 4, spilled to
    disk, satisfies the invariant; its copy-constructed twin has the
    class Disk, no bytes in memory and no SaveBlock, which breaks the
    invariant.  The twin cannot be brought back: [make_resident] trips
    over the assertion of [restore_from_disk] and leaves it on disk with
    no bytes.  [make_cow_copy], which makes the buffer resident before
    it copies, yields a twin with the 24 bytes that keeps the invariant. *)
Theorem copy_construct_from_disk_breaks_invariant :
  let twin := copy_construct 8192 spilled_buffer in
  let back := make_resident (SFO := SaveFile_ops) (ZL := stored_zlib) twin in
  let cow := make_cow_copy (SFO := SaveFile_ops) (ZL := stored_zlib) 8192 spilled_buffer in
  (residency_invariant (obj spilled_buffer) /\
   ram_class spilled_buffer = RC_disk /\
   _saved_block (obj spilled_buffer) = Some (mkBlock 0 24)) /\
  (ram_class twin = RC_disk /\
   _data (cdata twin) = [] /\
   _saved_block (obj twin) = None /\
   ~ residency_invariant (obj twin)) /\
  (output back = Ev_assert "_saved_block != NULL" :: output twin /\
   ram_class back = RC_disk /\
   _data (cdata back) = []) /\
  (ram_class cow = RC_resident /\
   _data (cdata cow) = three_rows /\
   residency_invariant (obj cow)).
Proof.
  cbv zeta.
  assert (Hinv : residency_invariant (obj spilled_buffer)).
  { apply (make_disk_invariant (SFO := SaveFile_ops) scenario_buffer).
    apply invariant_in_ram; vm_compute; reflexivity. }
  split; [| split; [| split]].
  - split; [exact Hinv |]. split; vm_compute; reflexivity.
  - split; [vm_compute; reflexivity |]. split; [vm_compute; reflexivity |].
    split; [vm_compute; reflexivity |].
    apply copy_construct_not_invariant_on_disk. vm_compute. reflexivity.
  - split; [vm_compute; reflexivity |]. split; vm_compute; reflexivity.
  - split; [vm_compute; reflexivity |]. split; [vm_compute; reflexivity |].
    apply make_cow_copy_invariant. exact Hinv.
Qed.

(** ** Serialization *)

(** C1 fails on a stream of the other byte order.  Scenario 4: one
    column of two 4-byte components, stride 8, three rows holding the
    bytes 1 to 24.  Through a native stream the bytes come back.  Through
    a stream of the other byte order the buffer read back holds
    1 2 3 4 and 17 18 19 20 in their places and zeros everywhere else:
    [reverse_data_endianness] advances the row index [pi] once per
    component where the column index was to advance, so it reverses the
    first component of rows 0 and 2 twice over and never visits row 1 or
    any second component, and what it does not visit stays zero in the
    fresh destination.  The conversion in the words of the
    specification reverses all six components, and the conversion of the
    code applied twice is not the identity.  More rounds of the row loop
    change nothing in this.  With several wide columns the same slip
    carries the index past the end of the arrays, however many rounds
    the row loop is given. *)
Theorem endian_round_trip_loses_bytes :
  let data_of (r : option (World SaveFile)) := (fun w => _data (cdata w)) <$> r in
  let lost := bytes_of [1; 2; 3; 4; 0; 0; 0; 0; 0; 0; 0; 0; 0; 0; 0; 0;
                        17; 18; 19; 20; 0; 0; 0; 0] in
  _data (cdata scenario_buffer) = three_rows /\
  data_of (round_trip (SFO := SaveFile_ops) (ZL := stored_zlib) true 8192 scenario_buffer)
    = Some three_rows /\
  data_of (round_trip (SFO := SaveFile_ops) (ZL := stored_zlib) false 8192 scenario_buffer)
    = Some lost /\
  lost <> three_rows /\
  reversed_copy two_floats three_rows
    = Some (bytes_of [4; 3; 2; 1; 0; 0; 0; 0; 0; 0; 0; 0; 0; 0; 0; 0;
                      20; 19; 18; 17; 0; 0; 0; 0]) /\
  spec_reverse_data_endianness two_floats three_rows
    = Some (bytes_of [4; 3; 2; 1; 8; 7; 6; 5; 12; 11; 10; 9; 16; 15; 14; 13;
                      20; 19; 18; 17; 24; 23; 22; 21]) /\
  (reversed_copy two_floats three_rows ≫= reversed_copy two_floats) = Some lost /\
  (spec_reverse_data_endianness two_floats three_rows
     ≫= spec_reverse_data_endianness two_floats) = Some three_rows /\
  (forall more : nat,
     reverse_rows (25 + more) two_floats three_rows 24 (new_Data 24) 0
     = reversed_copy two_floats three_rows) /\
  (forall fuel : nat,
     reverse_rows fuel three_columns three_rows 24 (new_Data 24) 0 = None).
Proof.
  cbv zeta.
  repeat (split; [vm_compute; first [reflexivity | discriminate] |]).
  intros [| [| fuel]]; vm_compute; reflexivity.
Qed.

(** *** The round trip through a native stream *)

Lemma Z_of_byte_of_Z (z : Z) : Z_of_byte (byte_of_Z z) = z mod 256.
Proof.
  unfold Z_of_byte, byte_of_Z.
  assert (Hr : 0 <= z mod 256 < 256) by (apply Z.mod_pos_bound; lia).
  destruct (Byte.of_N (Z.to_N (z mod 256))) as [b |] eqn:E.
  - apply Byte.to_of_N in E. rewrite E. lia.
  - apply Byte.of_N_None_iff in E. lia.
Qed.

Lemma UsageHint_of_to_Z (u : UsageHint) :
  UsageHint_of_Z (Z_of_byte (byte_of_Z (UsageHint_to_Z u))) = u.
Proof. destruct u; reflexivity. Qed.

Lemma uint32_decode (n : Z) :
  0 <= n < 2 ^ 32 ->
  n mod 256 + 256 * ((n / 256) mod 256) + 65536 * ((n / 65536) mod 256)
  + 16777216 * ((n / 16777216) mod 256) = n.
Proof.
  intros Hn.
  pose proof (Z.div_mod n 256 ltac:(lia)) as E0.
  pose proof (Z.div_mod (n / 256) 256 ltac:(lia)) as E1.
  pose proof (Z.div_mod (n / 256 / 256) 256 ltac:(lia)) as E2.
  rewrite (Z.div_div n 256 256) in E1, E2 by lia.
  rewrite (Z.div_div n (256 * 256) 256) in E2 by lia.
  change (256 * 256) with 65536 in *. change (65536 * 256) with 16777216 in *.
  assert (H3 : 0 <= n / 16777216 < 256).
  { split; [apply Z.div_pos; lia |]. apply Z.div_lt_upper_bound; lia. }
  rewrite (Z.mod_small (n / 16777216) 256) by exact H3.
  lia.
Qed.

Lemma read_bytes_middle (pre bs post : list byte) :
  read_bytes (pre ++ bs ++ post) (Z.of_nat (length pre)) (Z.of_nat (length bs)) = Some bs.
Proof.
  unfold read_bytes.
  replace ((0 <=? Z.of_nat (length pre)) && (0 <=? Z.of_nat (length bs))
           && (Z.of_nat (length pre) + Z.of_nat (length bs)
               <=? Z.of_nat (length (pre ++ bs ++ post)))) with true.
  - rewrite !Nat2Z.id, drop_app_length, take_app_length. reflexivity.
  - symmetry. rewrite !length_app.
    repeat (apply andb_true_intro; split); apply Z.leb_le; lia.
Qed.

Lemma read_bytes_at (m pre bs post : list byte) (p n : Z) :
  m = pre ++ bs ++ post ->
  p = Z.of_nat (length pre) ->
  n = Z.of_nat (length bs) ->
  read_bytes m p n = Some bs.
Proof. intros -> -> ->. apply read_bytes_middle. Qed.

Lemma stored_into_new_Data (bs : list byte) :
  stored_into (new_Data (Z.of_nat (length bs))) bs = bs.
Proof.
  unfold stored_into, new_Data. rewrite Nat2Z.id, repeat_length.
  rewrite drop_ge by (rewrite repeat_length; lia).
  rewrite app_nil_r. apply firstn_all.
Qed.

Section NativeRoundTrip.
Context {SF : Type} {SFO : VertexDataSaveFile SF} {ZL : Zlib}.
Implicit Types (w : World SF).

Lemma set_ram_class_obj rc w :
  obj (set_ram_class rc w)
  = set_lru_field (Some (_global_lru rc)) (set_class_field rc (obj w)).
Proof.
  unfold set_ram_class, mark_used_lru_in, enqueue_lru, dequeue_lru. cbn.
  destruct (_lru (obj w)); reflexivity.
Qed.

(** What the buffer writes to a native stream, after an empty prefix. *)
Lemma write_datagram_native w :
  write_datagram (bam_writer true) [] w =
    Some ([byte_of_Z 1; byte_of_Z (1 / 256)]
          ++ [byte_of_Z (UsageHint_to_Z (_usage_hint (cdata (make_resident w))))]
          ++ [byte_of_Z (data_size (make_resident w));
              byte_of_Z (data_size (make_resident w) / 256);
              byte_of_Z (data_size (make_resident w) / 65536);
              byte_of_Z (data_size (make_resident w) / 16777216)]
          ++ _data (cdata (make_resident w)),
          make_resident w).
Proof.
  unfold write_datagram, CData_write_datagram, write_pointer, add_uint16, add_uint8,
    add_uint32, append_data, data_size. cbn.
  reflexivity.
Qed.

(** Reading the record back from the start of that datagram. *)
Lemma CData_fillin_native (hint : UsageHint) (data : list byte) (f : GeomVertexArrayFormat) w :
  Z.of_nat (length data) < 2 ^ 32 ->
  let n := Z.of_nat (length data) in
  let dg := [byte_of_Z 1; byte_of_Z (1 / 256)]
            ++ [byte_of_Z (UsageHint_to_Z hint)]
            ++ [byte_of_Z n; byte_of_Z (n / 256); byte_of_Z (n / 65536);
                byte_of_Z (n / 16777216)]
            ++ data in
  exists scan w',
    fillin (mkScan dg 0) (bam_reader true f) w = Some (1, scan, w') /\
    _data (cdata w') = data /\
    _usage_hint (cdata w') = hint /\
    _data_full_size (cdata w') = n /\
    _lru_size (obj w') = n /\
    _array_format (obj w') = _array_format (obj w) /\
    _endian_reversed (obj w') = _endian_reversed (obj w) /\
    _saved_block (obj w') = _saved_block (obj w).
Proof.
  intros Hn n dg.
  assert (Hn0 : 0 <= n < 2 ^ 32) by (unfold n; lia).
  set (b_id := [byte_of_Z 1; byte_of_Z (1 / 256)]).
  set (b_hint := [byte_of_Z (UsageHint_to_Z hint)]).
  set (b_size := [byte_of_Z n; byte_of_Z (n / 256); byte_of_Z (n / 65536);
                  byte_of_Z (n / 16777216)]).
  assert (Hptr : read_pointer (mkScan dg 0) = Some (1, mkScan dg 2)).
  { unfold read_pointer, get_uint16. cbn [get_datagram get_current_index].
    rewrite (read_bytes_at dg [] b_id (b_hint ++ b_size ++ data) 0 2)
      by reflexivity.
    reflexivity. }
  assert (Hhint : get_uint8 (mkScan dg 2)
                  = Some (Z_of_byte (byte_of_Z (UsageHint_to_Z hint)), mkScan dg 3)).
  { unfold get_uint8. cbn [get_datagram get_current_index].
    rewrite (read_bytes_at dg b_id b_hint (b_size ++ data) 2 1) by reflexivity.
    reflexivity. }
  assert (Hsize : get_uint32 (mkScan dg 3) = Some (n, mkScan dg 7)).
  { unfold get_uint32. cbn [get_datagram get_current_index].
    rewrite (read_bytes_at dg (b_id ++ b_hint) b_size data 3 4) by reflexivity.
    unfold b_size. cbn [mbind option_bind].
    rewrite !Z_of_byte_of_Z.
    replace (n mod 256 + 256 * ((n / 256) mod 256) + 65536 * ((n / 65536) mod 256)
             + 16777216 * ((n / 16777216) mod 256)) with n
      by (symmetry; apply uint32_decode; exact Hn0).
    reflexivity. }
  assert (Hdata : read_bytes dg 7 n = Some data).
  { apply (read_bytes_at dg (b_id ++ b_hint ++ b_size) data [] 7 n);
      [unfold dg; rewrite app_nil_r; reflexivity | reflexivity | reflexivity]. }
  unfold fillin. rewrite Hptr. cbn [mbind option_bind fst snd].
  unfold CData_fillin. rewrite Hhint. cbn [mbind option_bind fst snd].
  cbn [get_file_minor_ver bam_reader]. change (8 <? 8) with false. cbv iota.
  rewrite Hsize. cbn [mbind option_bind fst snd get_datagram get_current_index].
  rewrite Hdata. cbn [mbind option_bind fst snd].
  change (reader_file_endian_native (bam_reader true f)) with true.
  cbn [negb mbind option_bind].
  replace (stored_into (new_Data n) data) with data
    by (symmetry; apply stored_into_new_Data).
  rewrite UsageHint_of_to_Z.
  eexists. eexists. split; [reflexivity |].
  cbn. repeat split; reflexivity.
Qed.

(** The half of the round trip that holds: through a stream of the
    native byte order, a buffer with a format and fewer than 2^32 bytes
    comes back resident with the bytes and usage hint it had when it was
    written (the writer makes it resident first) and with a registered
    format equivalent to its own. *)
Lemma round_trip_native this w f :
  _array_format (obj w) = Some f ->
  data_size (make_resident w) < 2 ^ 32 ->
  exists w',
    round_trip true this w = Some w' /\
    _data (cdata w') = _data (cdata (make_resident w)) /\
    _usage_hint (cdata w') = _usage_hint (cdata (make_resident w)) /\
    (exists f', _array_format (obj w') = Some f' /\
                format_equiv f' f /\ is_registered f' = true) /\
    ram_class w' = RC_resident.
Proof.
  intros Hf Hsize. unfold round_trip. rewrite Hf, write_datagram_native.
  cbn [mbind option_bind fst snd]. unfold read_datagram.
  destruct (CData_fillin_native (_usage_hint (cdata (make_resident w)))
              (_data (cdata (make_resident w))) f
              (with_obj (fun _ => default_construct this) (make_resident w)) Hsize)
    as (scan & w' & Hfill & Hdata & Hhint & _ & _ & Hfmt & Hrev & _).
  unfold data_size. rewrite Hfill. cbn [mbind option_bind fst snd].
  unfold finalize, complete_pointers. cbn [obj with_obj set_array_format _array_format].
  change (pointer_table (bam_reader true f) 1) with (Some (as_read f)).
  cbn [mbind option_bind].
  change (_endian_reversed
            (set_array_format (Some (register_format (as_read f)))
               (set_array_format (Some (as_read f)) (obj w'))))
    with (_endian_reversed (obj w')).
  cbn in Hrev. rewrite Hrev. cbn [mbind option_bind].
  eexists. split; [reflexivity |].
  unfold ram_class, cdata. rewrite set_ram_class_obj. cbn.
  unfold cdata in Hdata, Hhint. rewrite Hdata, Hhint.
  repeat split. eexists. repeat split; reflexivity.
Qed.

End NativeRoundTrip.

(** ** What the residency transitions leave alone *)

(** The part of a buffer that no residency transition writes. *)
Lemma set_ram_class_frame {SF : Type} rc (w : World SF) :
  _this (obj (set_ram_class rc w)) = _this (obj w) /\
  _array_format (obj (set_ram_class rc w)) = _array_format (obj w) /\
  _endian_reversed (obj (set_ram_class rc w)) = _endian_reversed (obj w) /\
  _contexts (obj (set_ram_class rc w)) = _contexts (obj w) /\
  _lru_size (obj (set_ram_class rc w)) = _lru_size (obj w) /\
  config (set_ram_class rc w) = config w /\
  next_modified (set_ram_class rc w) = next_modified w.
Proof.
  rewrite set_ram_class_obj.
  unfold set_ram_class, mark_used_lru_in, enqueue_lru, dequeue_lru.
  destruct (_lru (obj (with_obj (set_class_field rc) w))); cbn; repeat split; reflexivity.
Qed.

Lemma mark_used_lru_frame {SF : Type} (w : World SF) :
  config (mark_used_lru w) = config w /\ next_modified (mark_used_lru w) = next_modified w.
Proof.
  unfold mark_used_lru, enqueue_lru, dequeue_lru.
  destruct (_lru (obj w)) as [l |] eqn:E; rewrite ?E; split; reflexivity.
Qed.

Section HandleFacts.
Context {SF : Type} {SFO : VertexDataSaveFile SF} {ZL : Zlib}.
Implicit Types (w : World SF).

Lemma to_size_t_small (z : Z) : 0 <= z < 2 ^ 64 -> to_size_t z = z.
Proof. intros H. unfold to_size_t. apply Z.mod_small. exact H. Qed.

Lemma to_int_small (z : Z) : - 2 ^ 31 <= z < 2 ^ 31 -> to_int z = z.
Proof. intros H. unfold to_int. rewrite Z.mod_small; lia. Qed.

Lemma to_int_to_size_t (z : Z) : - 2 ^ 31 <= z < 2 ^ 31 -> to_int (to_size_t z) = z.
Proof.
  intros H. unfold to_int, to_size_t.
  replace ((z mod 2 ^ 64 + 2 ^ 31) mod 2 ^ 32) with ((z + 2 ^ 31) mod 2 ^ 32).
  - rewrite Z.mod_small; lia.
  - rewrite (Z.add_mod (z mod 2 ^ 64)) by lia.
    rewrite (Z.mod_mod_divide z (2 ^ 64) (2 ^ 32)) by (exists (2 ^ 32); reflexivity).
    rewrite <- Z.add_mod by lia. reflexivity.
Qed.

Lemma firstn_repeat_le {A : Type} (x : A) (k m : nat) :
  (k <= m)%nat -> firstn k (repeat x m) = repeat x k.
Proof.
  revert m. induction k as [| k IH]; intros m H; [reflexivity |].
  destruct m as [| m]; [lia |]. simpl. f_equal. apply IH. lia.
Qed.

(** What the common tail of the mutators leaves behind. *)
Lemma handle_modified_fields w :
  _data (cdata (handle_modified w)) = _data (cdata w) /\
  ram_class (handle_modified w) = RC_resident /\
  _data_full_size (cdata (handle_modified w)) = data_size w /\
  _lru_size (obj (handle_modified w)) = data_size w /\
  _lru (obj (handle_modified w)) = Some Ram_lru /\
  _modified (cdata (handle_modified w)) = next_modified w /\
  next_modified (handle_modified w) = next_modified w + 1 /\
  _saved_block (obj (handle_modified w)) = _saved_block (obj w) /\
  _contexts (obj (handle_modified w)) = _contexts (obj w) /\
  _array_format (obj (handle_modified w)) = _array_format (obj w).
Proof.
  unfold handle_modified, ram_class, cdata, set_lru_size, data_size, cdata. cbn.
  rewrite !set_ram_class_obj. cbn.
  match goal with
  | |- context [next_modified (set_ram_class ?rc ?x)] =>
      destruct (set_ram_class_frame rc x) as (_ & _ & _ & _ & _ & _ & Hn)
  end.
  rewrite Hn. cbn. repeat split; reflexivity.
Qed.

End HandleFacts.

Section FrameFacts.
Context {SF : Type} {SFO : VertexDataSaveFile SF} {ZL : Zlib}.
Implicit Types (w : World SF).

Lemma description_set_ram_class rc w :
  description (obj (set_ram_class rc w)) = description (obj w).
Proof. rewrite set_ram_class_obj. reflexivity. Qed.

Lemma description_mark_used_lru w :
  description (obj (mark_used_lru w)) = description (obj w).
Proof. rewrite mark_used_lru_obj. reflexivity. Qed.

Lemma description_restore_from_disk w :
  description (obj (restore_from_disk w)) = description (obj w).
Proof.
  unfold restore_from_disk.
  destruct (is_on_disk (ram_class w)); [| reflexivity].
  destruct (_saved_block (obj w)) as [blk |]; [| reflexivity].
  destruct (fst (read_data (_save_file w) (get_size blk) blk)); cbn;
    destruct (decide _); rewrite description_set_ram_class; reflexivity.
Qed.

Lemma description_expand_compressed w :
  description (obj (expand_compressed w)) = description (obj w).
Proof.
  unfold expand_compressed.
  repeat match goal with
         | |- context [if ?c then _ else _] => destruct c
         end;
    rewrite ?description_set_ram_class; reflexivity.
Qed.

Lemma description_compress_resident w :
  description (obj (compress_resident w)) = description (obj w).
Proof.
  unfold compress_resident. rewrite description_set_ram_class.
  repeat match goal with
         | |- context [if ?c then _ else _] => destruct c
         end; reflexivity.
Qed.

Lemma description_make_resident w :
  description (obj (make_resident w)) = description (obj w).
Proof.
  unfold make_resident.
  destruct (decide _); [apply description_mark_used_lru |].
  destruct (is_on_disk (ram_class w)); destruct (decide _);
    rewrite ?description_expand_compressed, ?description_restore_from_disk;
    reflexivity.
Qed.

Lemma description_make_compressed w :
  description (obj (make_compressed w)) = description (obj w).
Proof.
  unfold make_compressed.
  destruct (decide _); [apply description_mark_used_lru |].
  destruct (is_on_disk (ram_class w)); destruct (decide _);
    rewrite ?description_compress_resident, ?description_restore_from_disk;
    reflexivity.
Qed.

Lemma description_make_disk w :
  description (obj (make_disk w)) = description (obj w).
Proof.
  unfold make_disk.
  destruct (is_on_disk (ram_class w)); [apply description_mark_used_lru |].
  destruct (is_in_ram (ram_class w)); [| reflexivity].
  destruct (_saved_block (obj w)); [reflexivity |].
  cbn. destruct (write_data _ _) as [[blk sf] |].
  - destruct (decide _); rewrite description_set_ram_class; reflexivity.
  - rewrite description_mark_used_lru. reflexivity.
Qed.

(** X1.  No residency transition touches what the buffer is:
    [make_resident], [make_compressed], [make_disk], [restore_from_disk]
    and [evict_lru] leave the identity of the buffer, its format, usage
    hint, [_data_full_size] (the uncompressed length, also while the
    bytes are compressed or on disk), modification stamp, pending
    endian flag and context table as they are. *)
Theorem residency_transitions_keep_description w :
  description (obj (make_resident w)) = description (obj w) /\
  description (obj (make_compressed w)) = description (obj w) /\
  description (obj (make_disk w)) = description (obj w) /\
  description (obj (restore_from_disk w)) = description (obj w) /\
  description (obj (evict_lru w)) = description (obj w).
Proof.
  split; [apply description_make_resident |].
  split; [apply description_make_compressed |].
  split; [apply description_make_disk |].
  split; [apply description_restore_from_disk |].
  unfold evict_lru. destruct (decide _); [| reflexivity].
  destruct (ram_class w); try reflexivity.
  - destruct (_ =? 0); [apply description_make_disk | apply description_make_compressed].
  - apply description_make_disk.
Qed.

End FrameFacts.

(** ** The row setters and the partial copy *)

Section RowFacts.
Context {SF : Type} {SFO : VertexDataSaveFile SF} {ZL : Zlib}.
Implicit Types (w : World SF).

Lemma check_resident_format w :
  _array_format (obj (check_resident w)) = _array_format (obj w).
Proof.
  unfold check_resident.
  pose proof (description_make_resident w) as E. unfold description in E.
  congruence.
Qed.

(** The row count and [delta] of whole rows in the range of [int]. *)
Lemma row_delta_whole_rows (n stride rows : Z) w :
  0 < stride < 2 ^ 31 -> 0 <= n < 2 ^ 31 -> 0 <= rows < 2 ^ 31 ->
  data_size w = rows * stride ->
  row_delta n stride w = n - rows.
Proof.
  intros Hs Hn Hr Hsize. unfold row_delta.
  rewrite (to_size_t_small stride) by lia.
  rewrite Hsize, Z.div_mul by lia.
  apply to_int_to_size_t. lia.
Qed.

(** X2.  [set_num_rows(n)] through a writable handle, on a buffer that
    holds whole rows of a positive stride, with all sizes in the range
    of [int]: the buffer is made resident first; the bytes afterwards
    are the first [n * stride] bytes of the old bytes followed by zeros,
    so a shrink keeps a prefix and a growth appends zero bytes; the
    flag returned is false exactly when the buffer already had [n] rows,
    and then nothing but the residency call has happened; otherwise the
    buffer is Resident with [_data_full_size] and page size
    [n * stride]. *)
Theorem set_num_rows_resizes (n rows : Z) (fmt : GeomVertexArrayFormat) w :
  _array_format (obj w) = Some fmt ->
  0 < get_stride fmt < 2 ^ 31 ->
  0 <= n -> n * get_stride fmt < 2 ^ 31 ->
  0 <= rows -> rows * get_stride fmt < 2 ^ 31 ->
  data_size (check_resident w) = rows * get_stride fmt ->
  exists changed w',
    set_num_rows true n w = Some (changed, w') /\
    _data (cdata w') =
      firstn (Z.to_nat (n * get_stride fmt))
        (_data (cdata (check_resident w)) ++ repeat x00 (Z.to_nat (n * get_stride fmt))) /\
    data_size w' = n * get_stride fmt /\
    (changed = false <-> n = rows) /\
    (changed = false -> w' = check_resident w) /\
    (changed = true ->
       ram_class w' = RC_resident /\
       _data_full_size (cdata w') = n * get_stride fmt /\
       _lru_size (obj w') = n * get_stride fmt).
Proof.
  intros Hfmt Hs Hn Hns Hr Hrs Hsize.
  unfold set_num_rows. rewrite check_resident_format, Hfmt.
  cbn [mbind option_bind].
  set (stride := get_stride fmt) in *.
  set (w0 := check_resident w) in *.
  assert (Hn' : n < 2 ^ 31) by nia.
  assert (Hr' : rows < 2 ^ 31) by nia.
  assert (Hlen : length (_data (cdata w0)) = Z.to_nat (rows * stride))
    by (unfold data_size in Hsize; lia).
  rewrite (to_size_t_small stride) by lia.
  destruct (stride =? 0) eqn:Hz; [apply Z.eqb_eq in Hz; lia |].
  rewrite (row_delta_whole_rows n stride rows w0) by lia.
  destruct (n - rows =? 0) eqn:Hd.
  - apply Z.eqb_eq in Hd. assert (n = rows) by lia. subst n.
    exists false, w0. split; [reflexivity |].
    split.
    { rewrite firstn_app, Hlen, Nat.sub_diag. simpl. rewrite app_nil_r.
      rewrite <- Hlen. symmetry. apply firstn_all. }
    split; [exact Hsize |]. split; [tauto |]. split; [reflexivity | discriminate].
  - apply Z.eqb_neq in Hd.
    destruct (0 <? n - rows) eqn:Hg.
    + apply Z.ltb_lt in Hg. cbn [mbind option_bind].
      assert (Hmul : (n - rows) * stride = n * stride - rows * stride) by lia.
      rewrite (to_int_small ((n - rows) * stride)) by nia.
      rewrite (to_size_t_small ((n - rows) * stride)) by nia.
      eexists true, _. split; [reflexivity |].
      destruct (handle_modified_fields
                  (with_cdata (cd_set_data
                     (_data (cdata w0) ++ repeat x00 (Z.to_nat ((n - rows) * stride)))) w0))
        as (Hdata & Hcls & Hfull & Hlru & _).
      assert (Hnew : _data (cdata w0) ++ repeat x00 (Z.to_nat ((n - rows) * stride))
                     = firstn (Z.to_nat (n * stride))
                         (_data (cdata w0) ++ repeat x00 (Z.to_nat (n * stride)))).
      { assert (Hle : rows * stride <= n * stride) by nia.
        rewrite firstn_app, Hlen.
        rewrite firstn_all2 by (rewrite Hlen; lia).
        rewrite firstn_repeat_le by lia.
        f_equal. f_equal. rewrite Hmul. lia. }
      assert (Hsz : data_size (with_cdata (cd_set_data
                      (_data (cdata w0) ++ repeat x00 (Z.to_nat ((n - rows) * stride)))) w0)
                    = n * stride).
      { assert (Hle : rows * stride <= n * stride) by nia.
        unfold data_size. cbn. rewrite length_app, Hlen, repeat_length, Hmul. lia. }
      split; [rewrite Hdata; cbn; exact Hnew |].
      split; [unfold data_size; rewrite Hdata; exact Hsz |].
      split; [split; [discriminate | lia] |].
      split; [discriminate |].
      intros _. rewrite Hcls, Hfull, Hlru, Hsz. repeat split; reflexivity.
    + apply Z.ltb_ge in Hg.
      rewrite (to_int_small (n * stride)) by nia.
      replace ((0 <=? n * stride) && (n * stride <=? data_size w0)) with true
        by (symmetry; apply andb_true_intro; split; apply Z.leb_le; nia).
      cbn [mbind option_bind].
      eexists true, _. split; [reflexivity |].
      destruct (handle_modified_fields
                  (with_cdata (cd_set_data
                     (firstn (Z.to_nat (n * stride)) (_data (cdata w0)))) w0))
        as (Hdata & Hcls & Hfull & Hlru & _).
      assert (Hsz : data_size (with_cdata (cd_set_data
                      (firstn (Z.to_nat (n * stride)) (_data (cdata w0)))) w0)
                    = n * stride).
      { assert (Hle : n * stride <= rows * stride) by nia.
        unfold data_size. cbn. rewrite length_firstn, Hlen. lia. }
      assert (Hle : n * stride <= rows * stride) by nia.
      split; [rewrite Hdata; cbn; rewrite take_app_le by (rewrite Hlen; lia); reflexivity |].
      split; [unfold data_size; rewrite Hdata; exact Hsz |].
      split; [split; [discriminate | lia] |].
      split; [discriminate |].
      intros _. rewrite Hcls, Hfull, Hlru, Hsz. repeat split; reflexivity.
Qed.

End RowFacts.

Lemma set_num_rows_resizes_witness :
  exists changed w',
    set_num_rows (SFO := SaveFile_ops) (ZL := stored_zlib) true 4 scenario_buffer
    = Some (changed, w') /\ data_size w' = 32.
Proof.
  destruct (set_num_rows_resizes (SFO := SaveFile_ops) (ZL := stored_zlib)
              4 3 two_floats scenario_buffer)
    as (changed & w' & H & _ & Hsize & _).
  - vm_compute. reflexivity.
  - vm_compute. split; reflexivity.
  - lia.
  - vm_compute. reflexivity.
  - lia.
  - vm_compute. reflexivity.
  - vm_compute. reflexivity.
  - exists changed, w'. split; [exact H | exact Hsize].
Defined.

Section UncleanFacts.
Context {SF : Type} {SFO : VertexDataSaveFile SF} {ZL : Zlib}.
Implicit Types (w : World SF).

(** X3.  [unclean_set_num_rows(n)] under the conditions of
    [set_num_rows]: it returns the same flag and leaves the same number
    of bytes, but when it changes the size it keeps none of the old
    bytes: the buffer then holds [n * stride] zero bytes. *)
Theorem unclean_set_num_rows_discards (n rows : Z) (fmt : GeomVertexArrayFormat) w :
  _array_format (obj w) = Some fmt ->
  0 < get_stride fmt < 2 ^ 31 ->
  0 <= n -> n * get_stride fmt < 2 ^ 31 ->
  0 <= rows -> rows * get_stride fmt < 2 ^ 31 ->
  data_size (check_resident w) = rows * get_stride fmt ->
  exists changed w',
    unclean_set_num_rows true n w = Some (changed, w') /\
    (changed = false <-> n = rows) /\
    (changed = false -> w' = check_resident w) /\
    data_size w' = n * get_stride fmt /\
    (changed = true ->
       _data (cdata w') = repeat x00 (Z.to_nat (n * get_stride fmt)) /\
       ram_class w' = RC_resident /\
       _data_full_size (cdata w') = n * get_stride fmt /\
       _lru_size (obj w') = n * get_stride fmt).
Proof.
  intros Hfmt Hs Hn Hns Hr Hrs Hsize.
  unfold unclean_set_num_rows. rewrite check_resident_format, Hfmt.
  cbn [mbind option_bind].
  set (stride := get_stride fmt) in *.
  set (w0 := check_resident w) in *.
  assert (Hn' : n < 2 ^ 31) by nia.
  assert (Hr' : rows < 2 ^ 31) by nia.
  rewrite (to_size_t_small stride) by lia.
  destruct (stride =? 0) eqn:Hz; [apply Z.eqb_eq in Hz; lia |].
  rewrite (row_delta_whole_rows n stride rows w0) by lia.
  destruct (n - rows =? 0) eqn:Hd.
  - apply Z.eqb_eq in Hd. assert (n = rows) by lia. subst n.
    exists false, w0. split; [reflexivity |]. split; [tauto |].
    split; [reflexivity |]. split; [exact Hsize | discriminate].
  - apply Z.eqb_neq in Hd.
    rewrite (to_int_small (n * stride)) by nia.
    rewrite (to_size_t_small (n * stride)) by nia.
    eexists true, _. split; [reflexivity |].
    destruct (handle_modified_fields
                (with_cdata (cd_set_data (new_Data (n * stride))) w0))
      as (Hdata & Hcls & Hfull & Hlru & _).
    assert (Hsz : data_size (with_cdata (cd_set_data (new_Data (n * stride))) w0)
                  = n * stride).
    { unfold data_size, new_Data. cbn. rewrite repeat_length. nia. }
    split; [split; [discriminate | lia] |].
    split; [discriminate |].
    split; [unfold data_size; rewrite Hdata; exact Hsz |].
    intros _. rewrite Hdata, Hcls, Hfull, Hlru, Hsz. repeat split; reflexivity.
Qed.

(** The pieces of a vector around a window of [b] bytes at [a]. *)
Lemma window_split {A : Type} (l : list A) (a b : nat) :
  (a + b <= length l)%nat ->
  l = firstn a l ++ firstn b (skipn a l) ++ skipn (a + b) l.
Proof.
  intros H. rewrite <- (take_drop a l) at 1. f_equal.
  rewrite <- (take_drop b (drop a l)) at 1. f_equal.
  rewrite drop_drop. reflexivity.
Qed.

(** The world [copy_subdata_from] leaves, with the positions clamped
    as the code clamps them. *)
Lemma copy_subdata_from_shape (to_start to_size from_start from_size : Z)
    (other : list byte) w :
  let old := _data (cdata (check_resident w)) in
  let ts := Z.min (to_size_t to_start) (Z.of_nat (length old)) in
  let tz := Z.min (to_size_t to_size) (Z.of_nat (length old) - ts) in
  let fs := Z.min (to_size_t from_start) (Z.of_nat (length other)) in
  let fz := Z.min (to_size_t from_size) (Z.of_nat (length other) - fs) in
  copy_subdata_from true to_start to_size other from_start from_size w
  = Some (handle_modified
            (with_cdata
               (cd_set_data
                  (firstn (Z.to_nat ts) old
                   ++ firstn (Z.to_nat fz) (skipn (Z.to_nat fs) other)
                   ++ skipn (Z.to_nat (ts + tz)) old))
               (check_resident w))) /\
  0 <= tz <= Z.of_nat (length old) - ts /\ 0 <= ts /\
  0 <= fz <= Z.of_nat (length other) - fs /\ 0 <= fs.
Proof.
  intros old ts tz fs fz.
  assert (Hts : 0 <= ts <= Z.of_nat (length old)).
  { unfold ts, to_size_t. pose proof (Z.mod_pos_bound to_start (2 ^ 64)). lia. }
  assert (Htz : 0 <= tz <= Z.of_nat (length old) - ts).
  { unfold tz, to_size_t. pose proof (Z.mod_pos_bound to_size (2 ^ 64)). lia. }
  assert (Hfs : 0 <= fs <= Z.of_nat (length other)).
  { unfold fs, to_size_t. pose proof (Z.mod_pos_bound from_start (2 ^ 64)). lia. }
  assert (Hfz : 0 <= fz <= Z.of_nat (length other) - fs).
  { unfold fz, to_size_t. pose proof (Z.mod_pos_bound from_size (2 ^ 64)). lia. }
  unfold copy_subdata_from. fold old. fold ts. fold tz. fold fs. fold fz.
  set (src := firstn (Z.to_nat fz) (skipn (Z.to_nat fs) other)).
  assert (Hread : read_bytes other fs fz = Some src).
  { unfold read_bytes.
    replace ((0 <=? fs) && (0 <=? fz) && (fs + fz <=? Z.of_nat (length other)))
      with true
      by (symmetry; repeat (apply andb_true_intro; split); apply Z.leb_le; lia).
    reflexivity. }
  assert (Hsrc : length src = Z.to_nat fz).
  { unfold src. rewrite length_firstn, length_skipn. lia. }
  rewrite Hread. cbn [mbind option_bind].
  pose (P := firstn (Z.to_nat ts) old).
  pose (M := firstn (Z.to_nat tz) (skipn (Z.to_nat ts) old)).
  pose (S := skipn (Z.to_nat (ts + tz)) old).
  assert (Hold : old = P ++ M ++ S).
  { unfold P, M, S. rewrite Z2Nat.inj_add by lia. apply window_split. lia. }
  assert (HP : length P = Z.to_nat ts) by (unfold P; rewrite length_firstn; lia).
  assert (HM : length M = Z.to_nat tz)
    by (unfold M; rewrite length_firstn, length_skipn; lia).
  pose (mid := if fz <? tz then firstn (Z.to_nat fz) M
              else if tz <? fz then M ++ repeat x00 (Z.to_nat (fz - tz))
              else M).
  assert (Hmid : length mid = Z.to_nat fz).
  { unfold mid. destruct (fz <? tz) eqn:E1; [| destruct (tz <? fz) eqn:E2].
    - apply Z.ltb_lt in E1. rewrite length_firstn. lia.
    - apply Z.ltb_lt in E2. rewrite length_app, repeat_length. lia.
    - apply Z.ltb_ge in E1, E2. lia. }
  assert (Hv : (if fz <? tz
                then firstn (Z.to_nat (ts + fz)) old ++ skipn (Z.to_nat (ts + tz)) old
                else if tz <? fz
                     then firstn (Z.to_nat (ts + tz)) old
                          ++ repeat x00 (Z.to_nat (fz - tz))
                          ++ skipn (Z.to_nat (ts + tz)) old
                     else old) = P ++ mid ++ S).
  { unfold mid. fold S.
    destruct (fz <? tz) eqn:E1; [| destruct (tz <? fz) eqn:E2].
    - apply Z.ltb_lt in E1. rewrite Hold at 1.
      rewrite Z2Nat.inj_add by lia. rewrite <- HP.
      rewrite take_app_add'  by reflexivity.
      rewrite take_app_le by lia. rewrite <- app_assoc. reflexivity.
    - rewrite Hold at 1.
      rewrite Z2Nat.inj_add by lia. rewrite <- HP.
      rewrite take_app_add' by reflexivity.
      rewrite <- HM, take_app_length. rewrite <- !app_assoc. reflexivity.
    - exact Hold. }
  rewrite Hv.
  assert (Hwrite : write_bytes (P ++ mid ++ S) ts src = Some (P ++ src ++ S)).
  { unfold write_bytes.
    replace ((0 <=? ts) && (ts + Z.of_nat (length src)
                            <=? Z.of_nat (length (P ++ mid ++ S)))) with true
      by (symmetry; apply andb_true_intro; split; apply Z.leb_le;
          rewrite ?length_app; lia).
    rewrite <- HP, take_app_length.
    rewrite Hsrc, <- Hmid.
    rewrite drop_app_add' by reflexivity.
    rewrite drop_app_length. reflexivity. }
  rewrite Hwrite. cbn [mbind option_bind].
  split; [reflexivity | lia].
Qed.

(** X4.  [copy_subdata_from] through a writable handle, from a handle on
    another buffer (not on this buffer itself), always succeeds and
    splices: with the four positions clamped to the two vectors as the
    code clamps them, the bytes afterwards are the old bytes before
    [to_start], then the [from_size] bytes of the other buffer from
    [from_start], then the old bytes from [to_start + to_size] on; the
    vector grows or shrinks by the difference of the two sizes, and the
    buffer is left Resident with [_data_full_size] and page size equal
    to the new number of bytes. *)
Theorem copy_subdata_from_splices (to_start to_size from_start from_size : Z)
    (other : list byte) w :
  let old := _data (cdata (check_resident w)) in
  let ts := Z.min (to_size_t to_start) (Z.of_nat (length old)) in
  let tz := Z.min (to_size_t to_size) (Z.of_nat (length old) - ts) in
  let fs := Z.min (to_size_t from_start) (Z.of_nat (length other)) in
  let fz := Z.min (to_size_t from_size) (Z.of_nat (length other) - fs) in
  exists w',
    copy_subdata_from true to_start to_size other from_start from_size w = Some w' /\
    _data (cdata w') =
      firstn (Z.to_nat ts) old
      ++ firstn (Z.to_nat fz) (skipn (Z.to_nat fs) other)
      ++ skipn (Z.to_nat (ts + tz)) old /\
    data_size w' = Z.of_nat (length old) - tz + fz /\
    ram_class w' = RC_resident /\
    _data_full_size (cdata w') = data_size w' /\
    _lru_size (obj w') = data_size w'.
Proof.
  intros old ts tz fs fz.
  destruct (copy_subdata_from_shape to_start to_size from_start from_size other w)
    as (E & Htz & Hts & Hfz & Hfs).
  fold old in E, Htz, Hts, Hfz, Hfs. fold ts in E, Htz, Hts. fold tz in E, Htz.
  fold fs in E, Hfz, Hfs. fold fz in E, Hfz.
  eexists. split; [exact E |].
  match type of E with
  | _ = Some (handle_modified ?x) =>
      destruct (handle_modified_fields x) as (Hdata & Hcls & Hfull & Hlru & _);
      assert (Hsz : data_size x = Z.of_nat (length old) - tz + fz)
  end.
  { unfold data_size. cbn.
    rewrite !length_app, length_firstn, length_firstn, !length_skipn. fold old. lia. }
  split; [rewrite Hdata; reflexivity |].
  split; [unfold data_size; rewrite Hdata; exact Hsz |].
  split; [exact Hcls |].
  unfold data_size at 1 2. rewrite Hdata, Hfull, Hlru. split; reflexivity.
Qed.

(** X5.  Copying the whole of another buffer over the whole of this one
    with [copy_subdata_from] is [copy_data_from]: the two calls leave
    the same world, whenever both byte counts fit [size_t]. *)
Theorem copy_subdata_from_whole (other : list byte) w :
  Z.of_nat (length (_data (cdata (check_resident w)))) < 2 ^ 64 ->
  Z.of_nat (length other) < 2 ^ 64 ->
  copy_subdata_from true 0 (Z.of_nat (length (_data (cdata (check_resident w)))))
    other 0 (Z.of_nat (length other)) w
  = Some (copy_data_from other w).
Proof.
  intros Hold Hother.
  destruct (copy_subdata_from_shape
              0 (Z.of_nat (length (_data (cdata (check_resident w)))))
              0 (Z.of_nat (length other)) other w) as (E & _).
  rewrite E. f_equal.
  rewrite !(to_size_t_small 0) by lia.
  rewrite to_size_t_small by lia. rewrite to_size_t_small by lia.
  rewrite !Z.min_l by lia.
  rewrite Z.add_0_l. change (Z.to_nat 0) with 0%nat.
  rewrite !Nat2Z.id. cbn [firstn skipn app].
  rewrite firstn_all, skipn_all, app_nil_r.
  reflexivity.
Qed.

End UncleanFacts.

Lemma unclean_set_num_rows_discards_witness :
  exists w',
    unclean_set_num_rows (SFO := SaveFile_ops) (ZL := stored_zlib) true 2 scenario_buffer
    = Some (true, w') /\ _data (cdata w') = repeat x00 16.
Proof.
  destruct (unclean_set_num_rows_discards (SFO := SaveFile_ops) (ZL := stored_zlib)
              2 3 two_floats scenario_buffer)
    as (changed & w' & H & Hc & _ & _ & Hd).
  - vm_compute. reflexivity.
  - vm_compute. split; reflexivity.
  - lia.
  - vm_compute. reflexivity.
  - lia.
  - vm_compute. reflexivity.
  - vm_compute. reflexivity.
  - destruct changed.
    + exists w'. split; [exact H | exact (proj1 (Hd eq_refl))].
    + exfalso. destruct Hc as [Hc _]. specialize (Hc eq_refl). lia.
Defined.

Lemma copy_subdata_from_whole_witness :
  copy_subdata_from (SFO := SaveFile_ops) (ZL := stored_zlib) true 0 24 four_rows 0 32
    scenario_buffer
  = Some (copy_data_from (SFO := SaveFile_ops) (ZL := stored_zlib) four_rows scenario_buffer).
Proof.
  refine (copy_subdata_from_whole (SFO := SaveFile_ops) (ZL := stored_zlib)
            four_rows scenario_buffer _ _).
  - vm_compute. reflexivity.
  - vm_compute. reflexivity.
Defined.

(** ** The context table over several calls *)

Section TableFacts.
Context {SF : Type} {DEV : Device} {PGO : PreparedGraphicsObjects SF}.
Implicit Types (w : World SF).

(** X6.  A context that [prepare_now] has returned is the context it
    returns from then on: when the call returns a context that is not
    null, a second call for the same device returns the same context
    and leaves the world as the first call left it; [is_prepared] is
    then true whatever the device's queue says; and the entries of all
    other devices are as they were. *)
Theorem prepare_now_twice (po gsg : Z) w :
  fst (prepare_now po gsg w) <> 0 ->
  prepare_now po gsg (snd (prepare_now po gsg w)) = prepare_now po gsg w /\
  _contexts (obj (snd (prepare_now po gsg w))) !! po = Some (fst (prepare_now po gsg w)) /\
  is_prepared po (snd (prepare_now po gsg w)) = true /\
  (forall d, d <> po ->
     _contexts (obj (snd (prepare_now po gsg w))) !! d = _contexts (obj w) !! d).
Proof.
  unfold prepare_now, is_prepared.
  destruct (_contexts (obj w) !! po) as [vbc |] eqn:E.
  - intros _. cbn. rewrite E. repeat split; reflexivity.
  - cbn [fst snd].
    destruct (decide (prepare_vertex_buffer_now po (_this (obj w)) gsg <> 0))
      as [Hnz | Hz]; [| intros H; contradiction].
    intros _. cbn. rewrite lookup_insert_eq.
    split; [reflexivity |]. split; [reflexivity |]. split; [reflexivity |].
    intros d Hd. apply lookup_insert_ne. congruence.
Qed.

(** X7.  [clear_prepared] for a device that is not in the table reports
    an assertion failure and changes nothing else; and it undoes
    [prepare_now]: for a device that was not in the table and made a
    context that is not null, [prepare_now] followed by [clear_prepared]
    gives back the world as it was. *)
Theorem clear_prepared_undoes_prepare_now (po gsg : Z) w :
  _contexts (obj w) !! po = None ->
  clear_prepared po w = emit (Ev_assert "false") w /\
  (prepare_vertex_buffer_now po (_this (obj w)) gsg <> 0 ->
   clear_prepared po (snd (prepare_now po gsg w)) = w).
Proof.
  intros Hnone. split.
  - unfold clear_prepared. rewrite Hnone. reflexivity.
  - intros Hnz. unfold prepare_now. rewrite Hnone. cbn [snd].
    destruct (decide _) as [_ | N]; [| contradiction].
    unfold clear_prepared. cbn. rewrite lookup_insert_eq.
    destruct w as [a r c d sf cfg nm out]. unfold with_obj. cbn in *.
    f_equal. destruct a as [this fmt cd er rc sb ctx lru sz]. cbn in *.
    unfold set_contexts. cbn.
    rewrite delete_insert_eq, delete_id by exact Hnone. reflexivity.
Qed.

(** Releasing the entries of a list one after the other, seen from the
    table, when the device answers each release with [clear_prepared]. *)
Lemma release_each_contexts (l : list (Z * Z)) w :
  (forall po vbc w0,
     _contexts (obj (release_vertex_buffer po vbc w0)) = delete po (_contexts (obj w0))) ->
  _contexts (obj (foldl (fun w0 ci => release_vertex_buffer ci.1 ci.2 w0) w l))
  = foldl (fun m ci => delete ci.1 m) (_contexts (obj w)) l.
Proof.
  intros Hdev. revert w. induction l as [| ci l IH]; intros w; [reflexivity |].
  cbn [foldl]. rewrite IH, Hdev. reflexivity.
Qed.

Lemma delete_each_lookup (l : list (Z * Z)) (m : gmap Z Z) (k : Z) :
  foldl (fun m0 ci => delete ci.1 m0) m l !! k
  = if decide (k ∈ l.*1) then None else m !! k.
Proof.
  revert m. induction l as [| ci l IH]; intros m.
  - cbn. destruct (decide (k ∈ [])) as [H | _]; [inversion H | reflexivity].
  - cbn [foldl]. rewrite IH. cbn [fmap list_fmap].
    destruct (decide (k ∈ l.*1)) as [Hin | Hnin].
    + destruct (decide (k ∈ ci.1 :: l.*1)) as [_ | N]; [reflexivity |].
      exfalso. apply N. right. exact Hin.
    + destruct (decide (k = ci.1)) as [-> | Hne].
      * rewrite lookup_delete_eq.
        destruct (decide (ci.1 ∈ ci.1 :: l.*1)) as [_ | N]; [reflexivity |].
        exfalso. apply N. left.
      * rewrite lookup_delete_ne by congruence.
        destruct (decide (k ∈ ci.1 :: l.*1)) as [H | _]; [| reflexivity].
        apply elem_of_cons in H. destruct H; contradiction.
Qed.

Lemma contexts_in_order_keys (m : gmap Z Z) (k : Z) :
  k ∈ (contexts_in_order m).*1 <-> is_Some (m !! k).
Proof.
  unfold contexts_in_order.
  rewrite (merge_sort_Permutation by_device (map_to_list m)).
  rewrite list_elem_of_fmap. split.
  - intros [[k' v] [-> Hin]]. apply elem_of_map_to_list in Hin. eauto.
  - intros [v Hv]. exists (k, v). split; [reflexivity |].
    apply elem_of_map_to_list. exact Hv.
Qed.

(** X8.  [release_all] with a device that answers every release with
    [clear_prepared]: it returns the number of contexts the table held,
    leaves the table empty, and its closing assertion holds, so nothing
    but the releases themselves has happened to the world. *)
Theorem release_all_empties w :
  (forall po vbc w0,
     _contexts (obj (release_vertex_buffer po vbc w0)) = delete po (_contexts (obj w0))) ->
  fst (release_all w) = to_int (Z.of_nat (size (_contexts (obj w)))) /\
  _contexts (obj (snd (release_all w))) = ∅ /\
  snd (release_all w)
  = foldl (fun w0 ci => release_vertex_buffer ci.1 ci.2 w0) w
      (contexts_in_order (_contexts (obj w))).
Proof.
  intros Hdev. unfold release_all.
  assert (Hempty : _contexts (obj (foldl (fun w0 ci => release_vertex_buffer ci.1 ci.2 w0) w
                                     (contexts_in_order (_contexts (obj w))))) = ∅).
  { rewrite (release_each_contexts _ w Hdev).
    apply map_eq. intros k. rewrite delete_each_lookup, lookup_empty.
    destruct (decide _) as [_ | Hnin]; [reflexivity |].
    destruct (_contexts (obj w) !! k) eqn:E; [| reflexivity].
    exfalso. apply Hnin. apply contexts_in_order_keys. eauto. }
  destruct (decide _) as [_ | N]; [| contradiction].
  cbn. repeat split. exact Hempty.
Qed.

(** X9.  [release_all] removes nothing by itself: with a device that
    does not answer, the table is left as it was, the count of the
    entries is returned all the same, and when the table was not empty
    the closing assertion is reported. *)
Theorem release_all_needs_the_device w :
  (forall po vbc w0, release_vertex_buffer po vbc w0 = w0) ->
  fst (release_all w) = to_int (Z.of_nat (size (_contexts (obj w)))) /\
  _contexts (obj (snd (release_all w))) = _contexts (obj w) /\
  (_contexts (obj w) <> ∅ ->
   snd (release_all w) = emit (Ev_assert "_contexts.empty()") w) /\
  (_contexts (obj w) = ∅ -> snd (release_all w) = w).
Proof.
  intros Hdev. unfold release_all.
  assert (E : forall l, foldl (fun w0 ci => release_vertex_buffer ci.1 ci.2 w0) w l = w).
  { induction l as [| ci l IH] using rev_ind; [reflexivity |].
    rewrite foldl_snoc, IH. apply Hdev. }
  rewrite E. destruct (decide _) as [He | Hne]; cbn; repeat split; try reflexivity;
    try contradiction; try congruence.
Qed.

End TableFacts.

Lemma clear_prepared_contexts {SF : Type} (po : Z) (w : World SF) :
  _contexts (obj (clear_prepared po w)) = delete po (_contexts (obj w)).
Proof.
  unfold clear_prepared. destruct (_contexts (obj w) !! po) eqn:E; cbn.
  - reflexivity.
  - symmetry. apply delete_id. exact E.
Qed.

Lemma prepare_now_twice_witness :
  prepare_now (DEV := working_device) 77 5
    (snd (prepare_now (DEV := working_device) 77 5 scenario_buffer))
  = prepare_now (DEV := working_device) 77 5 scenario_buffer.
Proof.
  refine (proj1 (prepare_now_twice (DEV := working_device) (PGO := silent_device _)
                   77 5 scenario_buffer _)).
  vm_compute. discriminate.
Defined.

Lemma clear_prepared_undoes_prepare_now_witness :
  clear_prepared 77 (snd (prepare_now (DEV := working_device) 77 5 scenario_buffer))
  = scenario_buffer.
Proof.
  refine (proj2 (clear_prepared_undoes_prepare_now (DEV := working_device)
                   77 5 scenario_buffer _) _).
  - vm_compute. reflexivity.
  - vm_compute. discriminate.
Defined.

Lemma release_all_empties_witness :
  fst (release_all (PGO := clearing_device _) prepared_twice) = 2 /\
  _contexts (obj (snd (release_all (PGO := clearing_device _) prepared_twice))) = ∅.
Proof.
  destruct (release_all_empties (PGO := clearing_device _) prepared_twice) as (Hn & He & _).
  - intros po vbc w0. apply clear_prepared_contexts.
  - split; [rewrite Hn; vm_compute; reflexivity | exact He].
Defined.

Lemma release_all_needs_the_device_witness :
  snd (release_all (PGO := silent_device _) prepared_twice)
  = emit (Ev_assert "_contexts.empty()") prepared_twice.
Proof.
  refine (proj1 (proj2 (proj2
    (release_all_needs_the_device (PGO := silent_device _) prepared_twice _))) _).
  - intros po vbc w0. reflexivity.
  - vm_compute. discriminate.
Defined.

(** ** Demotion followed by promotion *)

Section PromotionFacts.
Context {SF : Type} {SFO : VertexDataSaveFile SF} {ZL : Zlib}.
Implicit Types (w : World SF).

Lemma compress_resident_config w : config (compress_resident w) = config w.
Proof.
  unfold compress_resident.
  match goal with
  | |- config (set_ram_class ?rc ?x) = _ =>
      destruct (set_ram_class_frame rc x) as (_ & _ & _ & _ & _ & Hc & _); rewrite Hc
  end.
  repeat match goal with
         | |- context [if ?c then _ else _] => destruct c
         end; reflexivity.
Qed.

(** X10.  Spilling and restoring gives the buffer back.  For a Resident
    or Compressed buffer in the tier of its class, whose write the save
    file accepts with a block of the size of the bytes and whose read of
    that block stores the bytes written: [restore_from_disk] after
    [make_disk] leaves the buffer object exactly as it was before the
    two calls (class, bytes, sizes, no SaveBlock, tier) and the block
    freed in the save file; for a Resident buffer [make_resident] after
    [make_disk] does the same. *)
Theorem make_disk_then_restore w blk sf :
  is_in_ram (ram_class w) = true ->
  _saved_block (obj w) = None ->
  enrolled (obj w) ->
  write_data (_save_file w) (_data (cdata w)) = Some (blk, sf) ->
  get_size blk = Z.of_nat (length (_data (cdata w))) ->
  snd (read_data sf (get_size blk) blk) = _data (cdata w) ->
  obj (restore_from_disk (make_disk w)) = obj w /\
  _save_file (restore_from_disk (make_disk w)) = free_block sf blk /\
  (ram_class w = RC_resident -> obj (make_resident (make_disk w)) = obj w).
Proof.
  intros Hram Hblk Hen Hw Hsize Hread.
  pose proof (make_disk_accepted w blk sf Hram Hblk Hw) as Ed.
  assert (Hon : is_on_disk (ram_class (make_disk w)) = true).
  { rewrite Ed. unfold ram_class. rewrite set_ram_class_class.
    destruct (decide _); reflexivity. }
  assert (Hb : _saved_block (obj (make_disk w)) = Some blk).
  { rewrite Ed, set_ram_class_saved_block. reflexivity. }
  assert (Hsf : _save_file (make_disk w) = sf).
  { rewrite Ed, set_ram_class_save_file. reflexivity. }
  pose proof (restore_from_disk_with_block (make_disk w) blk Hon Hb) as Er.
  assert (Hcd : ram_class (make_disk w)
                = if decide (ram_class w = RC_resident) then RC_disk else RC_compressed_disk).
  { rewrite Ed at 1. unfold ram_class at 1. apply set_ram_class_class. }
  assert (Hback : (if decide (ram_class (make_disk w) = RC_compressed_disk)
                   then RC_compressed else RC_resident) = ram_class w).
  { destruct (decide (ram_class (make_disk w) = RC_compressed_disk)) as [D | D];
      rewrite Hcd in D; destruct (decide (ram_class w = RC_resident)) as [R | R];
      try discriminate D; try contradiction; try (symmetry; exact R).
    destruct (ram_class w); simpl in Hram; congruence. }
  rewrite Hback in Er.
  assert (Hobj_d : obj (make_disk w)
                   = set_lru_field (Some Disk_lru)
                       (set_class_field (ram_class (make_disk w))
                          (set_cycler (cd_set_data [] (_cycler (obj w)))
                             (set_saved_block (Some blk) (obj w))))).
  { rewrite Hcd. rewrite Ed at 1. rewrite set_ram_class_obj. cbn.
    destruct (decide _); reflexivity. }
  assert (Hobj : obj (restore_from_disk (make_disk w)) = obj w).
  { rewrite Er, set_ram_class_obj. cbn. rewrite Hsf, Hread, Hsize, stored_into_new_Data.
    destruct (fst (read_data sf (Z.of_nat (length (_data (cdata w)))) blk)); cbn;
      rewrite Hobj_d;
      unfold enrolled in Hen; unfold ram_class, cdata in *;
      (destruct (obj w) as [this fmt [uh d fs md] er rc sb ctx lru sz]);
      cbn in *; subst sb lru; reflexivity. }
  split; [exact Hobj |].
  split.
  { rewrite Er, set_ram_class_save_file. cbn. rewrite Hsf.
    destruct (fst (read_data _ _ _)); reflexivity. }
  intros Hres.
  assert (Hcls : ram_class (restore_from_disk (make_disk w)) = RC_resident)
    by (unfold ram_class; rewrite Hobj; exact Hres).
  unfold make_resident. rewrite Hon.
  destruct (decide (ram_class (make_disk w) = RC_resident)) as [D | _].
  { rewrite D in Hon. discriminate Hon. }
  destruct (decide (ram_class (restore_from_disk (make_disk w)) = RC_compressed)) as [D | _].
  { rewrite Hcls in D. discriminate D. }
  exact Hobj.
Qed.

(** X11.  Compressing and expanding gives the bytes back.  For a
    Resident buffer whose [_data_full_size] is the number of its bytes,
    and a codec whose [uncompress] of what [compress2] produced from
    these bytes stores the bytes again and reports their number (asked
    only above the minimum compress size, where the codec is called at
    all): [make_resident] after [make_compressed] leaves the buffer
    Resident with the bytes it had, and the page size is their number. *)
Theorem make_compressed_then_resident w :
  ram_class w = RC_resident ->
  _data_full_size (cdata w) = Z.of_nat (length (_data (cdata w))) ->
  (min_vertex_data_compress_size (config w) < _data_full_size (cdata w) ->
   let full := _data_full_size (cdata w) in
   let packed := snd (compress2 (compress_buffer_size full) (_data (cdata w))
                        (vertex_data_compression_level (config w))) in
   snd (fst (uncompress full packed)) = full /\
   snd (uncompress full packed) = _data (cdata w)) ->
  ram_class (make_compressed w) = RC_compressed /\
  _data (cdata (make_resident (make_compressed w))) = _data (cdata w) /\
  ram_class (make_resident (make_compressed w)) = RC_resident /\
  _data_full_size (cdata (make_resident (make_compressed w))) = _data_full_size (cdata w) /\
  _lru_size (obj (make_resident (make_compressed w))) = _data_full_size (cdata w).
Proof.
  intros Hres Hfull Hcodec.
  rewrite (make_compressed_resident w Hres).
  pose proof (compress_resident_class w) as Hcls.
  split; [exact Hcls |].
  rewrite (make_resident_compressed _ Hcls).
  pose proof (description_compress_resident w) as Hd. unfold description in Hd.
  assert (Hfs : _data_full_size (cdata (compress_resident w)) = _data_full_size (cdata w))
    by (unfold cdata; congruence).
  unfold expand_compressed. rewrite compress_resident_config, Hfs.
  destruct (min_vertex_data_compress_size (config w) <? _data_full_size (cdata w)) eqn:Hbig.
  - apply Z.ltb_lt in Hbig. specialize (Hcodec Hbig). cbv zeta in Hcodec.
    destruct Hcodec as [Hlen Hbytes].
    destruct (compress_resident_large w Hbig) as [Hcd _]. cbv zeta in Hcd.
    assert (Hsrc : firstn (Z.to_nat (_data_full_size (cdata w))) (_data (cdata w))
                   = _data (cdata w)).
    { rewrite Hfull, Nat2Z.id. apply firstn_all. }
    rewrite Hsrc in Hcd.
    assert (Hpacked : _data (cdata (compress_resident w))
                      = snd (compress2 (compress_buffer_size (_data_full_size (cdata w)))
                               (_data (cdata w))
                               (vertex_data_compression_level (config w)))).
    { unfold cdata at 1. rewrite Hcd. reflexivity. }
    rewrite Hpacked, Hlen, Hbytes.
    assert (Hst : stored_into (new_Data (_data_full_size (cdata w))) (_data (cdata w))
                  = _data (cdata w)).
    { rewrite Hfull at 1. apply stored_into_new_Data. }
    rewrite Hst.
    replace (_data_full_size (cdata w) =? Z.of_nat (length (_data (cdata w)))) with true
      by (symmetry; apply Z.eqb_eq; exact Hfull).
    unfold ram_class, cdata, set_lru_size, data_size.
    rewrite !set_ram_class_obj. cbn.
    unfold cdata in Hfs, Hfull.
    split; [reflexivity |]. split; [reflexivity |].
    split; [destruct (_ =? Z_OK); cbn; exact Hfs |].
    symmetry. exact Hfull.
  - destruct (compress_resident_small w (proj1 (Z.ltb_ge _ _) Hbig)) as (Hcd & _).
    unfold ram_class, cdata, set_lru_size, data_size.
    rewrite !set_ram_class_obj. cbn. rewrite Hcd. cbn.
    split; [reflexivity |]. split; [reflexivity |]. split; [reflexivity |].
    unfold cdata at 1. rewrite Hcd. symmetry. exact Hfull.
Qed.

(** X12.  Where the transitions end, for a buffer that satisfies the
    invariant of the residency classes: [make_compressed] always ends
    in the class Compressed; [make_resident] ends in Resident, or, when
    the codec reports a length other than [_data_full_size], in
    Compressed with the failed assertion in the output; [make_disk]
    ends on disk exactly when the buffer was on disk already or the save
    file took the bytes, and otherwise leaves the class as it was. *)
Theorem residency_transitions_end w :
  residency_invariant (obj w) ->
  ram_class (make_compressed w) = RC_compressed /\
  (ram_class (make_resident w) = RC_resident \/
   (ram_class (make_resident w) = RC_compressed /\
    In (Ev_assert "dest_len == new_data.size()") (output (make_resident w)))) /\
  (is_on_disk (ram_class (make_disk w)) = true <->
   is_on_disk (ram_class w) = true \/
   write_data (_save_file w) (_data (cdata w)) <> None) /\
  (is_on_disk (ram_class (make_disk w)) = false -> ram_class (make_disk w) = ram_class w).
Proof.
  intros Hinv.
  assert (Hexp : forall v : World SF, ram_class v = RC_compressed ->
            ram_class (expand_compressed v) = RC_resident \/
            (ram_class (expand_compressed v) = RC_compressed /\
             In (Ev_assert "dest_len == new_data.size()") (output (expand_compressed v)))).
  { intros v Hv. unfold expand_compressed.
    destruct (_ <? _).
    - match goal with
      | |- context [if ?c then set_ram_class _ _ else _] => destruct c
      end.
      + left. unfold ram_class. apply set_ram_class_class.
      + right. split; [| simpl; tauto].
        destruct (_ =? Z_OK); exact Hv.
    - left. unfold ram_class. apply set_ram_class_class. }
  assert (Hrest : is_on_disk (ram_class w) = true ->
            exists blk, _saved_block (obj w) = Some blk).
  { intros Hd. destruct Hinv as [Hon _]. destruct (Hon Hd) as [_ Hs].
    destruct (_saved_block (obj w)) as [blk |]; [eauto | contradiction]. }
  split; [| split; [| split]].
  - unfold make_compressed.
    destruct (decide (ram_class w = RC_compressed)) as [Hc | Hc].
    + unfold ram_class. rewrite mark_used_lru_obj. exact Hc.
    + destruct (is_on_disk (ram_class w)) eqn:Hd.
      * destruct (Hrest eq_refl) as [blk Hb].
        rewrite (restore_from_disk_with_block w blk Hd Hb).
        match goal with
        | |- context [set_ram_class ?rc ?x] =>
            assert (E : ram_class (set_ram_class rc x) = rc)
              by (unfold ram_class; apply set_ram_class_class); rewrite E
        end.
        destruct (decide (ram_class w = RC_compressed_disk)).
        -- destruct (decide (RC_compressed = RC_resident)) as [D | _];
             [discriminate D | exact E].
        -- destruct (decide (RC_resident = RC_resident)) as [_ | N];
             [apply compress_resident_class | contradiction].
      * destruct (decide (ram_class w = RC_resident)) as [Hr | Hr];
          [apply compress_resident_class |].
        destruct (ram_class w); simpl in Hd; congruence.
  - unfold make_resident.
    destruct (decide (ram_class w = RC_resident)) as [Hr | Hr].
    + left. unfold ram_class. rewrite mark_used_lru_obj. exact Hr.
    + destruct (is_on_disk (ram_class w)) eqn:Hd.
      * destruct (Hrest eq_refl) as [blk Hb].
        rewrite (restore_from_disk_with_block w blk Hd Hb).
        match goal with
        | |- context [set_ram_class ?rc ?x] =>
            assert (E : ram_class (set_ram_class rc x) = rc)
              by (unfold ram_class; apply set_ram_class_class); rewrite E
        end.
        destruct (decide (ram_class w = RC_compressed_disk)).
        -- destruct (decide (RC_compressed = RC_compressed)) as [_ | N];
             [apply Hexp; exact E | contradiction].
        -- destruct (decide (RC_resident = RC_compressed)) as [D | _];
             [discriminate D | left; exact E].
      * destruct (decide (ram_class w = RC_compressed)) as [Hc | Hc];
          [apply Hexp; exact Hc |].
        destruct (ram_class w); simpl in Hd; congruence.
  - destruct (is_on_disk (ram_class w)) eqn:Hd.
    + rewrite (make_disk_on_disk w Hd). unfold ram_class. rewrite mark_used_lru_obj.
      fold (ram_class w). rewrite Hd. tauto.
    + assert (Hram : is_in_ram (ram_class w) = true)
        by (destruct (ram_class w); simpl in *; congruence).
      pose proof (proj2 Hinv Hram) as Hb.
      destruct (write_data (_save_file w) (_data (cdata w))) as [[blk sf] |] eqn:Hw.
      * rewrite (make_disk_accepted w blk sf Hram Hb Hw).
        unfold ram_class at 1. rewrite set_ram_class_class.
        split; [intros _; right; discriminate |].
        intros _. destruct (decide _); reflexivity.
      * unfold ram_class at 1. rewrite (make_disk_refused_obj w Hram Hb Hw).
        fold (ram_class w). rewrite Hd.
        split; [discriminate |]. intros [H | H]; [discriminate H | contradiction].
  - intros Hoff. destruct (is_on_disk (ram_class w)) eqn:Hd.
    + unfold ram_class. rewrite (make_disk_on_disk w Hd), mark_used_lru_obj. reflexivity.
    + assert (Hram : is_in_ram (ram_class w) = true)
        by (destruct (ram_class w); simpl in *; congruence).
      pose proof (proj2 Hinv Hram) as Hb.
      destruct (write_data (_save_file w) (_data (cdata w))) as [[blk sf] |] eqn:Hw.
      * exfalso. rewrite (make_disk_accepted w blk sf Hram Hb Hw) in Hoff.
        unfold ram_class in Hoff. rewrite set_ram_class_class in Hoff.
        destruct (decide _); discriminate Hoff.
      * unfold ram_class. rewrite (make_disk_refused_obj w Hram Hb Hw). reflexivity.
Qed.

End PromotionFacts.

Lemma make_disk_then_restore_witness :
  obj (make_resident (SFO := SaveFile_ops) (ZL := stored_zlib)
         (make_disk (SFO := SaveFile_ops) scenario_buffer))
  = obj scenario_buffer.
Proof.
  refine (proj2 (proj2
    (make_disk_then_restore (SFO := SaveFile_ops) (ZL := stored_zlib) scenario_buffer
       (mkBlock 0 24) (mkSaveFile (to_size_t (-1)) [(mkBlock 0 24, three_rows)])
       _ _ _ _ _ _)) _).
  - vm_compute. reflexivity.
  - vm_compute. reflexivity.
  - vm_compute. reflexivity.
  - vm_compute. reflexivity.
  - vm_compute. reflexivity.
  - vm_compute. reflexivity.
  - vm_compute. reflexivity.
Defined.

Lemma make_compressed_then_resident_witness :
  _data (cdata (make_resident (SFO := SaveFile_ops) (ZL := stored_zlib)
                  (make_compressed (SFO := SaveFile_ops) (ZL := stored_zlib)
                     (resident_buffer default_config stored_zlib two_floats thirteen_rows))))
  = thirteen_rows.
Proof.
  refine (proj1 (proj2
    (make_compressed_then_resident (SFO := SaveFile_ops) (ZL := stored_zlib)
       (resident_buffer default_config stored_zlib two_floats thirteen_rows) _ _ _))).
  - vm_compute. reflexivity.
  - vm_compute. reflexivity.
  - intros _. cbv zeta. split; vm_compute; reflexivity.
Defined.

Lemma residency_transitions_end_witness :
  ram_class (make_compressed (SFO := SaveFile_ops) (ZL := stored_zlib) spilled_buffer)
  = RC_compressed.
Proof.
  refine (proj1 (residency_transitions_end (SFO := SaveFile_ops) (ZL := stored_zlib)
                   spilled_buffer _)).
  split.
  - intros _. split; [vm_compute; reflexivity | vm_compute; discriminate].
  - vm_compute. discriminate.
Defined.

(** ** The conversion in general *)

Lemma write_bytes_length (m bs m' : list byte) (p : Z) :
  write_bytes m p bs = Some m' -> length m' = length m.
Proof.
  unfold write_bytes. destruct (_ && _) eqn:E; [| discriminate].
  intros [= <-]. apply andb_prop in E. destruct E as [E1 E2].
  apply Z.leb_le in E1, E2.
  rewrite !length_app, length_firstn, length_skipn. lia.
Qed.

Lemma reverse_components_length (n : nat) (cb ci : Z) (source dest dest' : list byte)
    (pi pi' : Z) :
  reverse_components n cb ci source dest pi = Some (dest', pi') ->
  length dest' = length dest.
Proof.
  revert dest pi. induction n as [| n IH]; intros dest pi; cbn.
  - intros [= <- _]. reflexivity.
  - destruct (read_bytes source ci cb) as [nd |]; [| discriminate]. cbn.
    destruct (write_bytes dest ci (ReversedNumericData nd)) as [d1 |] eqn:Ew;
      [| discriminate]. cbn.
    intros H. rewrite (IH _ _ H). apply (write_bytes_length _ _ _ _ Ew).
Qed.

Lemma reverse_columns_length (cols : list GeomVertexColumn) (source dest dest' : list byte)
    (pi pi' : Z) :
  reverse_columns cols source dest pi = Some (dest', pi') ->
  length dest' = length dest.
Proof.
  revert dest pi. induction cols as [| col cols IH]; intros dest pi; cbn.
  - intros [= <- _]. reflexivity.
  - destruct (1 <? _component_bytes col); [| apply IH].
    destruct (reverse_components _ _ _ _ _ _) as [[d1 p1] |] eqn:Ec; [| discriminate].
    cbn. intros H. rewrite (IH _ _ H). apply (reverse_components_length _ _ _ _ _ _ _ _ Ec).
Qed.

Lemma reverse_rows_length (fuel : nat) (fmt : GeomVertexArrayFormat)
    (source dest dest' : list byte) (size pi : Z) :
  reverse_rows fuel fmt source size dest pi = Some dest' ->
  length dest' = length dest.
Proof.
  revert dest pi. induction fuel as [| fuel IH]; intros dest pi; cbn; [discriminate |].
  destruct (pi <? size); [| intros [= <-]; reflexivity].
  destruct (reverse_columns _ _ _ _) as [[d1 p1] |] eqn:Ec; [| discriminate].
  cbn. intros H. rewrite (IH _ _ H). apply (reverse_columns_length _ _ _ _ _ _ Ec).
Qed.

Lemma reversed_copy_length (fmt : GeomVertexArrayFormat) (data out : list byte) :
  reversed_copy fmt data = Some out -> length out = length data.
Proof.
  unfold reversed_copy, reverse_data_endianness. intros H.
  rewrite (reverse_rows_length _ _ _ _ _ _ _ H).
  unfold new_Data. rewrite repeat_length. lia.
Qed.



Lemma reverse_columns_narrow (cols : list GeomVertexColumn) (source dest : list byte) (pi : Z) :
  Forall (fun col => _component_bytes col <= 1) cols ->
  reverse_columns cols source dest pi = Some (dest, pi).
Proof.
  induction 1 as [| col cols Hcol _ IH]; cbn; [reflexivity |].
  replace (1 <? _component_bytes col) with false by (symmetry; apply Z.ltb_ge; exact Hcol).
  exact IH.
Qed.

Lemma reverse_rows_narrow (fuel : nat) (fmt : GeomVertexArrayFormat)
    (source dest : list byte) (size pi : Z) :
  0 < get_stride fmt ->
  Forall (fun col => _component_bytes col <= 1) (_columns fmt) ->
  size + get_stride fmt <= 2 ^ 64 ->
  0 <= pi ->
  Z.max 0 (size - pi) < Z.of_nat fuel ->
  reverse_rows fuel fmt source size dest pi = Some dest.
Proof.
  intros Hs Hcols Hmax. revert pi. induction fuel as [| fuel IH]; intros pi Hpi Hfuel; cbn.
  - lia.
  - destruct (pi <? size) eqn:E; [| reflexivity].
    apply Z.ltb_lt in E.
    rewrite (reverse_columns_narrow _ _ _ _ Hcols). cbn.
    rewrite to_size_t_small by lia.
    apply IH; lia.
Qed.

(** X14.  Bytes of columns whose components are one byte wide do not
    pass the conversion.  For a format with a positive stride all of
    whose columns have components of at most one byte, the row loop
    ends and leaves the fresh destination untouched: the converted copy
    of any data is as many zero bytes, and that is what
    [CData::write_datagram] appends to a stream of the other byte order. *)
Theorem reversed_copy_of_narrow_columns (fmt : GeomVertexArrayFormat) (data : list byte) :
  0 < get_stride fmt ->
  Forall (fun col => _component_bytes col <= 1) (_columns fmt) ->
  Z.of_nat (length data) + get_stride fmt <= 2 ^ 64 ->
  reversed_copy fmt data = Some (repeat x00 (length data)) /\
  (forall (dg : list byte) (a : GeomVertexArrayData) (cd : CData),
     _array_format a = Some fmt -> _data cd = data ->
     CData_write_datagram (bam_writer false) dg a cd
     = Some (add_uint32 (Z.of_nat (length data))
               (add_uint8 (UsageHint_to_Z (_usage_hint cd)) dg)
             ++ repeat x00 (length data))).
Proof.
  intros Hs Hcols Hmax.
  assert (E : reversed_copy fmt data = Some (repeat x00 (length data))).
  { unfold reversed_copy, reverse_data_endianness.
    rewrite (reverse_rows_narrow _ fmt data _ _ 0 Hs Hcols Hmax) by lia.
    unfold new_Data. rewrite Nat2Z.id. reflexivity. }
  split; [exact E |].
  intros dg a cd Hf Hd. unfold CData_write_datagram, bam_writer.
  cbn [writer_file_endian_native]. rewrite Hf, Hd.
  cbn [mbind option_bind]. rewrite E. reflexivity.
Qed.

(** ** Reading a record of any reader *)


Section ReadIntoFacts.
Context {SF : Type}.
Implicit Types (w : World SF).






Lemma CData_fillin_state (scan scan' : DatagramIterator) (manager : BamReader) w w1 :
  CData_fillin scan manager w = Some (scan', w1) ->
  _data_full_size (cdata w1) = data_size w1 /\
  _lru_size (obj w1) = data_size w1 /\
  _array_format (obj w1) = _array_format (obj w) /\
  _endian_reversed (obj w1)
  = match _array_format (obj w) with
    | None => negb (reader_file_endian_native manager) || _endian_reversed (obj w)
    | Some _ => _endian_reversed (obj w)
    end /\
  _this (obj w1) = _this (obj w) /\
  _saved_block (obj w1) = _saved_block (obj w) /\
  _contexts (obj w1) = _contexts (obj w) /\
  _modified (cdata w1) = next_modified w /\
  next_modified w1 = next_modified w + 1.
Proof.
  unfold CData_fillin.
  destruct (get_uint8 scan) as [[h s1] |]; [| discriminate].
  cbn [mbind option_bind fst snd].
  destruct (if get_file_minor_ver manager <? 8 then _ else _) as [[d s2] |];
    [| discriminate].
  cbn [mbind option_bind fst snd].
  destruct (reader_file_endian_native manager); cbn [negb orb].
  - cbn [mbind option_bind]. intros [= _ <-]. cbn.
    destruct (_array_format (obj w)); repeat split; reflexivity.
  - change (_array_format (obj (with_cdata (cd_set_data d)
              (with_cdata (cd_set_usage_hint (UsageHint_of_Z h)) w))))
      with (_array_format (obj w)).
    destruct (_array_format (obj w)) as [f |] eqn:Hf.
    + destruct (reversed_copy f _) as [nd |]; [| discriminate].
      cbn [mbind option_bind]. intros [= _ <-]. cbn.
      repeat split; first [reflexivity | exact Hf].
    + cbn [mbind option_bind]. intros [= _ <-]. cbn.
      repeat split; first [reflexivity | exact Hf].
Qed.

Lemma finalize_state w w' :
  finalize w = Some w' ->
  (exists g, _array_format (obj w) = Some g /\
             _array_format (obj w') = Some (register_format g)) /\
  ram_class w' = RC_resident /\
  enrolled (obj w') /\
  data_size w' = data_size w /\
  _data_full_size (cdata w') = _data_full_size (cdata w) /\
  _lru_size (obj w') = _lru_size (obj w) /\
  _endian_reversed (obj w') = _endian_reversed (obj w) /\
  _this (obj w') = _this (obj w) /\
  _saved_block (obj w') = _saved_block (obj w) /\
  _contexts (obj w') = _contexts (obj w) /\
  _modified (cdata w') = _modified (cdata w).
Proof.
  unfold finalize. destruct (_array_format (obj w)) as [g |] eqn:Hg; [| discriminate].
  cbn [mbind option_bind].
  change (_endian_reversed (obj (with_obj (set_array_format (Some (register_format g))) w)))
    with (_endian_reversed (obj w)).
  change (_data (cdata (with_obj (set_array_format (Some (register_format g))) w)))
    with (_data (cdata w)).
  destruct (_endian_reversed (obj w)) eqn:Hrev.
  - destruct (reversed_copy (register_format g) (_data (cdata w))) as [nd |] eqn:Hc;
      [| discriminate].
    apply reversed_copy_length in Hc.
    cbn [mbind option_bind]. intros [= <-].
    unfold ram_class, enrolled, data_size, cdata. rewrite set_ram_class_obj. cbn.
    rewrite Hc, Hrev. repeat split; try reflexivity. exists g. split; reflexivity.
  - cbn [mbind option_bind]. intros [= <-].
    unfold ram_class, enrolled, data_size, cdata. rewrite set_ram_class_obj. cbn.
    rewrite Hrev. repeat split; try reflexivity. exists g. split; reflexivity.
Qed.

(** X16.  Whatever the stream holds and whatever the reader, a buffer
    that [make_from_bam] and the reader's later passes deliver is sound:
    it is Resident and enrolled in the tier of resident pages, has no
    SaveBlock and no contexts, carries a registered format, was stamped
    with the modification count of the read, and its [_data_full_size] and the size of
    its page both equal the number of bytes it holds, also after the
    conversion put off to [finalize].  A new object has no format in
    [fillin], so its [_endian_reversed] flag ends up set exactly when
    the file has the other byte order, and [finalize] never clears it. *)
Theorem read_datagram_state (this : Z) (scan : DatagramIterator) (manager : BamReader) w w' :
  read_datagram this scan manager w = Some w' ->
  ram_class w' = RC_resident /\
  enrolled (obj w') /\
  residency_invariant (obj w') /\
  _data_full_size (cdata w') = data_size w' /\
  _lru_size (obj w') = data_size w' /\
  (exists g, _array_format (obj w') = Some g /\ is_registered g = true) /\
  _this (obj w') = this /\
  _contexts (obj w') = ∅ /\
  _endian_reversed (obj w') = negb (reader_file_endian_native manager) /\
  _modified (cdata w') = next_modified w.
Proof.
  unfold read_datagram, fillin.
  destruct (read_pointer scan) as [[id s1] |]; [| discriminate].
  cbn [mbind option_bind fst snd].
  destruct (CData_fillin s1 manager _) as [[s2 w1] |] eqn:Hfill; [| discriminate].
  cbn [mbind option_bind fst snd].
  apply CData_fillin_state in Hfill.
  destruct Hfill as (Hfull & Hlru & _ & Hrev & Hthis & Hblk & Hctx & Hmod & _).
  intros Hfin. apply finalize_state in Hfin.
  destruct Hfin as ((g & _ & Hg) & Hrc & Henr & Hsize & Hfull' & Hlru' & Hrev' & Hthis'
                    & Hblk' & Hctx' & Hmod').
  cbn in Hrev, Hthis, Hblk, Hctx, Hmod, Hfull', Hlru', Hrev', Hthis', Hblk', Hctx', Hsize,
    Hmod'.
  unfold data_size in *. cbn in Hsize, Hfull, Hlru.
  split; [exact Hrc |]. split; [exact Henr |].
  split.
  { unfold ram_class in Hrc. split.
    - rewrite Hrc. discriminate.
    - intros _. rewrite Hblk'. exact Hblk. }
  split; [rewrite Hfull', Hsize; exact Hfull |].
  split; [rewrite Hlru', Hsize; exact Hlru |].
  split; [exists (register_format g); split; [exact Hg | reflexivity] |].
  split; [rewrite Hthis'; exact Hthis |].
  split; [rewrite Hctx'; exact Hctx |].
  split; [rewrite Hrev', Hrev; apply orb_false_r |].
  rewrite Hmod'. exact Hmod.
Qed.

End ReadIntoFacts.


Lemma read_datagram_state_witness :
  exists w',
    read_datagram 8192
      (mkScan (append_data three_rows
                 (add_uint32 24 (add_uint8 (UsageHint_to_Z UH_static) (add_uint16 1 []))))
              0)
      (bam_reader true two_floats) scenario_buffer = Some w' /\
    ram_class w' = RC_resident /\ data_size w' = 24.
Proof.
  eexists. split; [vm_compute; reflexivity |].
  split; [| vm_compute; reflexivity].
  refine (proj1 (read_datagram_state 8192
            (mkScan (append_data three_rows
                       (add_uint32 24 (add_uint8 (UsageHint_to_Z UH_static)
                                         (add_uint16 1 []))))
                    0)
            (bam_reader true two_floats) scenario_buffer _ _)).
  vm_compute. reflexivity.
Defined.

Lemma reversed_copy_of_narrow_columns_witness :
  reversed_copy (mkFormat true 4 [mkColumn 0 4 1]) (bytes_of [1; 2; 3; 4; 5; 6; 7; 8])
  = Some (repeat x00 8).
Proof.
  refine (proj1 (reversed_copy_of_narrow_columns (mkFormat true 4 [mkColumn 0 4 1])
                   (bytes_of [1; 2; 3; 4; 5; 6; 7; 8]) _ _ _)).
  - vm_compute. reflexivity.
  - repeat constructor. vm_compute. discriminate.
  - vm_compute. discriminate.
Defined.

(** ** ProfileTimer: what [mark] records *)

Section TimerFacts.
Import ProfileTimer.
Context {double : Type}.
Variables (dadd dsub : double -> double -> double) (dzero : double).
Implicit Types (t : ProfileTimer double) (tag : string) (time : double).

Lemma entry_at_in_array (es : list (TimerEntry double)) (i : Z) :
  0 <= i < Z.of_nat (length es) ->
  exists e, entry_at es i = Some e /\ es !! Z.to_nat i = Some e.
Proof.
  intros Hi. unfold entry_at.
  replace (0 <=? i) with true by (symmetry; apply Z.leb_le; lia).
  destruct (lookup_lt_is_Some_2 es (Z.to_nat i) ltac:(lia)) as [e He].
  exists e. split; exact He.
Qed.

(** One call with room left: the entry goes to the slot of the count. *)
Lemma mark_with_room tag time t es :
  _entries t = Some es ->
  Z.of_nat (length es) = _maxEntries t ->
  0 <= _entryCount t < _maxEntries t - 1 ->
  mark dadd dsub dzero tag time t
  = Returns (mkTimer time dzero
               (Some (<[Z.to_nat (_entryCount t)
                        := mkEntry tag (dadd (_elapsedTime t) (dsub time (_on t)))]> es))
               (_entryCount t + 1) (_maxEntries t) (_autoTimerCount t)).
Proof.
  intros Hes Hlen Hc. unfold mark. rewrite Hes.
  replace (_entryCount t <? _maxEntries t - 1) with true by (symmetry; apply Z.ltb_lt; lia).
  destruct (entry_at_in_array es (_entryCount t) ltac:(lia)) as (e & -> & _).
  reflexivity.
Qed.

(** One call with the count on the last slot: only the tag of that slot
    changes. *)
Lemma mark_without_room tag time t es :
  _entries t = Some es ->
  Z.of_nat (length es) = _maxEntries t ->
  0 <= _entryCount t ->
  _entryCount t = _maxEntries t - 1 ->
  exists e,
    es !! Z.to_nat (_entryCount t) = Some e /\
    mark dadd dsub dzero tag time t
    = Returns (mkTimer (_on t) (_elapsedTime t)
                 (Some (<[Z.to_nat (_entryCount t)
                          := mkEntry "*** Overflow ***" (_time e)]> es))
                 (_entryCount t) (_maxEntries t) (_autoTimerCount t)).
Proof.
  intros Hes Hlen Hc0 Hc. unfold mark. rewrite Hes.
  replace (_entryCount t <? _maxEntries t - 1) with false by (symmetry; apply Z.ltb_ge; lia).
  destruct (entry_at_in_array es (_entryCount t) ltac:(lia)) as (e & -> & He).
  exists e. split; [exact He | reflexivity].
Qed.

Lemma mark_step tag time t :
  has_room_for_overflow t ->
  exists t',
    mark dadd dsub dzero tag time t = Returns t' /\
    has_room_for_overflow t' /\
    _maxEntries t' = _maxEntries t /\
    _entryCount t' = Z.min (_entryCount t + 1) (_maxEntries t - 1) /\
    take (Z.to_nat (_entryCount t)) (recorded t') = recorded t.
Proof.
  intros (es & Hes & Hlen & Hc).
  destruct (Z.eq_dec (_entryCount t) (_maxEntries t - 1)) as [Hfull | Hroom].
  - destruct (mark_without_room tag time t es Hes Hlen ltac:(lia) Hfull) as (e & _ & ->).
    eexists. split; [reflexivity |].
    unfold has_room_for_overflow, recorded. cbn [_maxEntries _entryCount _entries].
    split.
    { eexists. split; [reflexivity |]. rewrite length_insert. lia. }
    split; [reflexivity |]. split; [lia |].
    rewrite Hes, take_take, Nat.min_id. apply take_insert_ge. lia.
  - rewrite (mark_with_room tag time t es Hes Hlen ltac:(lia)).
    eexists. split; [reflexivity |].
    unfold has_room_for_overflow, recorded. cbn [_maxEntries _entryCount _entries].
    split.
    { eexists. split; [reflexivity |]. rewrite length_insert. lia. }
    split; [reflexivity |]. split; [lia |].
    rewrite Hes, take_take, Nat.min_l by lia. apply take_insert_ge. lia.
Qed.

(** X17.  [mark] never records more than [_maxEntries - 1] entries and
    never leaves the array.  On a timer whose array has [_maxEntries]
    slots and whose count is between 0 and [_maxEntries - 1], every run
    of [mark] calls returns (no exit, no index out of the array); after
    it the same holds again, the count is the old count plus the number
    of calls, capped at [_maxEntries - 1], and the entries recorded
    before the run are as they were. *)
Theorem marks_saturate (calls : list (string * double)) t :
  has_room_for_overflow t ->
  exists t',
    marks dadd dsub dzero calls t = Returns t' /\
    has_room_for_overflow t' /\
    _maxEntries t' = _maxEntries t /\
    _entryCount t' = Z.min (_entryCount t + Z.of_nat (length calls)) (_maxEntries t - 1) /\
    take (Z.to_nat (_entryCount t)) (recorded t') = recorded t.
Proof.
  revert t. induction calls as [| [tag time] calls IH]; intros t Hroom.
  - exists t. split; [reflexivity |]. split; [exact Hroom |]. split; [reflexivity |].
    destruct Hroom as (es & Hes & Hlen & Hc).
    split; [cbn; lia |].
    unfold recorded. rewrite Hes. rewrite take_take, Nat.min_id. reflexivity.
  - destruct (mark_step tag time t Hroom) as (t1 & Hm & Hroom1 & Hmax1 & Hc1 & Hrec1).
    destruct (IH t1 Hroom1) as (t' & Hms & Hroom' & Hmax' & Hc' & Hrec').
    exists t'. cbn [marks]. rewrite Hm.
    split; [exact Hms |]. split; [exact Hroom' |]. split; [congruence |].
    destruct Hroom as (es & Hes & Hlen & Hc).
    split.
    { rewrite Hc', Hc1, Hmax1. cbn [length]. lia. }
    rewrite <- Hrec1, <- Hrec'.
    rewrite take_take. f_equal. lia.
Qed.


Lemma recorded_after_insert (es : list (TimerEntry double)) (p : TimerEntry double) (c : Z) :
  0 <= c < Z.of_nat (length es) ->
  take (Z.to_nat (c + 1)) (<[Z.to_nat c := p]> es) = take (Z.to_nat c) es ++ [p].
Proof.
  intros Hc. replace (Z.to_nat (c + 1)) with (S (Z.to_nat c)) by lia.
  rewrite (take_S_r _ _ p) by (apply list_lookup_insert_eq; lia).
  rewrite take_insert_ge by lia. reflexivity.
Qed.

(** X18.  With room left, [mark(tag)] appends one entry to the entries
    recorded: the tag with the time accumulated so far plus the time
    since [_on]; it restarts the interval at the reading just taken and
    clears the accumulated time, and it leaves the last slot of the
    array alone. *)
Theorem mark_records tag time t :
  has_room_for_overflow t ->
  _entryCount t < _maxEntries t - 1 ->
  exists t',
    mark dadd dsub dzero tag time t = Returns t' /\
    recorded t' = recorded t ++ [mkEntry tag (dadd (_elapsedTime t) (dsub time (_on t)))] /\
    _entryCount t' = _entryCount t + 1 /\
    _on t' = time /\
    _elapsedTime t' = dzero /\
    (exists es es', _entries t = Some es /\ _entries t' = Some es' /\
                    last es' = last es).
Proof.
  intros (es & Hes & Hlen & Hc) Hroom.
  rewrite (mark_with_room tag time t es Hes Hlen ltac:(lia)).
  eexists. split; [reflexivity |].
  unfold recorded. cbn [_maxEntries _entryCount _entries _on _elapsedTime]. rewrite Hes.
  split; [apply recorded_after_insert; lia |].
  split; [reflexivity |]. split; [reflexivity |]. split; [reflexivity |].
  exists es. eexists. split; [reflexivity |]. split; [reflexivity |].
  rewrite !last_lookup, length_insert.
  apply list_lookup_insert_ne. lia.
Qed.

(** X19.  With the count on the last slot, [mark] records nothing: it
    takes no reading of the clock, leaves [_on], the accumulated time,
    the count and the entries recorded as they are, and writes the tag
    of the last slot only, so that a second call changes nothing any
    more. *)
Theorem mark_on_full_timer tag tag' time time' t :
  has_room_for_overflow t ->
  _entryCount t = _maxEntries t - 1 ->
  exists t',
    mark dadd dsub dzero tag time t = Returns t' /\
    recorded t' = recorded t /\
    _entryCount t' = _entryCount t /\
    _on t' = _on t /\
    _elapsedTime t' = _elapsedTime t /\
    (exists es es' e, _entries t = Some es /\ _entries t' = Some es' /\
                      last es = Some e /\
                      last es' = Some (mkEntry "*** Overflow ***" (_time e))) /\
    mark dadd dsub dzero tag' time' t' = Returns t'.
Proof.
  intros (es & Hes & Hlen & Hc) Hfull.
  destruct (mark_without_room tag time t es Hes Hlen ltac:(lia) Hfull) as (e & He & Hm).
  rewrite Hm. eexists. split; [reflexivity |].
  unfold recorded. cbn [_maxEntries _entryCount _entries _on _elapsedTime]. rewrite Hes.
  split; [apply take_insert_ge; lia |].
  split; [reflexivity |]. split; [reflexivity |]. split; [reflexivity |].
  assert (Hlast : Z.to_nat (_entryCount t) = pred (length es)) by lia.
  split.
  { exists es. eexists. exists e. split; [reflexivity |]. split; [reflexivity |].
    rewrite !last_lookup, length_insert, <- Hlast.
    split; [exact He |]. apply list_lookup_insert_eq. lia. }
  match goal with |- mark _ _ _ _ _ ?u = _ => set (t1 := u) end.
  destruct (mark_without_room tag' time' t1 _ eq_refl) as (e1 & He1 & Hm1).
  - cbn. rewrite length_insert. exact Hlen.
  - cbn. lia.
  - cbn. exact Hfull.
  - rewrite Hm1. cbn in He1 |- *.
    rewrite list_lookup_insert_eq in He1 by lia. injection He1 as <-.
    cbn. rewrite list_insert_insert_eq. reflexivity.
Qed.

(** X20.  [off(tag)] counts the time since [_on] twice: [off] adds it to
    the accumulated time and does not move [_on], and the [getTime]
    inside [mark] adds the time since the same [_on] again.  With room
    left, the entry recorded holds the accumulated time plus the time
    from [_on] to the reading of [off] plus the time from [_on] to the
    reading of [getTime]. *)
Theorem off_tag_counts_twice tag time time' t :
  has_room_for_overflow t ->
  _entryCount t < _maxEntries t - 1 ->
  exists t',
    off_tag dadd dsub dzero tag time time' t = Returns t' /\
    recorded t'
    = recorded t
      ++ [mkEntry tag (dadd (dadd (_elapsedTime t) (dsub time (_on t))) (dsub time' (_on t)))] /\
    _on t' = time' /\
    _elapsedTime t' = dzero.
Proof.
  intros (es & Hes & Hlen & Hc) Hroom. unfold off_tag.
  rewrite (mark_with_room tag time' (off dadd dsub time t) es Hes Hlen)
    by (cbn; lia).
  eexists. split; [reflexivity |].
  unfold recorded. cbn [_maxEntries _entryCount _entries _on _elapsedTime off]. rewrite Hes.
  split; [apply recorded_after_insert; lia |].
  split; reflexivity.
Qed.

End TimerFacts.

Lemma marks_saturate_witness :
  exists t',
    ProfileTimer.marks Z.add Z.sub 0
      [("a"%string, 110); ("b"%string, 125); ("c"%string, 130); ("d"%string, 150);
       ("e"%string, 175)]
      ProfileTimer.four_slots = ProfileTimer.Returns t' /\
    ProfileTimer._entryCount t' = 3.
Proof.
  destruct (marks_saturate Z.add Z.sub 0
              [("a"%string, 110); ("b"%string, 125); ("c"%string, 130); ("d"%string, 150);
               ("e"%string, 175)]
              ProfileTimer.four_slots)
    as (t' & H & _ & _ & Hc & _).
  - eexists. split; [reflexivity |]. vm_compute. split; [reflexivity |].
    split; discriminate.
  - exists t'. split; [exact H | exact Hc].
Defined.

Lemma mark_records_witness :
  exists t',
    ProfileTimer.mark Z.add Z.sub 0 "load" 130 ProfileTimer.four_slots
    = ProfileTimer.Returns t' /\
    ProfileTimer.recorded t' = [ProfileTimer.mkEntry "load" 30].
Proof.
  destruct (mark_records Z.add Z.sub 0 "load" 130 ProfileTimer.four_slots)
    as (t' & H & Hrec & _).
  - eexists. split; [reflexivity |]. vm_compute. split; [reflexivity |].
    split; discriminate.
  - vm_compute. reflexivity.
  - exists t'. split; [exact H | exact Hrec].
Defined.

Lemma mark_on_full_timer_witness :
  exists t',
    ProfileTimer.mark Z.add Z.sub 0 "late" 130
      (ProfileTimer.mkTimer 100 0 (ProfileTimer._entries ProfileTimer.four_slots) 3 4 0)
    = ProfileTimer.Returns t' /\
    ProfileTimer._on t' = 100.
Proof.
  destruct (mark_on_full_timer Z.add Z.sub 0 "late" "later" 130 140
              (ProfileTimer.mkTimer 100 0 (ProfileTimer._entries ProfileTimer.four_slots) 3 4 0))
    as (t' & H & _ & _ & Hon & _).
  - eexists. split; [reflexivity |]. vm_compute. split; [reflexivity |].
    split; discriminate.
  - vm_compute. reflexivity.
  - exists t'. split; [exact H | exact Hon].
Defined.

Lemma off_tag_counts_twice_witness :
  exists t',
    ProfileTimer.off_tag Z.add Z.sub 0 "load" 130 131 ProfileTimer.four_slots
    = ProfileTimer.Returns t' /\
    ProfileTimer.recorded t' = [ProfileTimer.mkEntry "load" 61].
Proof.
  destruct (off_tag_counts_twice Z.add Z.sub 0 "load" 130 131 ProfileTimer.four_slots)
    as (t' & H & Hrec & _).
  - eexists. split; [reflexivity |]. vm_compute. split; [reflexivity |].
    split; discriminate.
  - vm_compute. reflexivity.
  - exists t'. split; [exact H | exact Hrec].
Defined.
